(** * A sandboxed view over a directory tree: path resolution, exclusion,
      bounded listings and snapshot browsing.

    Shallow embedding of [app/file_system.py] and [app/models.py].

    - Python [str] values are [string]s (byte strings; every path and
      separator handled below is ASCII).
    - Python [int] values are [Z]; [None]-able attributes are [option]s and
      the truth value Python gives them is written out.
    - A raised exception is the [Raise] branch of [result]; [try]/[except]
      is a [match] that names the caught class.
    - The functions of [os.path] (POSIX flavour), [os], [datetime.strptime]
      and [list.sort] the code calls are embedded from their library
      sources in modules of their own. *)

From Stdlib Require Import String Ascii List ZArith Bool Lia Arith.
From Stdlib Require Import Sorting.Sorted Sorting.Permutation.
From Stdlib Require Import Structures.OrderedTypeEx.
From Stdlib Require Init.Byte.
Import ListNotations.

Local Open Scope list_scope.
Local Open Scope string_scope.

Set Implicit Arguments.

#[local] Arguments Ascii.eqb : simpl nomatch.
#[local] Arguments String.eqb : simpl nomatch.

(** ** Exceptions and results *)

(** The exception classes the code raises or meets.  [ValueError] and
    [SystemExit] carry the message the source builds; the [OSError] family
    carries the offending path. *)
Inductive exn : Type :=
| ValueError (msg : string)
| SystemExit (msg : string)
| IndexError
| FileNotFoundError (path : string)
| NotADirectoryError (path : string)
| IsADirectoryError (path : string).

(** [SystemExit] derives from [BaseException] only: it asks the interpreter
    to exit and is not caught by [except Exception].  Every other class
    above derives from [Exception]. *)
Definition is_ordinary_error (e : exn) : bool :=
  match e with
  | SystemExit _ => false
  | _ => true
  end.

Inductive result (A : Type) : Type :=
| Ok (a : A)
| Raise (e : exn).

Arguments Ok {A} a.
Arguments Raise {A} e.

Definition bind {A B : Type} (c : result A) (k : A -> result B) : result B :=
  match c with
  | Ok a => k a
  | Raise e => Raise e
  end.

Notation "x <- c ;; k" := (bind c (fun x => k))
  (at level 61, c at next level, right associativity).
Notation "c ;;; k" := (bind c (fun _ => k))
  (at level 61, right associativity).

(** [if cond: raise e] *)
Definition raise_if (cond : bool) (e : exn) : result unit :=
  if cond then Raise e else Ok tt.

(** ** String primitives of Python used by the code *)

Definition sep : ascii := "/"%char.

(** [s.startswith(p)] *)
Fixpoint startswith (s p : string) {struct p} : bool :=
  match p with
  | EmptyString => true
  | String a p' =>
      match s with
      | EmptyString => false
      | String b s' => Ascii.eqb a b && startswith s' p'
      end
  end.

(** [s.endswith("/")] *)
Fixpoint endswith_sep (s : string) : bool :=
  match s with
  | EmptyString => false
  | String c EmptyString => Ascii.eqb c sep
  | String _ s' => endswith_sep s'
  end.

(** [s.split("/")]: never empty; [""] splits to [[""]]. *)
Fixpoint split_sep (s : string) : list string :=
  match s with
  | EmptyString => [EmptyString]
  | String c s' =>
      if Ascii.eqb c sep then EmptyString :: split_sep s'
      else match split_sep s' with
           | h :: t => String c h :: t
           | [] => [String c EmptyString]
           end
  end.

(** ["/".join(l)] *)
Definition join_sep (l : list string) : string := String.concat "/" l.

(** [s.rfind("/") + 1]: the index just after the last separator, 0 when
    there is none. *)
Fixpoint after_last_sep (s : string) : nat :=
  match s with
  | EmptyString => 0
  | String c s' =>
      match after_last_sep s' with
      | S i => S (S i)
      | O => if Ascii.eqb c sep then 1 else 0
      end
  end.

(** [s[:i]] and [s[i:]] *)
Fixpoint str_take (i : nat) (s : string) : string :=
  match i, s with
  | S i', String c s' => String c (str_take i' s')
  | _, _ => EmptyString
  end.

Fixpoint str_drop (i : nat) (s : string) : string :=
  match i, s with
  | S i', String _ s' => str_drop i' s'
  | _, _ => s
  end.

(** [s.rstrip("/")] *)
Fixpoint rstrip_sep (s : string) : string :=
  match s with
  | EmptyString => EmptyString
  | String c s' =>
      match rstrip_sep s' with
      | EmptyString => if Ascii.eqb c sep then EmptyString else String c EmptyString
      | r => String c r
      end
  end.

(** [s == "/" * len(s)] *)
Fixpoint all_sep (s : string) : bool :=
  match s with
  | EmptyString => true
  | String c s' => Ascii.eqb c sep && all_sep s'
  end.

(** Python's [<] on lists of strings: the first differing position decides,
    a proper prefix is smaller. *)
Fixpoint list_lt (l1 l2 : list string) : bool :=
  match l1, l2 with
  | [], [] => false
  | [], _ :: _ => true
  | _ :: _, [] => false
  | x :: l1', y :: l2' => if String.eqb x y then list_lt l1' l2' else String.ltb x y
  end.

(** [min(l)] and [max(l)] of a non-empty list, as the builtins scan it. *)
Definition py_min (x : list string) (rest : list (list string)) : list string :=
  fold_left (fun m item => if list_lt item m then item else m) rest x.

Definition py_max (x : list string) (rest : list (list string)) : list string :=
  fold_left (fun m item => if list_lt m item then item else m) rest x.

(** ** [posixpath] *)

Module posixpath.

(** [isabs(s)] *)
Definition isabs (s : string) : bool := startswith s "/".

(** [join(a, b)] *)
Definition join (a b : string) : string :=
  if startswith b "/" then b
  else if String.eqb a "" || endswith_sep a then a ++ b
  else a ++ "/" ++ b.

(** [basename(p)] *)
Definition basename (p : string) : string :=
  str_drop (after_last_sep p) p.

(** [dirname(p)] *)
Definition dirname (p : string) : string :=
  let head := str_take (after_last_sep p) p in
  if negb (String.eqb head "") && negb (all_sep head) then rstrip_sep head
  else head.

(** The value [normpath] gives [initial_slashes]: POSIX keeps exactly two
    leading slashes apart, three or more count as one. *)
Definition initial_slashes (path : string) : nat :=
  if startswith path "/" then
    if startswith path "//" && negb (startswith path "///") then 2 else 1
  else 0.

(** One turn of the loop of [normpath] over [comps]. *)
Definition norm_step (initial : nat) (new_comps : list string) (comp : string)
  : list string :=
  if String.eqb comp "" || String.eqb comp "." then new_comps
  else if negb (String.eqb comp "..")
          || (Nat.eqb initial 0 && Nat.eqb (List.length new_comps) 0)
          || String.eqb (List.last new_comps "") ".."
       then (new_comps ++ [comp])%list
       else List.removelast new_comps.

Definition slashes (n : nat) : string :=
  match n with
  | 0 => ""
  | 1 => "/"
  | _ => "//"
  end.

(** [normpath(path)] *)
Definition normpath (path : string) : string :=
  if String.eqb path "" then "."
  else
    let initial := initial_slashes path in
    let comps := fold_left (norm_step initial) (split_sep path) [] in
    let path' := slashes initial ++ join_sep comps in
    if String.eqb path' "" then "." else path'.

(** [abspath(path)], in a process whose working directory is [cwd]. *)
Definition abspath (cwd path : string) : string :=
  normpath (if isabs path then path else join cwd path).

(** The components [commonpath] compares: the pieces between separators
    that are neither empty nor ["."]. *)
Definition components (path : string) : list string :=
  filter (fun c => negb (String.eqb c "") && negb (String.eqb c "."))
         (split_sep path).

(** The loop of [commonpath]: the longest prefix of [s1] that agrees with
    [s2]; indexing [s2] past its end raises [IndexError]. *)
Fixpoint common_loop (s1 s2 : list string) : result (list string) :=
  match s1 with
  | [] => Ok []
  | c :: s1' =>
      match s2 with
      | [] => Raise IndexError
      | d :: s2' =>
          if String.eqb c d then r <- common_loop s1' s2' ;; Ok (c :: r)
          else Ok []
      end
  end.

(** [commonpath(paths)] *)
Definition commonpath (paths : list string) : result string :=
  match paths with
  | [] => Raise (ValueError "commonpath() arg is an empty sequence")
  | p0 :: ps =>
      let abs0 := isabs p0 in
      if negb (forallb (fun p => Bool.eqb (isabs p) abs0) ps)
      then Raise (ValueError "Can't mix absolute and relative paths")
      else
        let s1 := py_min (components p0) (map components ps) in
        let s2 := py_max (components p0) (map components ps) in
        common <- common_loop s1 s2 ;;
        Ok ((if abs0 then "/" else "") ++ join_sep common)
  end.

End posixpath.

(** ** The operating system: a directory tree and a working directory *)

Module os.

(** A directory tree without links.  A directory lists its children in the
    order [scandir] enumerates them. *)
#[warnings="-register-all"]
Inductive node : Type :=
| File (content : list Byte.byte)
| Dir (st_size : Z) (children : list (string * node)).

(** The state of the machine the calls run against.  The working
    directory of a process is an absolute path. *)
Record world : Type := {
  root : node;       (* the directory [/] *)
  getcwd : string;   (* [os.getcwd()] *)
  getcwd_isabs : posixpath.isabs getcwd = true;
}.

Fixpoint child (name : string) (children : list (string * node)) : option node :=
  match children with
  | [] => None
  | (n, nd) :: rest => if String.eqb n name then Some nd else child name rest
  end.

(** Path resolution as the kernel does it, one component at a time.
    [up] holds the ancestors of [cur], nearest first.  Every component,
    also an empty one or ["."], is looked up in a directory; [".."] moves
    to the parent and stays at the root. *)
Fixpoint walk (up : list node) (cur : node) (comps : list string)
  : option (list node * node) :=
  match comps with
  | [] => Some (up, cur)
  | c :: rest =>
      match cur with
      | File _ => None
      | Dir _ children =>
          if String.eqb c "" || String.eqb c "." then walk up cur rest
          else if String.eqb c ".." then
                 match up with
                 | [] => walk [] cur rest
                 | parent :: up' => walk up' parent rest
                 end
          else match child c children with
               | Some nd => walk (cur :: up) nd rest
               | None => None
               end
      end
  end.

(** A path as the kernel reads it: a relative path starts at the working
    directory. *)
Definition absolute (w : world) (path : string) : string :=
  if posixpath.isabs path then path else posixpath.join (getcwd w) path.

(** Where a path leads, if anywhere: the node and its ancestors.  The empty
    path leads nowhere. *)
Definition resolve (w : world) (path : string) : option (list node * node) :=
  if String.eqb path "" then None
  else walk [] (root w) (split_sep (absolute w path)).

(** The node a path names, if any. *)
Definition lookup (w : world) (path : string) : option node :=
  option_map snd (resolve w path).

(** [os.path.exists], [os.path.isdir] *)
Definition path_exists (w : world) (path : string) : bool :=
  match lookup w path with
  | Some _ => true
  | None => false
  end.

Definition is_dir_node (nd : node) : bool :=
  match nd with
  | Dir _ _ => true
  | File _ => false
  end.

Definition isdir (w : world) (path : string) : bool :=
  match lookup w path with
  | Some nd => is_dir_node nd
  | None => false
  end.

Definition node_size (nd : node) : Z :=
  match nd with
  | File content => Z.of_nat (List.length content)
  | Dir sz _ => sz
  end.

(** [os.stat(path).st_size] *)
Definition stat_size (w : world) (path : string) : result Z :=
  match lookup w path with
  | Some nd => Ok (node_size nd)
  | None => Raise (FileNotFoundError path)
  end.

(** An [os.DirEntry]. *)
Record DirEntry : Type := {
  name : string;
  path : string;
  is_dir : bool;
  st_size : Z;
}.

(** [os.scandir(path)], read to its end. *)
Definition scandir (w : world) (dir : string) : result (list DirEntry) :=
  match lookup w dir with
  | Some (Dir _ children) =>
      Ok (map (fun '(n, nd) =>
                 {| name := n;
                    path := posixpath.join dir n;
                    is_dir := is_dir_node nd;
                    st_size := node_size nd |}) children)
  | Some (File _) => Raise (NotADirectoryError dir)
  | None => Raise (FileNotFoundError dir)
  end.

(** [open(path, "rb").read()] *)
Definition read_bytes (w : world) (path : string) : result (list Byte.byte) :=
  match lookup w path with
  | Some (File content) => Ok content
  | Some (Dir _ _) => Raise (IsADirectoryError path)
  | None => Raise (FileNotFoundError path)
  end.

End os.

(** ** [datetime] and the two [strptime] formats of the snapshot ids *)

Module datetime.

Local Open Scope Z_scope.

(** A naive [datetime] with zero seconds and microseconds, which is all the
    two formats can produce. *)
Record t : Type := {
  year : Z;
  month : Z;
  day : Z;
  hour : Z;
  minute : Z;
}.

(** [datetime.min] *)
Definition min : t :=
  {| year := 1; month := 1; day := 1; hour := 0; minute := 0 |}.

Definition lex (c1 c2 : comparison) : comparison :=
  match c1 with
  | Eq => c2
  | _ => c1
  end.

(** Comparison of two naive datetimes: field by field, year first. *)
Definition compare (a b : t) : comparison :=
  lex (Z.compare (year a) (year b))
   (lex (Z.compare (month a) (month b))
    (lex (Z.compare (day a) (day b))
     (lex (Z.compare (hour a) (hour b))
          (Z.compare (minute a) (minute b))))).

Definition is_leap (y : Z) : bool :=
  (Z.eqb (y mod 4) 0) && (negb (Z.eqb (y mod 100) 0) || Z.eqb (y mod 400) 0).

Definition days_in_month (y m : Z) : Z :=
  if Z.eqb m 2 then (if is_leap y then 29 else 28)
  else if Z.eqb m 4 || Z.eqb m 6 || Z.eqb m 9 || Z.eqb m 11 then 30
  else 31.

(** The constructor: [ValueError] (here [None]) outside the calendar. *)
Definition make (y m d H M : Z) : option t :=
  if Z.leb 1 y && Z.leb y 9999 && Z.leb 1 m && Z.leb m 12
     && Z.leb 1 d && Z.leb d (days_in_month y m)
     && Z.leb 0 H && Z.leb H 23 && Z.leb 0 M && Z.leb M 59
  then Some {| year := y; month := m; day := d; hour := H; minute := M |}
  else None.

(** *** The regular expressions [_strptime] compiles the formats to

    A pattern is a function from the text left to read to the ordered list
    of its matches, first choice first: that order is the order in which a
    backtracking matcher tries them, and [re.match] keeps the head. *)
Definition re (A : Type) : Type := string -> list (A * string).

Definition re_ret {A : Type} (a : A) : re A := fun s => [(a, s)].

Definition re_bind {A B : Type} (p : re A) (k : A -> re B) : re B :=
  fun s => flat_map (fun '(a, rest) => k a rest) (p s).

Definition re_alt {A : Type} (p q : re A) : re A :=
  fun s => (p s ++ q s)%list.

Definition re_fail {A : Type} : re A := fun _ => [].

Notation "x <~ p ;; k" := (re_bind p (fun x => k))
  (at level 61, p at next level, right associativity).

(** One character of a class. *)
Definition re_char (cls : ascii -> bool) : re ascii :=
  fun s => match s with
           | String c rest => if cls c then [(c, rest)] else []
           | EmptyString => []
           end.

Definition between (lo hi : ascii) (c : ascii) : bool :=
  (nat_of_ascii lo <=? nat_of_ascii c)%nat && (nat_of_ascii c <=? nat_of_ascii hi)%nat.

Definition is_char (x : ascii) (c : ascii) : bool := Ascii.eqb x c.

(** [\d], over the ASCII digits *)
Definition digit : ascii -> bool := between "0" "9".

Definition digit_value (c : ascii) : Z := Z.of_nat (nat_of_ascii c - 48)%nat.

(** [int(text)] of two matched digits *)
Definition two (c1 c2 : ascii) : Z := 10 * digit_value c1 + digit_value c2.

(** A literal character of the format. *)
Definition re_lit (x : ascii) : re unit :=
  _ <~ re_char (is_char x) ;; re_ret tt.

(** [%Y]: [\d\d\d\d] *)
Definition re_Y : re Z :=
  a <~ re_char digit ;; b <~ re_char digit ;;
  c <~ re_char digit ;; d <~ re_char digit ;;
  re_ret (100 * two a b + two c d).

(** [%m]: [1[0-2]|0[1-9]|[1-9]] *)
Definition re_m : re Z :=
  re_alt (a <~ re_char (is_char "1") ;; b <~ re_char (between "0" "2") ;; re_ret (two a b))
  (re_alt (a <~ re_char (is_char "0") ;; b <~ re_char (between "1" "9") ;; re_ret (two a b))
          (a <~ re_char (between "1" "9") ;; re_ret (digit_value a))).

(** [%d]: [3[0-1]|[1-2]\d|0[1-9]|[1-9]| [1-9]] *)
Definition re_d : re Z :=
  re_alt (a <~ re_char (is_char "3") ;; b <~ re_char (between "0" "1") ;; re_ret (two a b))
  (re_alt (a <~ re_char (between "1" "2") ;; b <~ re_char digit ;; re_ret (two a b))
  (re_alt (a <~ re_char (is_char "0") ;; b <~ re_char (between "1" "9") ;; re_ret (two a b))
  (re_alt (a <~ re_char (between "1" "9") ;; re_ret (digit_value a))
          (_ <~ re_char (is_char " ") ;; a <~ re_char (between "1" "9") ;;
           re_ret (digit_value a))))).

(** [%H]: [2[0-3]|[0-1]\d|\d] *)
Definition re_H : re Z :=
  re_alt (a <~ re_char (is_char "2") ;; b <~ re_char (between "0" "3") ;; re_ret (two a b))
  (re_alt (a <~ re_char (between "0" "1") ;; b <~ re_char digit ;; re_ret (two a b))
          (a <~ re_char digit ;; re_ret (digit_value a))).

(** [%M]: [[0-5]\d|\d] *)
Definition re_M : re Z :=
  re_alt (a <~ re_char (between "0" "5") ;; b <~ re_char digit ;; re_ret (two a b))
         (a <~ re_char digit ;; re_ret (digit_value a)).

Definition lower (c : ascii) : ascii :=
  if between "A" "Z" c then ascii_of_nat (nat_of_ascii c + 32)%nat else c.

(** One time-zone name, letters compared without regard to case. *)
Fixpoint re_word (w : string) : re unit :=
  match w with
  | EmptyString => re_ret tt
  | String x w' =>
      _ <~ re_char (fun c => Ascii.eqb (lower c) (lower x)) ;; re_word w'
  end.

(** [%Z]: the time-zone names of the locale, in the order the pattern lists
    them (longest first); [tznames] is ["utc"], ["gmt"] and the names in
    [time.tzname]. *)
Fixpoint re_Z (tznames : list string) : re unit :=
  match tznames with
  | [] => re_fail
  | w :: ws => re_alt (re_word w) (re_Z ws)
  end.

(** The fields both formats share: [%Y_%m_%d_%H.%M]. *)
Definition re_fields : re (Z * Z * Z * Z * Z) :=
  y <~ re_Y ;; _ <~ re_lit "_" ;;
  m <~ re_m ;; _ <~ re_lit "_" ;;
  d <~ re_d ;; _ <~ re_lit "_" ;;
  H <~ re_H ;; _ <~ re_lit "." ;;
  M <~ re_M ;;
  re_ret (y, m, d, H, M).

Inductive format : Type :=
| Fmt_Y_m_d_H_M_Z   (* ["%Y_%m_%d_%H.%M%Z"] *)
| Fmt_Y_m_d_H_M.    (* ["%Y_%m_%d_%H.%M"] *)

Definition format_re (tznames : list string) (fmt : format)
  : re (Z * Z * Z * Z * Z) :=
  match fmt with
  | Fmt_Y_m_d_H_M_Z => f <~ re_fields ;; _ <~ re_Z tznames ;; re_ret f
  | Fmt_Y_m_d_H_M => re_fields
  end.

(** [datetime.strptime(data_string, fmt)]; [None] stands for the
    [ValueError] it raises when the text does not match, when text is left
    over after the match, or when the fields are no calendar date. *)
Definition strptime (tznames : list string) (data_string : string) (fmt : format)
  : option t :=
  match format_re tznames fmt data_string with
  | [] => None
  | ((y, m, d, H, M), rest) :: _ =>
      if String.eqb rest "" then make y m d H M else None
  end.

End datetime.

(** ** [app/models.py] *)

Module FolderItem.
Record t : Type := { name : string; path : string }.
End FolderItem.

Module FileItem.
Record t : Type := {
  name : string;
  path : string;
  size : Z;
  is_too_large : bool;   (* default [False] *)
}.

(** [FileItem(name=..., path=..., size=...)] *)
Definition make (name path : string) (size : Z) : t :=
  {| name := name; path := path; size := size; is_too_large := false |}.

(** [define_if_is_too_large(self, max_size)] *)
Definition define_if_is_too_large (self : t) (max_size : Z) : t :=
  if (size self >? max_size)%Z
  then {| name := name self; path := path self; size := size self;
          is_too_large := true |}
  else self.
End FileItem.

(** [FileSystemItem]: the wrapped item is a folder or a file, which the
    source tells apart with [isinstance]. *)
Inductive FileSystemItem : Type :=
| IsFolder (item : FolderItem.t)
| IsFile (item : FileItem.t).

Module FolderContents.
Record t : Type := {
  folder : FolderItem.t;
  subfolders : list FolderItem.t;
  files : list FileItem.t;
}.

(** [FolderContents(folder=...)] *)
Definition make (folder : FolderItem.t) : t :=
  {| folder := folder; subfolders := []; files := [] |}.

(** [load_contents(self, items)] *)
Definition load_contents (self : t) (items : list FileSystemItem) : t :=
  fold_left
    (fun c item =>
       match item with
       | IsFolder f =>
           {| folder := folder c; subfolders := (subfolders c ++ [f])%list;
              files := files c |}
       | IsFile f =>
           {| folder := folder c; subfolders := subfolders c;
              files := (files c ++ [f])%list |}
       end)
    items
    {| folder := folder self; subfolders := []; files := [] |}.
End FolderContents.

(** A metadata value: a lone value is stored unwrapped, several as a list. *)
Inductive MetadataValue : Type :=
| Single (v : string)
| Many (vs : list string).

Module FileMetadata.
Record t : Type := {
  file_item : FileItem.t;
  metadata : list (string * MetadataValue);   (* a [dict], in insertion order *)
}.

Fixpoint dict_set (d : list (string * MetadataValue)) (k : string) (v : MetadataValue)
  : list (string * MetadataValue) :=
  match d with
  | [] => [(k, v)]
  | (k', v') :: rest =>
      if String.eqb k' k then (k', v) :: rest else (k', v') :: dict_set rest k v
  end.

(** [__setitem__(self, key, value)] *)
Definition setitem (self : t) (k : string) (v : MetadataValue) : t :=
  {| file_item := file_item self; metadata := dict_set (metadata self) k v |}.
End FileMetadata.

Module SnapshotSummary.
Record t : Type := {
  id : string;
  display_name : string;
  timestamp : option datetime.t;
  contains_path : bool;
}.
End SnapshotSummary.

Module SnapshotList.
Record t : Type := {
  snapshot_folder : string;
  target_path : string;
  snapshots : list SnapshotSummary.t;
}.
End SnapshotList.

(** ** [list.sort(key=..., reverse=True)]

    The sort of Python is stable, also with [reverse=True]: the result is
    the one list in descending key order in which items of equal key keep
    the order they came in.  Insertion from the right computes that list. *)
Section Sort.
Context {A : Type}.
Variable key_lt : A -> A -> bool.   (* [key(a) < key(b)] *)

Fixpoint insert_desc (x : A) (l : list A) : list A :=
  match l with
  | [] => [x]
  | y :: l' => if key_lt x y then y :: insert_desc x l' else x :: l
  end.

Definition sort_desc (l : list A) : list A :=
  fold_right insert_desc [] l.
End Sort.

(** ** [app/file_system.py] *)

Inductive SizeLimitKind : Type :=
| READ
| RETURN
| NONE.

(** Modelled from the spec: [app/config.py] is not among the sources; the
    record holds the attributes of [Config] the code reads, with the types
    the code's tests on them allow ([None], or a value tested for truth). *)
Module Config.
Record t : Type := {
  file_system_path : string;
  snapshot_folder_name : option string;
  include_snapshot_root : bool;
  exclude_folders : list string;
  max_scan_items : option Z;
  max_return_file_size : option Z;
  max_read_file_size : option Z;
}.
End Config.

(** The optional [hachoir] package: what [createParser] and
    [extractMetadata] answer. *)
Record MetadataItem : Type := {
  key : string;
  values : list string;
}.

Record Hachoir : Type := {
  createParser : os.world -> string -> option (list Byte.byte);
  extractMetadata : list Byte.byte -> option (list MetadataItem);
}.

(** What the module sees of the process it runs in. *)
Record env : Type := {
  world : os.world;
  hachoir : option Hachoir;           (* [None]: the import failed *)
  tznames : list string;              (* the names [%Z] accepts *)
  decode_replace : list Byte.byte -> string;
    (* text read with [encoding="utf-8", errors="replace"] *)
}.

(** The truth value of an optional string. *)
Definition truthy_str (s : option string) : bool :=
  match s with
  | Some s => negb (String.eqb s "")
  | None => false
  end.

(** [x in ("", "/", "\\")] *)
Definition is_root_alias (x : string) : bool :=
  String.eqb x "" || String.eqb x "/" || String.eqb x "\".

Record FileSystem : Type := { config : Config.t }.

Section Methods.
Variable E : env.
Variable self : FileSystem.

Let cfg := config self.
Let cwd := os.getcwd (world E).

Definition _check_path_is_in_excluded_folder (path : string) : bool :=
  existsb (fun excluded => startswith path excluded) (Config.exclude_folders cfg).

Definition _require_path_is_in_excluded_folder (path : string) : result unit :=
  raise_if (_check_path_is_in_excluded_folder path)
           (ValueError ("Path " ++ path ++ " is not found.")).

Definition _build_path (relative_path : string) : result string :=
  if String.eqb relative_path "" || String.eqb relative_path "/"
     || String.eqb relative_path "."
  then Ok (Config.file_system_path cfg)
  else
    let path := posixpath.join (Config.file_system_path cfg) relative_path in
    let abs_path := posixpath.abspath cwd path in
    let base_dir := posixpath.abspath cwd (Config.file_system_path cfg) in
    common <- posixpath.commonpath [abs_path; base_dir] ;;
    raise_if (negb (String.eqb common base_dir))
             (ValueError "Access to the path is not allowed.") ;;;
    Ok abs_path.

Definition _ensure_path_allowed (relative_path : string) : result unit :=
  canonical_path <- _build_path relative_path ;;
  _require_path_is_in_excluded_folder canonical_path.

Definition _get_snapshot_root : result string :=
  match Config.snapshot_folder_name cfg with
  | Some folder_name =>
      if String.eqb folder_name "" then Raise (ValueError "Snapshot support is disabled.")
      else
        let snapshot_root :=
          posixpath.abspath cwd
            (posixpath.join (Config.file_system_path cfg) folder_name) in
        raise_if (negb (os.isdir (world E) snapshot_root))
                 (ValueError ("Snapshot root " ++ snapshot_root ++ " is not available.")) ;;;
        Ok snapshot_root
  | None => Raise (ValueError "Snapshot support is disabled.")
  end.

Definition _build_snapshot_path (snapshot_id relative_path : string) : result string :=
  snapshot_root <- _get_snapshot_root ;;
  let snapshot_base := posixpath.abspath cwd (posixpath.join snapshot_root snapshot_id) in
  raise_if (negb (os.isdir (world E) snapshot_base))
           (ValueError ("Snapshot " ++ snapshot_id ++ " is not available.")) ;;;
  if is_root_alias relative_path then Ok snapshot_base
  else
    let path := posixpath.join snapshot_base relative_path in
    let abs_path := posixpath.abspath cwd path in
    common <- posixpath.commonpath [abs_path; snapshot_base] ;;
    raise_if (negb (String.eqb common snapshot_base))
             (ValueError "Access to the snapshot path is not allowed.") ;;;
    Ok abs_path.

Definition _resolve_full_path (relative_path : string) (snapshot_id : option string)
  : result string :=
  let normalized_path := if is_root_alias relative_path then "" else relative_path in
  resolved <-
    (match (if truthy_str snapshot_id then snapshot_id else None) with
     | Some sid =>
         _ensure_path_allowed normalized_path ;;;
         _build_snapshot_path sid normalized_path
     | None =>
         r <- _build_path normalized_path ;;
         _require_path_is_in_excluded_folder r ;;; Ok r
     end) ;;
  raise_if (negb (os.path_exists (world E) resolved))
           (ValueError ("Path " ++ resolved ++ " is not found.")) ;;;
  Ok resolved.

Definition _check_file_size_is_not_too_large (full_path : string)
           (size_limit_kind : SizeLimitKind) : result unit :=
  st_size <- os.stat_size (world E) full_path ;;
  match size_limit_kind with
  | READ =>
      match Config.max_read_file_size cfg with
      | Some limit =>
          raise_if (st_size >? limit)%Z
            (ValueError ("File " ++ full_path ++ " is too large to download."))
      | None => Ok tt
      end
  | RETURN =>
      match Config.max_return_file_size cfg with
      | Some limit =>
          raise_if (st_size >? limit)%Z
            (ValueError ("File " ++ full_path ++ " is too large to return."))
      | None => Ok tt
      end
  | NONE => Ok tt
  end.

(** [if self.config.max_return_file_size: item.define_if_is_too_large(...)] *)
Definition flag_too_large (item : FileItem.t) : FileItem.t :=
  match Config.max_return_file_size cfg with
  | Some limit =>
      if negb (Z.eqb limit 0) then FileItem.define_if_is_too_large item limit
      else item
  | None => item
  end.

(** The path given to a child: [relative_path], a separator unless it is
    empty or already ends in one, then the name. *)
Definition child_path (relative_path name : string) : string :=
  (if negb (String.eqb relative_path "") && negb (endswith_sep relative_path)
   then relative_path ++ "/" else relative_path) ++ name.

(** The body of the loop of [folder_contents] up to [items.append]:
    [None] when the entry is passed over with [continue]. *)
Definition scan_entry (relative_path : string) (snapshot_id : option string)
           (entry : os.DirEntry) : result (option FileSystemItem) :=
  if negb (truthy_str snapshot_id)
     && os.is_dir entry
     && negb (Config.include_snapshot_root cfg)
     && truthy_str (Config.snapshot_folder_name cfg)
     && match Config.snapshot_folder_name cfg with
        | Some folder_name => String.eqb (os.name entry) folder_name
        | None => false
        end
  then Ok None
  else
    let item_path := child_path relative_path (os.name entry) in
    if os.is_dir entry then
      absolute_item_path <- _build_path item_path ;;
      if _check_path_is_in_excluded_folder absolute_item_path then Ok None
      else Ok (Some (IsFolder {| FolderItem.name := os.name entry;
                                 FolderItem.path := item_path |}))
    else
      Ok (Some (IsFile (flag_too_large
                          (FileItem.make (os.name entry) item_path (os.st_size entry))))).

(** [scan_first_items and len(items) >= scan_first_items] *)
Definition limit_reached (scan_first_items : option Z) (items : list FileSystemItem)
  : bool :=
  match scan_first_items with
  | Some n => negb (Z.eqb n 0) && (Z.of_nat (List.length items) >=? n)%Z
  | None => false
  end.

(** The loop over [os.scandir(folder_path)], with its [continue]s and its
    [break]. *)
Fixpoint scan_loop (relative_path : string) (snapshot_id : option string)
         (scan_first_items : option Z) (entries : list os.DirEntry)
         (items : list FileSystemItem) : result (list FileSystemItem) :=
  match entries with
  | [] => Ok items
  | entry :: rest =>
      scanned <- scan_entry relative_path snapshot_id entry ;;
      match scanned with
      | None => scan_loop relative_path snapshot_id scan_first_items rest items
      | Some item =>
          let items' := (items ++ [item])%list in
          if limit_reached scan_first_items items' then Ok items'
          else scan_loop relative_path snapshot_id scan_first_items rest items'
      end
  end.

Definition folder_contents (relative_path : string) (scan_limit : option Z)
           (snapshot_id : option string) : result FolderContents.t :=
  let relative_path :=
    if String.eqb relative_path "/" || String.eqb relative_path "\" then ""
    else relative_path in
  let scan_first_items :=
    match scan_limit with
    | None => Config.max_scan_items cfg
    | Some n => Some n
    end in
  folder_path <- _resolve_full_path relative_path snapshot_id ;;
  let folder_name :=
    if endswith_sep relative_path
    then posixpath.basename (posixpath.dirname relative_path)
    else posixpath.basename relative_path in
  raise_if (negb (os.isdir (world E) folder_path))
           (ValueError "Path is not a directory") ;;;
  let contents :=
    FolderContents.make {| FolderItem.name := folder_name;
                           FolderItem.path := relative_path |} in
  entries <- os.scandir (world E) folder_path ;;
  items <- scan_loop relative_path snapshot_id scan_first_items entries [] ;;
  Ok (FolderContents.load_contents contents items).

(** The loop of [get_metadata] over the extracted items. *)
Definition collect_metadata (metadata : FileMetadata.t) (extracted : list MetadataItem)
  : FileMetadata.t :=
  fold_left
    (fun md item =>
       match values item with
       | [] => md
       | [v] => FileMetadata.setitem md (key item) (Single v)
       | vals => FileMetadata.setitem md (key item) (Many vals)
       end)
    extracted metadata.

Definition get_metadata (path : string) (snapshot_id : option string)
  : result FileMetadata.t :=
  match hachoir E with
  | None => Raise (ValueError "hachoir is not available to extract metadata.")
  | Some h =>
      full_path <- _resolve_full_path path snapshot_id ;;
      st_size <- os.stat_size (world E) full_path ;;
      raise_if (os.isdir (world E) full_path) (ValueError "Path is a directory") ;;;
      let item := flag_too_large (FileItem.make (posixpath.basename path) path st_size) in
      let metadata := {| FileMetadata.file_item := item; FileMetadata.metadata := [] |} in
      match createParser h (world E) full_path with
      | None => Raise (SystemExit ("Unable to parse file: " ++ path))
      | Some parser =>
          match extractMetadata h parser with
          | Some extracted_metadata => Ok (collect_metadata metadata extracted_metadata)
          | None => Ok metadata
          end
      end
  end.

Definition get_file_content (path : string) (size_limit_kind : SizeLimitKind)
           (snapshot_id : option string) : result (list Byte.byte) :=
  full_path <- _resolve_full_path path snapshot_id ;;
  _check_file_size_is_not_too_large full_path size_limit_kind ;;;
  os.read_bytes (world E) full_path.

Definition get_file_content_as_string (path : string) (size_limit_kind : SizeLimitKind)
           (snapshot_id : option string) : result string :=
  full_path <- _resolve_full_path path snapshot_id ;;
  _check_file_size_is_not_too_large full_path size_limit_kind ;;;
  content <- os.read_bytes (world E) full_path ;;
  Ok (decode_replace E content).

Definition _parse_snapshot_timestamp (snapshot_id : string) : option datetime.t :=
  match datetime.strptime (tznames E) snapshot_id datetime.Fmt_Y_m_d_H_M_Z with
  | Some t => Some t
  | None => datetime.strptime (tznames E) snapshot_id datetime.Fmt_Y_m_d_H_M
  end.

(** The sort key of [list_snapshots] and Python's [<] on such pairs. *)
Definition sort_key (item : SnapshotSummary.t) : datetime.t * string :=
  (match SnapshotSummary.timestamp item with
   | Some t => t
   | None => datetime.min
   end,
   SnapshotSummary.id item).

Definition key_compare (k1 k2 : datetime.t * string) : comparison :=
  datetime.lex (datetime.compare (fst k1) (fst k2)) (String.compare (snd k1) (snd k2)).

Definition key_lt (a b : SnapshotSummary.t) : bool :=
  match key_compare (sort_key a) (sort_key b) with
  | Lt => true
  | _ => false
  end.

(** The body of the loop of [list_snapshots]. *)
Definition summarize (target_path : string) (entry : os.DirEntry)
  : list SnapshotSummary.t :=
  if negb (os.is_dir entry) then []
  else
    let snapshot_id := os.name entry in
    let candidate_path :=
      if negb (String.eqb target_path "")
      then posixpath.join (os.path entry) target_path
      else os.path entry in
    [{| SnapshotSummary.id := snapshot_id;
        SnapshotSummary.display_name := snapshot_id;
        SnapshotSummary.timestamp := _parse_snapshot_timestamp snapshot_id;
        SnapshotSummary.contains_path := os.path_exists (world E) candidate_path |}].

Definition list_snapshots (path : string) : result SnapshotList.t :=
  let target_path := if is_root_alias path then "" else path in
  let listing name snapshots :=
    {| SnapshotList.snapshot_folder := name;
       SnapshotList.target_path := target_path;
       SnapshotList.snapshots := snapshots |} in
  match Config.snapshot_folder_name cfg with
  | None => Ok (listing "" [])
  | Some folder_name =>
      if String.eqb folder_name "" then Ok (listing "" [])
      else
        match _get_snapshot_root with
        | Raise (ValueError _) => Ok (listing folder_name [])
        | Raise e => Raise e
        | Ok snapshot_root =>
            match _ensure_path_allowed target_path with
            | Raise (ValueError _) => Ok (listing folder_name [])
            | Raise e => Raise e
            | Ok _ =>
                entries <- os.scandir (world E) snapshot_root ;;
                let snapshots := flat_map (summarize target_path) entries in
                Ok (listing folder_name (sort_desc key_lt snapshots))
            end
        end
  end.

End Methods.

(** * Vocabulary of the properties *)

(** No separator occurs in the string. *)
Fixpoint no_sep (s : string) : bool :=
  match s with
  | EmptyString => true
  | String c s' => negb (Ascii.eqb c sep) && no_sep s'
  end.

(** A name as [components] keeps them: no separator, not empty, not ["."]. *)
Definition is_name (s : string) : bool :=
  no_sep s && (negb (String.eqb s "") && negb (String.eqb s ".")).

(** A name other than [".."]: what a normalized absolute path is made of. *)
Definition is_proper_name (s : string) : bool :=
  is_name s && negb (String.eqb s "..").

(** [p] is [base] or lies below it: [p] is absolute, none of its components
    is [".."], and its components start with those of [base]. *)
Definition within (base p : string) : Prop :=
  posixpath.isabs p = true
  /\ ~ In ".." (posixpath.components p)
  /\ exists rest, posixpath.components p = (posixpath.components base ++ rest)%list.

(** The error kinds of the specification, by the messages the code raises
    them with. *)
Definition AccessDenied (e : exn) : Prop :=
  e = ValueError "Access to the path is not allowed."
  \/ e = ValueError "Access to the snapshot path is not allowed.".

Definition NotFound (e : exn) : Prop :=
  exists x, e = ValueError ("Path " ++ x ++ " is not found.")
            \/ e = ValueError ("Snapshot " ++ x ++ " is not available.")
            \/ e = ValueError ("Snapshot root " ++ x ++ " is not available.").


Definition Unavailable (e : exn) : Prop :=
  e = ValueError "hachoir is not available to extract metadata.".

(** The root of reference of a snapshot: the directory of that snapshot,
    when snapshots are enabled and the snapshot root and the snapshot
    exist.  This is the first half of [_build_snapshot_path]. *)
Definition snapshot_base (E : env) (self : FileSystem) (snapshot_id : string)
  : result string :=
  snapshot_root <- _get_snapshot_root E self ;;
  let base := posixpath.abspath (os.getcwd (world E))
                                (posixpath.join snapshot_root snapshot_id) in
  raise_if (negb (os.isdir (world E) base))
           (ValueError ("Snapshot " ++ snapshot_id ++ " is not available.")) ;;;
  Ok base.

(** [relative_path] as the operations normalize it before resolving. *)
Definition normalize_relative (relative_path : string) : string :=
  if is_root_alias relative_path then "" else relative_path.

(** The folders and the files among listed items, in their order. *)
Definition folders_of (items : list FileSystemItem) : list FolderItem.t :=
  flat_map (fun item => match item with IsFolder f => [f] | IsFile _ => [] end) items.

Definition files_of (items : list FileSystemItem) : list FileItem.t :=
  flat_map (fun item => match item with IsFile f => [f] | IsFolder _ => [] end) items.

(** The items a scan without a limit appends, entry by entry. *)
Definition kept_items (E : env) (self : FileSystem) (relative_path : string)
           (snapshot_id : option string) (entries : list os.DirEntry)
  : list FileSystemItem :=
  flat_map (fun entry =>
              match scan_entry E self relative_path snapshot_id entry with
              | Ok (Some item) => [item]
              | _ => []
              end) entries.

(** The limit a listing runs with: the argument, or the configured one. *)
Definition effective_limit (self : FileSystem) (scan_limit : option Z) : option Z :=
  match scan_limit with
  | None => Config.max_scan_items (config self)
  | Some n => Some n
  end.

(** [relative_path] as [folder_contents] rebinds it on entry. *)
Definition listing_path (relative_path : string) : string :=
  if String.eqb relative_path "/" || String.eqb relative_path "\" then ""
  else relative_path.

(** The snapshot-folder name a snapshot listing reports: the configured one,
    empty when none is configured. *)
Definition configured_snapshot_folder (self : FileSystem) : string :=
  match Config.snapshot_folder_name (config self) with
  | Some folder_name => folder_name
  | None => ""
  end.

(** A comparison that is a total order. *)
Record total_cmp {A : Type} (cmp : A -> A -> comparison) : Prop := {
  cmp_eq : forall a b, cmp a b = Eq <-> a = b;
  cmp_antisym : forall a b, cmp b a = CompOpp (cmp a b);
  cmp_trans : forall a b c, cmp a b = Lt -> cmp b c = Lt -> cmp a c = Lt;
}.

(** Pairs compared first component first. *)
Definition pair_cmp {A B : Type} (c1 : A -> A -> comparison) (c2 : B -> B -> comparison)
           (x y : A * B) : comparison :=
  datetime.lex (c1 (fst x) (fst y)) (c2 (snd x) (snd y)).

(** The fields of a datetime, most significant first. *)
Definition datetime_fields (t : datetime.t) : Z * (Z * (Z * (Z * Z))) :=
  (datetime.year t, (datetime.month t, (datetime.day t,
    (datetime.hour t, datetime.minute t)))).

(** [a] may stand before [b] in a descending listing: the key of [a] is not
    below the key of [b]. *)
Definition key_ge (a b : SnapshotSummary.t) : Prop :=
  key_compare (sort_key a) (sort_key b) <> Lt.

(** The configured root is written in canonical form: it is its own
    absolute normal form and does not start with a double slash. *)
Definition canonical_root (E : env) (self : FileSystem) : Prop :=
  posixpath.abspath (os.getcwd (world E)) (Config.file_system_path (config self))
  = Config.file_system_path (config self)
  /\ startswith (Config.file_system_path (config self)) "//" = false.

(** ** A sample share

    [/srv/data] holds a readme, a ten-byte file, a [docs] folder with a
    folder named like the snapshot root inside, an excluded [secret] folder
    and three snapshots under [.snapshot]. *)
Module Sample.

Definition bytes (s : string) : list Byte.byte := String.list_byte_of_string s.

Definition snapshot (readme : string) : os.node :=
  os.Dir 4096 [("README.md", os.File (bytes readme)); ("docs", os.Dir 4096 [])].

Definition share : os.node :=
  os.Dir 4096
    [("README.md", os.File (bytes "hello"));
     (".snapshot",
      os.Dir 4096 [("2024_01_01_10.00", snapshot "v1");
                   ("notes.txt", os.File []);
                   ("2024_02_01_10.00", snapshot "v2");
                   ("weird_name", snapshot "v0")]);
     ("docs",
      os.Dir 4096 [("a.txt", os.File (bytes "abc"));
                   (".snapshot", os.Dir 4096 []);
                   ("sub", os.Dir 4096 [])]);
     ("secret", os.Dir 4096 [("key.pem", os.File (bytes "k"))]);
     ("big.bin", os.File (bytes "0123456789"))].

Definition machine : os.world :=
  {| os.root := os.Dir 4096 [("srv", os.Dir 4096 [("data", share)])];
     os.getcwd := "/";
     os.getcwd_isabs := eq_refl |}.

(** A [hachoir] that parses nothing but files whose first byte is [%]. *)
Definition picky_hachoir : Hachoir :=
  {| createParser := fun w path =>
       match os.read_bytes w path with
       | Ok (Byte.x25 :: rest) => Some rest
       | _ => None
       end;
     extractMetadata := fun _ => None |}.

Definition without_hachoir : env :=
  {| world := machine; hachoir := None; tznames := ["utc"; "gmt"];
     decode_replace := String.string_of_list_byte |}.

Definition with_hachoir : env :=
  {| world := machine; hachoir := Some picky_hachoir; tznames := ["utc"; "gmt"];
     decode_replace := String.string_of_list_byte |}.

Definition fs : FileSystem :=
  {| config :=
       {| Config.file_system_path := "/srv/data";
          Config.snapshot_folder_name := Some ".snapshot";
          Config.include_snapshot_root := false;
          Config.exclude_folders := ["/srv/data/secret"];
          Config.max_scan_items := Some 100%Z;
          Config.max_return_file_size := Some 5%Z;
          Config.max_read_file_size := Some 20%Z |} |}.


(** The same share with its root written through a folder that does not
    exist. *)
Definition fs_detour_root : FileSystem :=
  {| config :=
       {| Config.file_system_path := "/srv/ghost/../data";
          Config.snapshot_folder_name := Some ".snapshot";
          Config.include_snapshot_root := false;
          Config.exclude_folders := ["/srv/data/secret"];
          Config.max_scan_items := Some 100%Z;
          Config.max_return_file_size := Some 5%Z;
          Config.max_read_file_size := Some 20%Z |} |}.

(** A share whose snapshot root holds a snapshot named after the first
    minute of the calendar and one whose name is no timestamp. *)
Definition ancient_machine : os.world :=
  {| os.root :=
       os.Dir 4096
         [("srv",
           os.Dir 4096
             [("data",
               os.Dir 4096
                 [(".snapshot",
                   os.Dir 4096 [("0001_01_01_00.00", snapshot "first");
                                ("weird_name", snapshot "other")])])])];
     os.getcwd := "/";
     os.getcwd_isabs := eq_refl |}.

Definition ancient : env :=
  {| world := ancient_machine; hachoir := None; tznames := ["utc"; "gmt"];
     decode_replace := String.string_of_list_byte |}.

End Sample.

(** * The rest of the two modules *)

(** ** [os.path.splitext] and [str.lower] *)

(** [s.rfind(x) + 1] for a character [x]. *)
Fixpoint after_last (x : ascii) (s : string) : nat :=
  match s with
  | EmptyString => 0
  | String c s' =>
      match after_last x s' with
      | S i => S (S i)
      | O => if Ascii.eqb c x then 1 else 0
      end
  end.

(** The loop of [genericpath._splitext]: is one of the [n] characters from
    index [i] on something else than a dot? *)
Fixpoint has_non_dot (p : string) (i n : nat) : bool :=
  match n with
  | O => false
  | S n' =>
      match String.get i p with
      | Some c => if Ascii.eqb c "." then has_non_dot p (S i) n' else true
      | None => true
      end
  end.

(** [os.path.splitext(p)] *)
Definition splitext (p : string) : string * string :=
  let sep_after := after_last sep p in       (* [sepIndex + 1] *)
  let dot_after := after_last "." p in       (* [dotIndex + 1] *)
  if (sep_after <? dot_after)%nat
     && has_non_dot p sep_after (dot_after - 1 - sep_after)
  then (str_take (dot_after - 1) p, str_drop (dot_after - 1) p)
  else (p, "").

(** [s.lower()], over the ASCII letters. *)
Fixpoint str_lower (s : string) : string :=
  match s with
  | EmptyString => EmptyString
  | String c s' => String (datetime.lower c) (str_lower s')
  end.

(** ** The computed fields of [FileItem] and [FileSystemItem] *)

(** [FileItem.is_supported_image] *)
Definition is_supported_image (self : FileItem.t) : bool :=
  let ext := str_lower (snd (splitext (FileItem.name self))) in
  String.eqb ext ".png" || String.eqb ext ".jpg" || String.eqb ext ".jpeg".

(** [FileItem.supports_text_extraction] *)
Definition supports_text_extraction (self : FileItem.t) : bool :=
  let ext := str_lower (snd (splitext (FileItem.name self))) in
  String.eqb ext ".pdf" || String.eqb ext ".docx".

(** [FileSystemItem.is_folder] *)
Definition is_folder (self : FileSystemItem) : bool :=
  match self with
  | IsFolder _ => true
  | IsFile _ => false
  end.

(** [FileSystemItem.file] *)
Definition item_file (self : FileSystemItem) : result FileItem.t :=
  match self with
  | IsFile f => Ok f
  | IsFolder _ => Raise (ValueError "Item is not a file")
  end.

(** [FileSystemItem.folder] *)
Definition item_folder (self : FileSystemItem) : result FolderItem.t :=
  match self with
  | IsFolder f => Ok f
  | IsFile _ => Raise (ValueError "Item is not a folder")
  end.

(** [FolderContents.load_contents] as the source writes it, through the
    accessors of the items, which can raise. *)
Fixpoint load_items (items : list FileSystemItem)
         (subfolders : list FolderItem.t) (files : list FileItem.t)
  : result (list FolderItem.t * list FileItem.t) :=
  match items with
  | [] => Ok (subfolders, files)
  | item :: rest =>
      if is_folder item then
        f <- item_folder item ;; load_items rest (subfolders ++ [f])%list files
      else
        f <- item_file item ;; load_items rest subfolders (files ++ [f])%list
  end.

Definition load_contents_checked (self : FolderContents.t) (items : list FileSystemItem)
  : result FolderContents.t :=
  loaded <- load_items items [] [] ;;
  Ok {| FolderContents.folder := FolderContents.folder self;
        FolderContents.subfolders := fst loaded;
        FolderContents.files := snd loaded |}.

(** ** [FileMetadata.__getitem__] *)

(** The [KeyError] of a [dict]. *)
Inductive key_error : Type :=
| KeyError (key : string).

Fixpoint dict_get (d : list (string * MetadataValue)) (k : string)
  : MetadataValue + key_error :=
  match d with
  | [] => inr (KeyError k)
  | (k', v) :: rest => if String.eqb k' k then inl v else dict_get rest k
  end.

(** [__getitem__(self, key)] *)
Definition getitem (self : FileMetadata.t) (k : string) : MetadataValue + key_error :=
  dict_get (FileMetadata.metadata self) k.

(** ** [FileSystem.get_image_file_format] *)

Definition get_image_file_format (path : string) : result string :=
  let ext := str_lower (snd (splitext path)) in
  if String.eqb ext ".png" then Ok "png"
  else if String.eqb ext ".jpg" || String.eqb ext ".jpeg" then Ok "jpg"
  else Raise (ValueError ("Unsupported image format: " ++ ext)).

(** * Vocabulary of the further properties *)

(** The limit a read of the given kind is held to, if any. *)
Definition selected_limit (self : FileSystem) (kind : SizeLimitKind) : option Z :=
  match kind with
  | READ => Config.max_read_file_size (config self)
  | RETURN => Config.max_return_file_size (config self)
  | NONE => None
  end.

(** The exception is a [ValueError]. *)
Definition is_value_error (e : exn) : Prop := exists msg, e = ValueError msg.

(** ** Further samples *)

Module MoreSamples.

(** The sample share served without snapshot support. *)
Definition fs_no_snapshots : FileSystem :=
  {| config :=
       {| Config.file_system_path := "/srv/data";
          Config.snapshot_folder_name := None;
          Config.include_snapshot_root := false;
          Config.exclude_folders := ["/srv/data/secret"];
          Config.max_scan_items := Some 100%Z;
          Config.max_return_file_size := Some 5%Z;
          Config.max_read_file_size := Some 20%Z |} |}.

End MoreSamples.

(** A share of pictures: [/srv/data/pics] holds a photograph with an
    upper-case extension, a file named by an extension alone, a drawing and
    a text. *)
Module Gallery.

Definition machine : os.world :=
  {| os.root :=
       os.Dir 4096
         [("srv",
           os.Dir 4096
             [("data",
               os.Dir 4096
                 [("pics.d",
                   os.Dir 4096 [("cat.JPG", os.File (Sample.bytes "jpg"));
                                (".png", os.File (Sample.bytes "png"));
                                ("plan.v2.png", os.File (Sample.bytes "png"));
                                ("notes", os.File (Sample.bytes "text"))])])])];
     os.getcwd := "/";
     os.getcwd_isabs := eq_refl |}.

Definition E : env :=
  {| world := machine; hachoir := None; tznames := ["utc"; "gmt"];
     decode_replace := String.string_of_list_byte |}.

(** A [hachoir] that reports, for every file, a title, two authors, an
    empty comment and a second title. *)
Definition chatty_hachoir : Hachoir :=
  {| createParser := fun w path =>
       match os.read_bytes w path with
       | Ok content => Some content
       | Raise _ => None
       end;
     extractMetadata := fun _ =>
       Some [ {| key := "title"; values := ["draft"] |};
              {| key := "author"; values := ["ann"; "bob"] |};
              {| key := "comment"; values := [] |};
              {| key := "title"; values := ["final"] |} ] |}.

Definition with_hachoir : env :=
  {| world := machine; hachoir := Some chatty_hachoir; tznames := ["utc"; "gmt"];
     decode_replace := String.string_of_list_byte |}.

End Gallery.

(** What [get_metadata] stores for an item of the extractor that has
    values: the value itself when there is one, the list when there are
    more. *)
Definition stored_value (item : MetadataItem) (v : MetadataValue) : Prop :=
  (exists x, values item = [x] /\ v = Single x)
  \/ ((2 <= List.length (values item))%nat /\ v = Many (values item)).

(** ** Trees and neighbours *)

(** A directory tree as a file system keeps it: the names in a directory
    are proper names, no two of them alike, and so on below. *)
Fixpoint well_formed (nd : os.node) : bool :=
  match nd with
  | os.File _ => true
  | os.Dir _ children =>
      (fix all_well_formed (l : list (string * os.node)) : bool :=
         match l with
         | [] => true
         | (n, c) :: rest =>
             is_proper_name n
             && negb (existsb (String.eqb n) (map fst rest))
             && well_formed c
             && all_well_formed rest
         end) children
  end.

(** The path of [name] in the folder that holds the root of the share. *)
Definition beside_root (self : FileSystem) (name : string) : string :=
  posixpath.slashes 1
  ++ join_sep (removelast (posixpath.components (Config.file_system_path (config self)))
               ++ [name])%list.

(** The sample share with a file standing beside it, in [/srv]. *)
Module Exposed.

Definition machine : os.world :=
  {| os.root :=
       os.Dir 4096
         [("srv",
           os.Dir 4096 [("data", Sample.share);
                        ("passwd", os.File (Sample.bytes "root"))])];
     os.getcwd := "/";
     os.getcwd_isabs := eq_refl |}.

Definition E : env :=
  {| world := machine; hachoir := None; tznames := ["utc"; "gmt"];
     decode_replace := String.string_of_list_byte |}.

End Exposed.

(** ** Snapshot names *)

(** The character of a decimal digit. *)
Definition digit_char (n : Z) : ascii := ascii_of_nat (48 + Z.to_nat n).

(** A number below 100 in two digits. *)
Definition two_digits (n : Z) : string :=
  String (digit_char (n / 10)) (String (digit_char (n mod 10)) "").

(** The name the pattern [%Y_%m_%d_%H.%M] gives a snapshot taken at [t],
    every field at its full width. *)
Definition snapshot_name (t : datetime.t) : string :=
  two_digits (datetime.year t / 100) ++ two_digits (datetime.year t mod 100) ++ "_"
  ++ two_digits (datetime.month t) ++ "_"
  ++ two_digits (datetime.day t) ++ "_"
  ++ two_digits (datetime.hour t) ++ "."
  ++ two_digits (datetime.minute t).

(** A calendar date and time of day. *)
Definition is_calendar_time (t : datetime.t) : Prop :=
  datetime.make (datetime.year t) (datetime.month t) (datetime.day t)
                (datetime.hour t) (datetime.minute t) = Some t.

(** A time-zone name that opens with something else than a digit. *)
Definition opens_without_digit (w : string) : bool :=
  match w with
  | EmptyString => false
  | String c _ => negb (datetime.digit c)
  end.

(** * Properties *)

(** ** Strings, separators and components *)

Lemma split_sep_not_nil (s : string) : split_sep s <> [].
Proof.
  destruct s as [|c s]; simpl; [discriminate|].
  destruct (Ascii.eqb c sep); [discriminate|].
  destruct (split_sep s); discriminate.
Qed.

Lemma split_sep_no_sep (s : string) : Forall (fun c => no_sep c = true) (split_sep s).
Proof.
  induction s as [|c s IH]; simpl.
  - constructor; [reflexivity|constructor].
  - destruct (Ascii.eqb c sep) eqn:Hc.
    + constructor; [reflexivity|exact IH].
    + destruct (split_sep s) as [|h t]; [repeat constructor; simpl; now rewrite Hc|].
      inversion IH; subst. constructor; [simpl; now rewrite Hc|assumption].
Qed.

Lemma split_sep_app (a b : string) :
  split_sep (a ++ String sep b) = (split_sep a ++ split_sep b)%list.
Proof.
  induction a as [|c a IH]; simpl.
  - reflexivity.
  - destruct (Ascii.eqb c sep); [now rewrite IH|].
    rewrite IH. destruct (split_sep a) as [|h t] eqn:Ha; [|reflexivity].
    exfalso. now apply (split_sep_not_nil a).
Qed.

Lemma split_sep_single (s : string) : no_sep s = true -> split_sep s = [s].
Proof.
  induction s as [|c s IH]; simpl; [reflexivity|].
  intros H. apply andb_prop in H as [Hc Hs].
  apply negb_true_iff in Hc. rewrite Hc, (IH Hs). reflexivity.
Qed.

Lemma split_join_sep (x : string) (l : list string) :
  Forall (fun c => no_sep c = true) (x :: l) ->
  split_sep (join_sep (x :: l)) = x :: l.
Proof.
  revert x. induction l as [|y l IH]; intros x H; inversion H; subst.
  - simpl. now apply split_sep_single.
  - change (join_sep (x :: y :: l)) with (x ++ String sep (join_sep (y :: l))).
    rewrite split_sep_app, (split_sep_single x), IH by assumption. reflexivity.
Qed.

Lemma join_split_sep (s : string) : join_sep (split_sep s) = s.
Proof.
  induction s as [|c s IH]; simpl; [reflexivity|].
  destruct (Ascii.eqb c sep) eqn:Hc.
  - apply Ascii.eqb_eq in Hc. subst c.
    destruct (split_sep s) as [|h t] eqn:Hs; [now destruct (split_sep_not_nil s)|].
    change (join_sep ("" :: h :: t)) with (String sep (join_sep (h :: t))).
    now rewrite IH.
  - destruct (split_sep s) as [|h t] eqn:Hs; [now destruct (split_sep_not_nil s)|].
    rewrite <- IH. destruct t; reflexivity.
Qed.

Lemma is_name_no_sep (s : string) : is_name s = true -> no_sep s = true.
Proof.
  unfold is_name. intros H. now apply andb_prop in H as [H _].
Qed.

Lemma components_names (p : string) :
  Forall (fun c => is_name c = true) (posixpath.components p).
Proof.
  unfold posixpath.components. apply Forall_forall. intros c Hc.
  apply filter_In in Hc as [Hin Hf].
  unfold is_name. rewrite Hf, andb_true_r.
  pose proof (split_sep_no_sep p) as H. rewrite Forall_forall in H. now apply H.
Qed.

Lemma filter_names (l : list string) :
  Forall (fun c => is_name c = true) l ->
  filter (fun c => negb (String.eqb c "") && negb (String.eqb c ".")) l = l.
Proof.
  induction 1 as [|c l Hc _ IH]; simpl; [reflexivity|].
  unfold is_name in Hc. apply andb_prop in Hc as [_ Hc].
  now rewrite Hc, IH.
Qed.

(** The components of a path written from its names are those names. *)
Lemma components_join (l : list string) :
  Forall (fun c => is_name c = true) l ->
  posixpath.components (String sep (join_sep l)) = l.
Proof.
  intros H. unfold posixpath.components.
  change (split_sep (String sep (join_sep l))) with ("" :: split_sep (join_sep l)).
  destruct l as [|x l]; [reflexivity|].
  rewrite split_join_sep.
  - rewrite <- (filter_names H) at 2. reflexivity.
  - eapply Forall_impl; [|exact H]. intros a. apply is_name_no_sep.
Qed.

Lemma components_join2 (l : list string) :
  Forall (fun c => is_name c = true) l ->
  posixpath.components (String sep (String sep (join_sep l))) = l.
Proof.
  intros H. rewrite <- (components_join H) at 2. reflexivity.
Qed.

(** ** [commonpath] of two paths *)

Lemma ltb_asym (x y : string) : String.ltb x y = true -> String.ltb y x = false.
Proof.
  unfold String.ltb. rewrite (String.compare_antisym y x).
  destruct (String.compare x y); simpl; congruence.
Qed.

Lemma ltb_connex (x y : string) :
  String.ltb x y = false -> String.ltb y x = false -> x = y.
Proof.
  unfold String.ltb. rewrite (String.compare_antisym y x).
  destruct (String.compare x y) eqn:Hc; simpl; try congruence.
  intros _ _. now apply String.compare_eq_iff.
Qed.

Lemma list_lt_asym (x y : list string) : list_lt x y = true -> list_lt y x = false.
Proof.
  revert y. induction x as [|a x IH]; intros [|b y]; simpl; try congruence.
  rewrite (String.eqb_sym b a). destruct (String.eqb a b); [apply IH|apply ltb_asym].
Qed.

Lemma list_lt_connex (x y : list string) :
  list_lt x y = false -> list_lt y x = false -> x = y.
Proof.
  revert y. induction x as [|a x IH]; intros [|b y]; simpl; try congruence.
  rewrite (String.eqb_sym b a). destruct (String.eqb_spec a b) as [->|Hne].
  - intros H1 H2. f_equal. now apply IH.
  - intros H1 H2. exfalso. apply Hne. now apply ltb_connex.
Qed.

Lemma common_loop_refl (x : list string) : posixpath.common_loop x x = Ok x.
Proof.
  induction x as [|a x IH]; simpl; [reflexivity|].
  now rewrite String.eqb_refl, IH.
Qed.

(** Below a larger list the loop never indexes past the end, and what it
    returns starts both lists. *)
Lemma common_loop_lt (x y : list string) :
  list_lt x y = true ->
  exists c rx ry, posixpath.common_loop x y = Ok c
                  /\ x = (c ++ rx)%list /\ y = (c ++ ry)%list.
Proof.
  revert y. induction x as [|a x IH]; intros [|b y]; simpl; try congruence.
  - intros _. now exists [], [], (b :: y).
  - destruct (String.eqb_spec a b) as [->|Hne].
    + intros H. destruct (IH _ H) as (c & rx & ry & Hc & -> & ->).
      rewrite Hc. simpl. now exists (b :: c), rx, ry.
    + intros _. now exists [], (a :: x), (b :: y).
Qed.

Lemma commonpath_pair (a b : string) :
  posixpath.isabs a = true -> posixpath.isabs b = true ->
  exists c ra rb,
    posixpath.commonpath [a; b] = Ok (String sep (join_sep c))
    /\ posixpath.components a = (c ++ ra)%list
    /\ posixpath.components b = (c ++ rb)%list.
Proof.
  intros Ha Hb. unfold posixpath.commonpath. simpl forallb.
  rewrite Ha, Hb. simpl negb. cbv iota.
  unfold py_min, py_max. simpl map. simpl fold_left.
  set (x := posixpath.components a). set (y := posixpath.components b).
  destruct (list_lt y x) eqn:Hyx, (list_lt x y) eqn:Hxy.
  - apply list_lt_asym in Hyx. congruence.
  - destruct (common_loop_lt _ _ Hyx) as (c & ry & rx & Hc & Hy & Hx).
    rewrite Hc. simpl. now exists c, rx, ry.
  - destruct (common_loop_lt _ _ Hxy) as (c & rx & ry & Hc & Hx & Hy).
    rewrite Hc. simpl. now exists c, rx, ry.
  - rewrite common_loop_refl. simpl. exists x, [], [].
    rewrite app_nil_r. repeat split. symmetry. now apply list_lt_connex.
Qed.

(** When [commonpath] answers the second path, the names of the second
    path start the first. *)
Lemma commonpath_is_base (a b : string) :
  posixpath.isabs a = true -> posixpath.isabs b = true ->
  posixpath.commonpath [a; b] = Ok b ->
  exists rest, posixpath.components a = (posixpath.components b ++ rest)%list.
Proof.
  intros Ha Hb H.
  destruct (commonpath_pair a b Ha Hb) as (c & ra & rb & Hc & Hca & Hcb).
  rewrite Hc in H. injection H as H.
  assert (Hn : Forall (fun s => is_name s = true) c).
  { pose proof (components_names a) as Hall. rewrite Hca in Hall.
    now apply Forall_app in Hall as [Hall _]. }
  exists ra. rewrite Hca. f_equal.
  rewrite <- H. symmetry. now apply components_join.
Qed.

(** ** [normpath] and [abspath] *)

Lemma isabs_inv (s : string) :
  posixpath.isabs s = true -> exists s', s = String sep s'.
Proof.
  unfold posixpath.isabs. destruct s as [|c s]; simpl; [discriminate|].
  destruct (Ascii.eqb_spec "/" c) as [<-|]; [|discriminate]. intros _. now exists s.
Qed.

Lemma isabs_cons (s : string) : posixpath.isabs (String sep s) = true.
Proof. unfold posixpath.isabs. simpl. now destruct s. Qed.

Lemma isabs_app (a b : string) :
  posixpath.isabs a = true -> posixpath.isabs (a ++ b) = true.
Proof.
  intros H. apply isabs_inv in H as [a' ->]. apply isabs_cons.
Qed.

Lemma isabs_join (a b : string) :
  posixpath.isabs a = true -> posixpath.isabs (posixpath.join a b) = true.
Proof.
  intros H. unfold posixpath.join.
  destruct (startswith b "/") eqn:Hb; [exact Hb|].
  destruct (_ || _); now apply isabs_app.
Qed.

Lemma initial_slashes_abs (p : string) :
  posixpath.isabs p = true ->
  posixpath.initial_slashes p = 1 \/ posixpath.initial_slashes p = 2.
Proof.
  unfold posixpath.initial_slashes, posixpath.isabs. intros ->.
  destruct (_ && _); auto.
Qed.

Lemma is_proper_name_is_name (s : string) :
  is_proper_name s = true -> is_name s = true.
Proof. unfold is_proper_name. intros H. now apply andb_prop in H. Qed.

Lemma last_proper (l : list string) :
  Forall (fun c => is_proper_name c = true) l ->
  String.eqb (List.last l "") ".." = false.
Proof.
  induction 1 as [|c l Hc Hl IH]; [reflexivity|].
  destruct l as [|d l]; [|exact IH]. simpl.
  unfold is_proper_name in Hc. apply andb_prop in Hc as [_ Hc].
  now apply negb_true_iff in Hc.
Qed.

Lemma removelast_Forall {A : Type} (P : A -> Prop) (l : list A) :
  Forall P l -> Forall P (removelast l).
Proof.
  induction 1 as [|c l Hc Hl IH]; [constructor|].
  simpl. destruct l; [constructor|]. now constructor.
Qed.

(** Below an absolute path the loop of [normpath] keeps only proper names. *)
Lemma norm_step_proper (i : nat) (acc : list string) (comp : string) :
  i <> 0 -> no_sep comp = true ->
  Forall (fun c => is_proper_name c = true) acc ->
  Forall (fun c => is_proper_name c = true) (posixpath.norm_step i acc comp).
Proof.
  intros Hi Hcomp Hacc. unfold posixpath.norm_step.
  destruct (String.eqb comp "" || String.eqb comp ".") eqn:Hskip; [exact Hacc|].
  apply orb_false_iff in Hskip as [He Hd].
  destruct (String.eqb comp "..") eqn:Hdd; simpl negb.
  - rewrite (last_proper Hacc). destruct i; [easy|]. simpl.
    now apply removelast_Forall.
  - simpl. apply Forall_app. split; [exact Hacc|]. constructor; [|constructor].
    unfold is_proper_name, is_name. now rewrite Hcomp, He, Hd, Hdd.
Qed.

Lemma norm_fold_proper (i : nat) (comps acc : list string) :
  i <> 0 -> Forall (fun c => no_sep c = true) comps ->
  Forall (fun c => is_proper_name c = true) acc ->
  Forall (fun c => is_proper_name c = true)
         (fold_left (posixpath.norm_step i) comps acc).
Proof.
  intros Hi Hcomps. revert acc.
  induction Hcomps as [|c comps Hc _ IH]; intros acc Hacc; simpl; [exact Hacc|].
  apply IH. now apply norm_step_proper.
Qed.

(** The shape of a normalized absolute path: one or two slashes, then
    proper names joined by single slashes. *)
Lemma normpath_abs (p : string) :
  posixpath.isabs p = true ->
  exists i names,
    (i = 1 \/ i = 2)
    /\ Forall (fun c => is_proper_name c = true) names
    /\ names = fold_left (posixpath.norm_step (posixpath.initial_slashes p))
                         (split_sep p) []
    /\ posixpath.normpath p = posixpath.slashes i ++ join_sep names
    /\ i = posixpath.initial_slashes p.
Proof.
  intros Habs. exists (posixpath.initial_slashes p).
  eexists. split; [now apply initial_slashes_abs|].
  split; [|split; [reflexivity|split; [|reflexivity]]].
  - apply norm_fold_proper; [|apply split_sep_no_sep|constructor].
    destruct (initial_slashes_abs p Habs) as [-> | ->]; discriminate.
  - unfold posixpath.normpath.
    destruct (isabs_inv p Habs) as [p' ->]. simpl String.eqb. cbv iota.
    destruct (initial_slashes_abs _ Habs) as [-> | ->]; reflexivity.
Qed.

Lemma normpath_isabs (p : string) :
  posixpath.isabs p = true -> posixpath.isabs (posixpath.normpath p) = true.
Proof.
  intros H. destruct (normpath_abs p H) as (i & names & Hi & _ & _ & -> & _).
  destruct Hi as [-> | ->]; apply isabs_cons.
Qed.

Lemma components_normpath (p : string) :
  posixpath.isabs p = true ->
  Forall (fun c => is_proper_name c = true) (posixpath.components (posixpath.normpath p)).
Proof.
  intros H. destruct (normpath_abs p H) as (i & names & Hi & Hn & _ & -> & _).
  assert (Hn' : Forall (fun c => is_name c = true) names).
  { eapply Forall_impl; [|exact Hn]. intros a. apply is_proper_name_is_name. }
  destruct Hi as [-> | ->]; simpl posixpath.slashes.
  - change ("/" ++ join_sep names) with (String sep (join_sep names)).
    now rewrite components_join.
  - change ("//" ++ join_sep names) with (String sep (String sep (join_sep names))).
    now rewrite components_join2.
Qed.

Lemma proper_names_no_dotdot (l : list string) :
  Forall (fun c => is_proper_name c = true) l -> ~ In ".." l.
Proof.
  intros H Hin. rewrite Forall_forall in H. specialize (H _ Hin). discriminate.
Qed.

Lemma abspath_isabs (cwd p : string) :
  posixpath.isabs cwd = true -> posixpath.isabs (posixpath.abspath cwd p) = true.
Proof.
  intros H. unfold posixpath.abspath. apply normpath_isabs.
  destruct (posixpath.isabs p) eqn:Hp; [exact Hp|now apply isabs_join].
Qed.

Lemma abspath_no_dotdot (cwd p : string) :
  posixpath.isabs cwd = true ->
  ~ In ".." (posixpath.components (posixpath.abspath cwd p)).
Proof.
  intros H. apply proper_names_no_dotdot. unfold posixpath.abspath.
  apply components_normpath.
  destruct (posixpath.isabs p) eqn:Hp; [exact Hp|now apply isabs_join].
Qed.

(** A canonical path lies within itself. *)
Lemma within_abspath_refl (cwd p : string) :
  posixpath.isabs cwd = true ->
  within (posixpath.abspath cwd p) (posixpath.abspath cwd p).
Proof.
  intros H. split; [now apply abspath_isabs|]. split; [now apply abspath_no_dotdot|].
  exists []. now rewrite app_nil_r.
Qed.

(** ** Path resolution stays within its root *)

Section Resolution.
Variable E : env.
Variable self : FileSystem.

Let cwd := os.getcwd (world E).
Let root := Config.file_system_path (config self).

Lemma cwd_isabs : posixpath.isabs cwd = true.
Proof. apply os.getcwd_isabs. Qed.

(** The boundary check shared by [_build_path] and [_build_snapshot_path]. *)
Lemma boundary_check (base path : string) (msg : string) :
  let abs_path := posixpath.abspath cwd path in
  let base_dir := posixpath.abspath cwd base in
  match (common <- posixpath.commonpath [abs_path; base_dir] ;;
         raise_if (negb (String.eqb common base_dir)) (ValueError msg) ;;;
         Ok abs_path) with
  | Ok p => p = abs_path /\ within base_dir p
  | Raise e => e = ValueError msg
  end.
Proof.
  intros abs_path base_dir.
  assert (Ha : posixpath.isabs abs_path = true) by apply abspath_isabs, cwd_isabs.
  assert (Hb : posixpath.isabs base_dir = true) by apply abspath_isabs, cwd_isabs.
  destruct (commonpath_pair abs_path base_dir Ha Hb) as (c & ra & rb & Hc & _ & _).
  rewrite Hc. simpl bind.
  destruct (String.eqb_spec (String sep (join_sep c)) base_dir) as [Heq|Hne]; simpl.
  - split; [reflexivity|]. rewrite Heq in Hc.
    split; [exact Ha|]. split; [apply abspath_no_dotdot, cwd_isabs|].
    now apply commonpath_is_base.
  - reflexivity.
Qed.

Lemma build_path_cases (relative_path : string) :
  match _build_path E self relative_path with
  | Ok p => p = root \/ (p = posixpath.abspath cwd (posixpath.join root relative_path)
                         /\ within (posixpath.abspath cwd root) p)
  | Raise e => e = ValueError "Access to the path is not allowed."
  end.
Proof.
  unfold _build_path.
  destruct (_ || _); [now left|].
  pose proof (boundary_check root (posixpath.join root relative_path)
                "Access to the path is not allowed.") as H.
  cbv zeta in H. fold cwd root.
  destruct (bind _ _) as [p|e]; [now right|exact H].
Qed.

Lemma snapshot_base_abspath (snapshot_id base : string) :
  snapshot_base E self snapshot_id = Ok base ->
  exists x, base = posixpath.abspath cwd x.
Proof.
  unfold snapshot_base. destruct (_get_snapshot_root E self) as [r|e]; simpl; [|discriminate].
  destruct (os.isdir _ _); simpl; [|discriminate].
  intros H. injection H as <-. now eexists.
Qed.

Lemma build_snapshot_path_unfold (snapshot_id relative_path : string) :
  _build_snapshot_path E self snapshot_id relative_path =
  (base <- snapshot_base E self snapshot_id ;;
   if is_root_alias relative_path then Ok base
   else
     common <- posixpath.commonpath
                 [posixpath.abspath cwd (posixpath.join base relative_path); base] ;;
     raise_if (negb (String.eqb common base))
              (ValueError "Access to the snapshot path is not allowed.") ;;;
     Ok (posixpath.abspath cwd (posixpath.join base relative_path))).
Proof.
  unfold _build_snapshot_path, snapshot_base.
  destruct (_get_snapshot_root E self) as [r|e]; simpl; [|reflexivity].
  destruct (os.isdir _ _); reflexivity.
Qed.

Lemma build_snapshot_path_cases (snapshot_id relative_path base : string) :
  snapshot_base E self snapshot_id = Ok base ->
  match _build_snapshot_path E self snapshot_id relative_path with
  | Ok p => within base p
  | Raise e => e = ValueError "Access to the snapshot path is not allowed."
  end.
Proof.
  intros Hbase. rewrite build_snapshot_path_unfold, Hbase. simpl bind.
  destruct (snapshot_base_abspath _ Hbase) as [x ->].
  destruct (is_root_alias relative_path).
  - apply within_abspath_refl, cwd_isabs.
  - pose proof (boundary_check x
                  (posixpath.join (posixpath.abspath cwd x) relative_path)
                  "Access to the snapshot path is not allowed.") as H.
    cbv zeta in H. destruct (bind _ _) as [p|e]; [apply H|exact H].
Qed.

(** C1.  For every relative path, [_build_path] returns the configured root
    itself or an absolute path without [".."] whose components start with
    those of the canonical root, or it raises the access-denied error; for
    every snapshot whose base directory exists, [_build_snapshot_path]
    returns an absolute path within that base or raises the access-denied
    error; and whatever [_resolve_full_path] returns lies within the root of
    reference of its mode. *)
Theorem resolution_stays_within_root (relative_path : string) :
  match _build_path E self relative_path with
  | Ok p => (p = root \/ within (posixpath.abspath cwd root) p)
            /\ (posixpath.isabs root = true -> posixpath.isabs p = true)
  | Raise e => AccessDenied e
  end
  /\ (forall snapshot_id base,
        snapshot_base E self snapshot_id = Ok base ->
        match _build_snapshot_path E self snapshot_id relative_path with
        | Ok p => within base p
        | Raise e => AccessDenied e
        end)
  /\ (forall snapshot_id p,
        _resolve_full_path E self relative_path snapshot_id = Ok p ->
        match snapshot_id with
        | Some sid =>
            if String.eqb sid "" then p = root \/ within (posixpath.abspath cwd root) p
            else exists base, snapshot_base E self sid = Ok base /\ within base p
        | None => p = root \/ within (posixpath.abspath cwd root) p
        end).
Proof.
  split; [|split].
  - pose proof (build_path_cases relative_path) as H.
    destruct (_build_path E self relative_path) as [p|e]; [|now left].
    destruct H as [-> | [_ H]]; (split; [auto|]); [auto|].
    intros _. apply H.
  - intros snapshot_id base Hbase.
    pose proof (build_snapshot_path_cases snapshot_id relative_path Hbase) as H.
    destruct (_build_snapshot_path _ _ _ _) as [p|e]; [exact H|now right].
  - intros snapshot_id p. unfold _resolve_full_path.
    set (normalized_path := if is_root_alias relative_path then "" else relative_path).
    assert (Hlive : forall q,
      (r <- _build_path E self normalized_path ;;
       _require_path_is_in_excluded_folder self r ;;; Ok r) = Ok q ->
      q = root \/ within (posixpath.abspath cwd root) q).
    { intros q. pose proof (build_path_cases normalized_path) as H.
      destruct (_build_path E self normalized_path) as [r|e]; simpl; [|discriminate].
      destruct (_require_path_is_in_excluded_folder self r); simpl; [|discriminate].
      intros Hq. injection Hq as <-. destruct H as [H | [_ H]]; auto. }
    destruct snapshot_id as [sid|]; simpl truthy_str.
    + destruct (String.eqb sid "") eqn:Hsid; simpl negb; cbv iota.
      * intros H. apply Hlive.
        destruct (bind _ _) as [q|e]; simpl in H; [|discriminate].
        destruct (os.path_exists _ q); simpl in H; [|discriminate]. exact H.
      * destruct (_ensure_path_allowed E self normalized_path); simpl; [|discriminate].
        rewrite build_snapshot_path_unfold.
        destruct (snapshot_base E self sid) as [base|e] eqn:Hbase; simpl; [|discriminate].
        pose proof (build_snapshot_path_cases sid normalized_path Hbase) as H.
        rewrite build_snapshot_path_unfold, Hbase in H. simpl bind in H.
        destruct (if is_root_alias normalized_path then _ else _) as [q|e];
          simpl; [|discriminate].
        destruct (os.path_exists _ q); simpl; [|discriminate].
        intros Hq. injection Hq as <-. now exists base.
    + intros H. apply Hlive.
      destruct (bind _ _) as [q|e]; simpl in H; [|discriminate].
      destruct (os.path_exists _ q); simpl in H; [|discriminate]. exact H.
Qed.

End Resolution.

Lemma resolution_stays_within_root_witness :
  within "/srv/data/.snapshot/weird_name" "/srv/data/.snapshot/weird_name/README.md"
  /\ ("/srv/data/docs" = "/srv/data" \/ within "/srv/data" "/srv/data/docs").
Proof.
  split.
  - exact (proj1 (proj2 (resolution_stays_within_root Sample.without_hachoir Sample.fs
                           "README.md")) "weird_name" _ eq_refl).
  - exact (proj2 (proj2 (resolution_stays_within_root Sample.without_hachoir Sample.fs
                           "docs")) None _ eq_refl).
Defined.

(** ** Excluded paths are reported as not found *)

Section Exclusion.
Variable E : env.
Variable self : FileSystem.

Lemma not_found_is_not_access_denied (path : string) :
  NotFound (ValueError ("Path " ++ path ++ " is not found."))
  /\ ~ AccessDenied (ValueError ("Path " ++ path ++ " is not found.")).
Proof.
  split; [exists path; now left|]. intros [H|H]; discriminate.
Qed.

Lemma resolve_excluded (relative_path p : string) (snapshot_id : option string) :
  _build_path E self (normalize_relative relative_path) = Ok p ->
  _check_path_is_in_excluded_folder self p = true ->
  _resolve_full_path E self relative_path snapshot_id
  = Raise (ValueError ("Path " ++ p ++ " is not found.")).
Proof.
  unfold normalize_relative. intros Hp Hx. unfold _resolve_full_path, _ensure_path_allowed.
  rewrite Hp. unfold _require_path_is_in_excluded_folder. cbn [bind].
  rewrite Hx. destruct (if truthy_str snapshot_id then snapshot_id else None); reflexivity.
Qed.

Lemma folder_contents_normalizes (relative_path : string) :
  normalize_relative
    (if String.eqb relative_path "/" || String.eqb relative_path "\" then ""
     else relative_path)
  = normalize_relative relative_path.
Proof.
  destruct (String.eqb_spec relative_path "/") as [->|H1]; [reflexivity|].
  destruct (String.eqb_spec relative_path "\") as [->|H2]; reflexivity.
Qed.

(** C2 (as amended).  When the live path of the request resolves under an
    excluded prefix, folder listing, byte read and text read raise the
    not-found error for that path, whether or not it exists and with or
    without a snapshot id, and that error is not the access-denied one;
    [get_metadata] does the same when [hachoir] is installed and raises the
    unavailable error when it is not. *)
Theorem excluded_paths_are_not_found
        (relative_path p : string) (snapshot_id : option string)
        (scan_limit : option Z) (size_limit_kind : SizeLimitKind)
        (Hresolved : _build_path E self (normalize_relative relative_path) = Ok p)
        (Hexcluded : _check_path_is_in_excluded_folder self p = true) :
  let not_found := ValueError ("Path " ++ p ++ " is not found.") in
  NotFound not_found /\ ~ AccessDenied not_found
  /\ folder_contents E self relative_path scan_limit snapshot_id = Raise not_found
  /\ get_file_content E self relative_path size_limit_kind snapshot_id = Raise not_found
  /\ get_file_content_as_string E self relative_path size_limit_kind snapshot_id
     = Raise not_found
  /\ get_metadata E self relative_path snapshot_id
     = match hachoir E with
       | Some _ => Raise not_found
       | None => Raise (ValueError "hachoir is not available to extract metadata.")
       end.
Proof.
  intros not_found.
  destruct (not_found_is_not_access_denied p) as [H1 H2].
  repeat split; try assumption.
  - unfold folder_contents. rewrite (@resolve_excluded _ p); [reflexivity| |assumption].
    now rewrite folder_contents_normalizes.
  - unfold get_file_content. now rewrite (@resolve_excluded _ p).
  - unfold get_file_content_as_string. now rewrite (@resolve_excluded _ p).
  - unfold get_metadata. destruct (hachoir E); [|reflexivity].
    now rewrite (@resolve_excluded _ p).
Qed.

End Exclusion.

Lemma excluded_paths_are_not_found_witness :
  get_file_content Sample.with_hachoir Sample.fs "secret/key.pem" RETURN None
  = Raise (ValueError "Path /srv/data/secret/key.pem is not found.")
  /\ get_metadata Sample.with_hachoir Sample.fs "secret/nothing" (Some "weird_name")
     = Raise (ValueError "Path /srv/data/secret/nothing is not found.").
Proof.
  split.
  - exact (proj1 (proj2 (proj2 (proj2
      (@excluded_paths_are_not_found Sample.with_hachoir Sample.fs "secret/key.pem"
         "/srv/data/secret/key.pem" None None RETURN eq_refl eq_refl))))).
  - exact (proj2 (proj2 (proj2 (proj2 (proj2
      (@excluded_paths_are_not_found Sample.with_hachoir Sample.fs "secret/nothing"
         "/srv/data/secret/nothing" (Some "weird_name") None RETURN eq_refl eq_refl)))))).
Defined.

(** C2, as first stated, fails for [get_metadata] where [hachoir] is not
    installed: the request for a path under the excluded prefix is answered
    with the unavailable error, which is not the not-found error. *)
Lemma metadata_of_excluded_path_without_hachoir :
  _build_path Sample.without_hachoir Sample.fs (normalize_relative "secret/key.pem")
  = Ok "/srv/data/secret/key.pem"
  /\ _check_path_is_in_excluded_folder Sample.fs "/srv/data/secret/key.pem" = true
  /\ exists e, get_metadata Sample.without_hachoir Sample.fs "secret/key.pem" None = Raise e
               /\ Unavailable e /\ ~ NotFound e.
Proof.
  split; [reflexivity|]. split; [reflexivity|].
  eexists. split; [reflexivity|]. split; [reflexivity|].
  intros [x [H|[H|H]]]; discriminate.
Qed.

(** ** Metadata extraction *)

(** Whenever the path resolves to a file and [createParser] answers [None],
    [get_metadata] raises [SystemExit]. *)
Lemma get_metadata_unparsable (E : env) (self : FileSystem) (h : Hachoir)
      (path full_path : string) (snapshot_id : option string) (content : list Byte.byte) :
  hachoir E = Some h ->
  _resolve_full_path E self path snapshot_id = Ok full_path ->
  os.lookup (world E) full_path = Some (os.File content) ->
  createParser h (world E) full_path = None ->
  get_metadata E self path snapshot_id
  = Raise (SystemExit ("Unable to parse file: " ++ path)).
Proof.
  intros Hh Hres Hfile Hparse. unfold get_metadata, os.stat_size, os.isdir.
  rewrite Hh, Hres. cbn [bind]. rewrite Hfile. cbn [bind os.is_dir_node raise_if].
  now rewrite Hparse.
Qed.

(** C3 fails on the code: with [hachoir] installed and a file it cannot
    parse, [get_metadata] raises [SystemExit], the request to end the
    program, where the sibling failure paths raise [ValueError]. *)
Theorem get_metadata_unparsable_file_exits :
  get_metadata Sample.with_hachoir Sample.fs "README.md" None
  = Raise (SystemExit "Unable to parse file: README.md")
  /\ is_ordinary_error (SystemExit "Unable to parse file: README.md") = false
  /\ get_metadata Sample.without_hachoir Sample.fs "README.md" None
     = Raise (ValueError "hachoir is not available to extract metadata.")
  /\ is_ordinary_error (ValueError "hachoir is not available to extract metadata.") = true.
Proof. repeat split. Qed.

(** ** Folder listings *)

Lemma load_contents_fold (fd : FolderItem.t) (items : list FileSystemItem) :
  forall (sf : list FolderItem.t) (fl : list FileItem.t),
  fold_left
    (fun c item =>
       match item with
       | IsFolder f =>
           {| FolderContents.folder := FolderContents.folder c;
              FolderContents.subfolders := (FolderContents.subfolders c ++ [f])%list;
              FolderContents.files := FolderContents.files c |}
       | IsFile f =>
           {| FolderContents.folder := FolderContents.folder c;
              FolderContents.subfolders := FolderContents.subfolders c;
              FolderContents.files := (FolderContents.files c ++ [f])%list |}
       end)
    items
    {| FolderContents.folder := fd; FolderContents.subfolders := sf;
       FolderContents.files := fl |}
  = {| FolderContents.folder := fd;
       FolderContents.subfolders := (sf ++ folders_of items)%list;
       FolderContents.files := (fl ++ files_of items)%list |}.
Proof.
  induction items as [|item items IH]; intros sf fl; simpl.
  - now rewrite !app_nil_r.
  - destruct item as [f|f]; rewrite IH; simpl; now rewrite <- !app_assoc.
Qed.

Lemma load_contents_spec (c : FolderContents.t) (items : list FileSystemItem) :
  FolderContents.load_contents c items
  = {| FolderContents.folder := FolderContents.folder c;
       FolderContents.subfolders := folders_of items;
       FolderContents.files := files_of items |}.
Proof. unfold FolderContents.load_contents. now rewrite load_contents_fold. Qed.

Lemma folders_files_length (items : list FileSystemItem) :
  (List.length (folders_of items) + List.length (files_of items))%nat = List.length items.
Proof.
  induction items as [|[f|f] items IH]; simpl; lia.
Qed.

Lemma firstn_In {A : Type} (n : nat) (l : list A) (x : A) :
  In x (firstn n l) -> In x l.
Proof.
  intros H. rewrite <- (firstn_skipn n l). apply in_or_app. now left.
Qed.

Section Listing.
Variable E : env.
Variable self : FileSystem.
Variable relative_path : string.
Variable snapshot_id : option string.

(** What the loop returns: everything kept when the limit is absent or 0,
    else the first [max n 1] kept items. *)
Lemma scan_loop_spec (scan_first_items : option Z) (entries : list os.DirEntry)
      (items out : list FileSystemItem) :
  scan_loop E self relative_path snapshot_id scan_first_items entries items = Ok out ->
  match scan_first_items with
  | Some n =>
      if Z.eqb n 0 then out = (items ++ kept_items E self relative_path snapshot_id entries)%list
      else (List.length items < Z.to_nat (Z.max n 1))%nat ->
           out = (items ++ firstn (Z.to_nat (Z.max n 1) - List.length items)
                                  (kept_items E self relative_path snapshot_id entries))%list
  | None => out = (items ++ kept_items E self relative_path snapshot_id entries)%list
  end.
Proof.
  revert items. induction entries as [|entry rest IH]; intros items; simpl.
  - intros H. injection H as <-. destruct scan_first_items as [n|].
    + destruct (Z.eqb n 0); [now rewrite app_nil_r|].
      intros _. now rewrite firstn_nil, app_nil_r.
    + now rewrite app_nil_r.
  - destruct (scan_entry E self relative_path snapshot_id entry) as [[item|]|e];
      simpl; [| apply IH | discriminate].
    destruct scan_first_items as [n|]; simpl limit_reached.
    + destruct (Z.eqb_spec n 0) as [->|Hn]; simpl negb; cbv iota.
      * simpl andb. intros H. apply IH in H. simpl in H.
        now rewrite <- app_assoc in H.
      * simpl andb. rewrite length_app. simpl List.length.
        destruct (Z.geb_spec (Z.of_nat (List.length items + 1)) n) as [Hge|Hlt].
        -- intros H Hlen. injection H as <-. f_equal.
           replace (Z.to_nat (Z.max n 1) - List.length items)%nat with 1%nat by lia.
           reflexivity.
        -- intros H Hlen. apply IH in H; [|rewrite length_app; simpl List.length; lia].
           rewrite length_app in H. simpl List.length in H.
           rewrite H, <- app_assoc. f_equal. simpl app.
           replace (Z.to_nat (Z.max n 1) - List.length items)%nat
             with (S (Z.to_nat (Z.max n 1) - (List.length items + 1)))%nat by lia.
           reflexivity.
    + intros H. apply IH in H. now rewrite <- app_assoc in H.
Qed.

(** The steps of [folder_contents], for a listing that is returned. *)
Lemma folder_contents_inv (scan_limit : option Z) (c : FolderContents.t) :
  folder_contents E self relative_path scan_limit snapshot_id = Ok c ->
  let rel := listing_path relative_path in
  exists folder_path entries items,
    _resolve_full_path E self rel snapshot_id = Ok folder_path
    /\ os.scandir (world E) folder_path = Ok entries
    /\ scan_loop E self rel snapshot_id (effective_limit self scan_limit) entries [] = Ok items
    /\ FolderContents.subfolders c = folders_of items
    /\ FolderContents.files c = files_of items
    /\ FolderItem.path (FolderContents.folder c) = rel.
Proof.
  intros H rel. unfold folder_contents in H.
  fold (listing_path relative_path) in H. fold rel in H.
  destruct (_resolve_full_path E self rel snapshot_id) as [folder_path|e];
    simpl in H; [|discriminate].
  destruct (os.isdir (world E) folder_path); simpl in H; [|discriminate].
  destruct (os.scandir (world E) folder_path) as [entries|e] eqn:Hscan;
    simpl in H; [|discriminate].
  fold (effective_limit self scan_limit) in H.
  destruct (scan_loop E self rel snapshot_id _ entries []) as [items|e] eqn:Hloop;
    simpl in H; [|discriminate].
  injection H as <-. rewrite load_contents_spec. simpl.
  now exists folder_path, entries, items.
Qed.

End Listing.

Section ListingClaims.
Variable E : env.
Variable self : FileSystem.

Lemma scan_entry_folder (rel : string) (snapshot_id : option string)
      (entry : os.DirEntry) (f : FolderItem.t) :
  scan_entry E self rel snapshot_id entry = Ok (Some (IsFolder f)) ->
  os.is_dir entry = true /\ FolderItem.name f = os.name entry
  /\ FolderItem.path f = child_path rel (os.name entry)
  /\ (truthy_str snapshot_id = false ->
      Config.include_snapshot_root (config self) = false ->
      forall folder_name, Config.snapshot_folder_name (config self) = Some folder_name ->
                          folder_name <> "" -> os.name entry <> folder_name).
Proof.
  unfold scan_entry.
  destruct (os.is_dir entry) eqn:Hdir.
  - destruct (negb (truthy_str snapshot_id) && true
              && negb (Config.include_snapshot_root (config self))
              && truthy_str (Config.snapshot_folder_name (config self))
              && _) eqn:Hskip; [discriminate|].
    destruct (_build_path E self _) as [p|e]; simpl; [|discriminate].
    destruct (_check_path_is_in_excluded_folder self p); [discriminate|].
    intros H. injection H as <-. simpl. repeat split.
    intros Hs Hi folder_name Hf Hne Hname.
    rewrite Hs, Hi, Hf in Hskip. simpl in Hskip.
    apply String.eqb_neq in Hne. rewrite Hne in Hskip. simpl in Hskip.
    rewrite Hname, String.eqb_refl in Hskip. discriminate.
  - rewrite !andb_false_r. simpl. discriminate.
Qed.

Lemma scan_entry_file (rel : string) (snapshot_id : option string) (entry : os.DirEntry) :
  os.is_dir entry = false ->
  scan_entry E self rel snapshot_id entry
  = Ok (Some (IsFile (flag_too_large self
                        (FileItem.make (os.name entry) (child_path rel (os.name entry))
                                       (os.st_size entry))))).
Proof.
  intros Hdir. unfold scan_entry. rewrite Hdir, !andb_false_r. reflexivity.
Qed.

Lemma scan_entry_snapshot_root (rel : string) (snapshot_id : option string)
      (entry : os.DirEntry) (folder_name : string) :
  truthy_str snapshot_id = false ->
  Config.include_snapshot_root (config self) = false ->
  Config.snapshot_folder_name (config self) = Some folder_name -> folder_name <> "" ->
  os.is_dir entry = true -> os.name entry = folder_name ->
  scan_entry E self rel snapshot_id entry = Ok None.
Proof.
  intros Hs Hi Hf Hne Hdir Hname. unfold scan_entry.
  rewrite Hs, Hi, Hf, Hdir, Hname, String.eqb_refl. simpl.
  apply String.eqb_neq in Hne. now rewrite Hne.
Qed.

Lemma kept_items_in (rel : string) (snapshot_id : option string)
      (entries : list os.DirEntry) (item : FileSystemItem) :
  In item (kept_items E self rel snapshot_id entries) <->
  exists entry, In entry entries
                /\ scan_entry E self rel snapshot_id entry = Ok (Some item).
Proof.
  unfold kept_items. rewrite in_flat_map. split.
  - intros (entry & Hin & H). exists entry. split; [exact Hin|].
    destruct (scan_entry E self rel snapshot_id entry) as [[it|]|e]; simpl in H;
      try contradiction.
    destruct H as [->|[]]. reflexivity.
  - intros (entry & Hin & H). exists entry. split; [exact Hin|]. rewrite H. now left.
Qed.

Lemma folders_of_in (items : list FileSystemItem) (f : FolderItem.t) :
  In f (folders_of items) <-> In (IsFolder f) items.
Proof.
  unfold folders_of. rewrite in_flat_map. split.
  - intros ([g|g] & Hin & H); simpl in H; [|contradiction].
    destruct H as [->|[]]. exact Hin.
  - intros H. exists (IsFolder f). split; [exact H|now left].
Qed.

Lemma files_of_in (items : list FileSystemItem) (f : FileItem.t) :
  In f (files_of items) <-> In (IsFile f) items.
Proof.
  unfold files_of. rewrite in_flat_map. split.
  - intros ([g|g] & Hin & H); simpl in H; [contradiction|].
    destruct H as [->|[]]. exact Hin.
  - intros H. exists (IsFile f). split; [exact H|now left].
Qed.

(** A returned listing holds, in order, the kept items of the scan: all of
    them without a limit, the first [n] under a limit [n > 0]. *)
Lemma listing_items (relative_path : string) (scan_limit : option Z)
      (snapshot_id : option string) (c : FolderContents.t) :
  folder_contents E self relative_path scan_limit snapshot_id = Ok c ->
  exists folder_path entries items,
    _resolve_full_path E self (listing_path relative_path) snapshot_id = Ok folder_path
    /\ os.scandir (world E) folder_path = Ok entries
    /\ FolderContents.subfolders c = folders_of items
    /\ FolderContents.files c = files_of items
    /\ incl items (kept_items E self (listing_path relative_path) snapshot_id entries)
    /\ (forall n, effective_limit self scan_limit = Some n -> (0 < n)%Z ->
                  (Z.of_nat (List.length items) <= n)%Z)
    /\ (effective_limit self scan_limit = None \/ effective_limit self scan_limit = Some 0%Z ->
        items = kept_items E self (listing_path relative_path) snapshot_id entries).
Proof.
  intros H. apply folder_contents_inv in H. cbv zeta in H.
  destruct H as (folder_path & entries & items & Hres & Hscan & Hloop & Hsf & Hfl & _).
  exists folder_path, entries, items. repeat (split; [assumption|]).
  apply scan_loop_spec in Hloop. simpl in Hloop.
  destruct (effective_limit self scan_limit) as [n|].
  - destruct (Z.eqb_spec n 0) as [Hn0|Hn].
    + subst items. split; [apply incl_refl|]. split; [|reflexivity].
      intros m Hm Hm0. injection Hm as Hm. lia.
    + assert (Hpos : (0 < Z.to_nat (Z.max n 1))%nat) by lia.
      specialize (Hloop Hpos). rewrite Nat.sub_0_r in Hloop. subst items.
      split; [|split].
      * intros x Hx. eapply firstn_In. exact Hx.
      * intros m Hm Hm0. injection Hm as <-.
        pose proof (firstn_le_length (Z.to_nat (Z.max n 1))
                      (kept_items E self (listing_path relative_path) snapshot_id entries)).
        lia.
      * intros [Hc|Hc]; [discriminate|]. injection Hc as Hc. contradiction.
  - subst items. split; [apply incl_refl|]. split; [discriminate|reflexivity].
Qed.

End ListingClaims.

Section ListingTheorems.
Variable E : env.
Variable self : FileSystem.

(** No folder named like the snapshot root is listed in a live listing that
    hides the snapshot root, whatever folder is listed. *)
Lemma snapshot_root_not_listed (relative_path : string) (scan_limit : option Z)
      (snapshot_id : option string) (c : FolderContents.t) (folder_name : string) :
  folder_contents E self relative_path scan_limit snapshot_id = Ok c ->
  truthy_str snapshot_id = false ->
  Config.include_snapshot_root (config self) = false ->
  Config.snapshot_folder_name (config self) = Some folder_name -> folder_name <> "" ->
  ~ In folder_name (map FolderItem.name (FolderContents.subfolders c)).
Proof.
  intros Hc Hs Hi Hf Hne Hin.
  destruct (listing_items E self _ _ _ Hc)
    as (folder_path & entries & items & _ & _ & Hsf & _ & Hincl & _).
  apply in_map_iff in Hin as (f & Hname & Hin).
  rewrite Hsf in Hin. apply folders_of_in in Hin. apply Hincl in Hin.
  apply kept_items_in in Hin as (entry & _ & Hentry).
  apply scan_entry_folder in Hentry as (_ & Hn & _ & Hskip).
  apply (Hskip Hs Hi folder_name Hf Hne). congruence.
Qed.

(** C5.  Under a limit [n > 0], given or configured, a returned listing has
    at most [n] entries over subfolders and files; under a limit of 0, or
    with no limit given and none configured, it has every entry the scan
    keeps; a live listing of the root has no subfolder named like the
    snapshot root unless the configuration includes it, in which case the
    folder is listed like any other. *)
Theorem listing_respects_scan_limit
        (relative_path : string) (scan_limit : option Z) (snapshot_id : option string)
        (c : FolderContents.t)
        (Hc : folder_contents E self relative_path scan_limit snapshot_id = Ok c) :
  (forall n, effective_limit self scan_limit = Some n -> (0 < n)%Z ->
             (Z.of_nat (List.length (FolderContents.subfolders c)
                        + List.length (FolderContents.files c)) <= n)%Z)
  /\ (effective_limit self scan_limit = None \/ effective_limit self scan_limit = Some 0%Z ->
      exists folder_path entries,
        _resolve_full_path E self (listing_path relative_path) snapshot_id = Ok folder_path
        /\ os.scandir (world E) folder_path = Ok entries
        /\ FolderContents.subfolders c
           = folders_of (kept_items E self (listing_path relative_path) snapshot_id entries)
        /\ FolderContents.files c
           = files_of (kept_items E self (listing_path relative_path) snapshot_id entries))
  /\ (truthy_str snapshot_id = false -> listing_path relative_path = "" ->
      forall folder_name,
        Config.snapshot_folder_name (config self) = Some folder_name -> folder_name <> "" ->
        (Config.include_snapshot_root (config self) = false ->
         ~ In folder_name (map FolderItem.name (FolderContents.subfolders c)))
        /\ (Config.include_snapshot_root (config self) = true ->
            forall entry,
              os.name entry = folder_name -> os.is_dir entry = true ->
              scan_entry E self "" snapshot_id entry
              = (p <- _build_path E self folder_name ;;
                 if _check_path_is_in_excluded_folder self p then Ok None
                 else Ok (Some (IsFolder {| FolderItem.name := folder_name;
                                            FolderItem.path := folder_name |}))))).
Proof.
  destruct (listing_items E self _ _ _ Hc)
    as (folder_path & entries & items & Hres & Hscan & Hsf & Hfl & _ & Hbound & Hall).
  split; [|split].
  - intros n Hn Hpos. rewrite Hsf, Hfl, folders_files_length. now apply Hbound.
  - intros Hlim. exists folder_path, entries. rewrite <- (Hall Hlim). auto.
  - intros Hs Hroot folder_name Hf Hne. split.
    + intros Hi. now apply (snapshot_root_not_listed _ _ _ Hc).
    + intros Hi entry Hname Hdir. unfold scan_entry.
      rewrite Hi, Hdir, Hname. simpl negb. rewrite !andb_false_r, andb_false_l.
      reflexivity.
Qed.

(** C10.  In a live listing that hides the snapshot root, of any folder, a
    directory entry named like the snapshot root is passed over and no such
    subfolder is listed, while an entry that is a file is always kept, also
    under that name: it is among the files of a listing that is not cut
    short. *)
Theorem snapshot_named_folder_skipped_at_any_depth
        (relative_path : string) (scan_limit : option Z) (snapshot_id : option string)
        (c : FolderContents.t) (folder_name : string)
        (Hlive : truthy_str snapshot_id = false)
        (Hhide : Config.include_snapshot_root (config self) = false)
        (Hname : Config.snapshot_folder_name (config self) = Some folder_name)
        (Hset : folder_name <> "")
        (Hc : folder_contents E self relative_path scan_limit snapshot_id = Ok c) :
  ~ In folder_name (map FolderItem.name (FolderContents.subfolders c))
  /\ (forall entry, os.is_dir entry = true -> os.name entry = folder_name ->
                    scan_entry E self (listing_path relative_path) snapshot_id entry = Ok None)
  /\ (forall entry, os.is_dir entry = false ->
                    exists f, scan_entry E self (listing_path relative_path) snapshot_id entry
                              = Ok (Some (IsFile f))
                              /\ FileItem.name f = os.name entry)
  /\ exists folder_path entries,
       _resolve_full_path E self (listing_path relative_path) snapshot_id = Ok folder_path
       /\ os.scandir (world E) folder_path = Ok entries
       /\ (effective_limit self scan_limit = None
           \/ effective_limit self scan_limit = Some 0%Z ->
           forall entry, In entry entries -> os.is_dir entry = false ->
                         In (os.name entry) (map FileItem.name (FolderContents.files c))).
Proof.
  split; [now apply (snapshot_root_not_listed _ _ _ Hc)|].
  split; [intros entry Hdir Hn; now apply (@scan_entry_snapshot_root E self _ _ _ folder_name)|].
  assert (Hfile : forall entry, os.is_dir entry = false ->
            exists f, scan_entry E self (listing_path relative_path) snapshot_id entry
                      = Ok (Some (IsFile f))
                      /\ FileItem.name f = os.name entry).
  { intros entry Hdir. rewrite (scan_entry_file E self _ _ _ Hdir).
    eexists. split; [reflexivity|].
    unfold flag_too_large, FileItem.define_if_is_too_large.
    destruct (Config.max_return_file_size (config self)) as [limit|]; [|reflexivity].
    destruct (negb (Z.eqb limit 0)); [|reflexivity].
    simpl. destruct (_ >? _)%Z; reflexivity. }
  split; [exact Hfile|].
  destruct (listing_items E self _ _ _ Hc)
    as (folder_path & entries & items & Hres & Hscan & _ & Hfl & _ & _ & Hall).
  exists folder_path, entries. repeat (split; [assumption|]).
  intros Hlim entry Hin Hdir. destruct (Hfile entry Hdir) as (f & Hf & <-).
  apply in_map. rewrite Hfl, (Hall Hlim). apply files_of_in.
  apply kept_items_in. now exists entry.
Qed.

End ListingTheorems.

Lemma listing_respects_scan_limit_witness :
  (Z.of_nat (0 + 1) <= 1)%Z.
Proof.
  exact (proj1 (@listing_respects_scan_limit Sample.without_hachoir Sample.fs
                  "docs/" (Some 1%Z) None _ eq_refl) 1%Z eq_refl eq_refl).
Defined.

Lemma snapshot_named_folder_skipped_at_any_depth_witness :
  ~ In ".snapshot" ["sub"].
Proof.
  exact (proj1 (@snapshot_named_folder_skipped_at_any_depth
                  Sample.without_hachoir Sample.fs "docs" None None _ ".snapshot"
                  eq_refl eq_refl eq_refl ltac:(discriminate) eq_refl)).
Defined.

(** ** Size limits *)

Section SizeLimits.
Variable E : env.
Variable self : FileSystem.



End SizeLimits.



(** ** Snapshot listings never raise *)

Section Snapshots.
Variable E : env.
Variable self : FileSystem.

Lemma scandir_of_dir (dir : string) :
  os.isdir (world E) dir = true -> exists entries, os.scandir (world E) dir = Ok entries.
Proof.
  unfold os.isdir, os.scandir.
  destruct (os.lookup (world E) dir) as [[content|sz children]|]; simpl; try discriminate.
  intros _. now eexists.
Qed.

Lemma get_snapshot_root_cases :
  match _get_snapshot_root E self with
  | Ok snapshot_root =>
      os.isdir (world E) snapshot_root = true
      /\ exists folder_name,
           Config.snapshot_folder_name (config self) = Some folder_name
           /\ folder_name <> ""
           /\ snapshot_root
              = posixpath.abspath (os.getcwd (world E))
                  (posixpath.join (Config.file_system_path (config self)) folder_name)
  | Raise e => exists msg, e = ValueError msg
  end.
Proof.
  unfold _get_snapshot_root.
  destruct (Config.snapshot_folder_name (config self)) as [folder_name|]; [|now eexists].
  destruct (String.eqb_spec folder_name "") as [->|Hne]; [now eexists|].
  destruct (os.isdir (world E) _) eqn:Hdir; simpl; [|now eexists].
  split; [exact Hdir|]. now exists folder_name.
Qed.

Lemma ensure_path_allowed_cases (relative_path : string) :
  match _ensure_path_allowed E self relative_path with
  | Ok _ => exists p, _build_path E self relative_path = Ok p
                      /\ _check_path_is_in_excluded_folder self p = false
  | Raise e => exists msg, e = ValueError msg
  end.
Proof.
  unfold _ensure_path_allowed.
  pose proof (build_path_cases E self relative_path) as H.
  destruct (_build_path E self relative_path) as [p|e]; simpl.
  - unfold _require_path_is_in_excluded_folder.
    destruct (_check_path_is_in_excluded_folder self p) eqn:Hx; simpl; [now eexists|].
    now exists p.
  - subst e. now eexists.
Qed.

(** C7.  [list_snapshots] returns a listing for every path: it carries the
    configured snapshot-folder name (empty when none is configured) and the
    queried path with the aliases of the root collapsed to the empty path,
    and it has no snapshot when snapshots are disabled, when the snapshot
    root is not a directory, or when the path resolves into an excluded
    folder. *)
Theorem list_snapshots_never_raises (path : string) :
  exists listing,
    list_snapshots E self path = Ok listing
    /\ SnapshotList.snapshot_folder listing = configured_snapshot_folder self
    /\ SnapshotList.target_path listing = normalize_relative path
    /\ (path <> "/" -> path <> "\" -> SnapshotList.target_path listing = path)
    /\ (truthy_str (Config.snapshot_folder_name (config self)) = false ->
        SnapshotList.snapshots listing = [])
    /\ (forall folder_name,
          Config.snapshot_folder_name (config self) = Some folder_name ->
          os.isdir (world E)
            (posixpath.abspath (os.getcwd (world E))
               (posixpath.join (Config.file_system_path (config self)) folder_name)) = false ->
          SnapshotList.snapshots listing = [])
    /\ (forall p, _build_path E self (normalize_relative path) = Ok p ->
                  _check_path_is_in_excluded_folder self p = true ->
                  SnapshotList.snapshots listing = []).
Proof.
  assert (Hpath : path <> "/" -> path <> "\" -> normalize_relative path = path).
  { intros H1 H2. unfold normalize_relative, is_root_alias.
    apply String.eqb_neq in H1, H2. rewrite H1, H2.
    destruct (String.eqb_spec path "") as [->|]; reflexivity. }
  unfold list_snapshots, configured_snapshot_folder.
  fold (normalize_relative path).
  destruct (Config.snapshot_folder_name (config self)) as [folder_name|] eqn:Hname;
    [|eexists; repeat split; auto].
  destruct (String.eqb_spec folder_name "") as [->|Hne];
    [eexists; repeat split; auto|].
  pose proof get_snapshot_root_cases as Hroot.
  destruct (_get_snapshot_root E self) as [snapshot_root|e].
  - destruct Hroot as (Hdir & fn & Hfn & _ & Hsr).
    rewrite Hname in Hfn. injection Hfn as <-.
    pose proof (ensure_path_allowed_cases (normalize_relative path)) as Hallowed.
    destruct (_ensure_path_allowed E self (normalize_relative path)) as [[]|e].
    + destruct Hallowed as (p & Hp & Hx).
      destruct (scandir_of_dir _ Hdir) as [entries Hscan]. rewrite Hscan. simpl bind.
      eexists. repeat split; auto; simpl.
      * apply String.eqb_neq in Hne. rewrite Hne. discriminate.
      * intros fn Hfn Hmissing. injection Hfn as <-. congruence.
      * intros q Hq Hqx. congruence.
    + destruct Hallowed as [msg ->]. eexists. repeat split; auto.
  - destruct Hroot as [msg ->]. eexists. repeat split; auto.
Qed.

End Snapshots.

(** ** The order of a snapshot listing *)

Section SortFacts.
Context {A : Type}.
Variable lt : A -> A -> bool.
Hypothesis lt_asym : forall a b, lt a b = true -> lt b a = false.
Hypothesis ge_trans : forall a b c, lt a b = false -> lt b c = false -> lt a c = false.

Lemma insert_desc_perm (x : A) (l : list A) : Permutation (x :: l) (insert_desc lt x l).
Proof.
  induction l as [|y l IH]; simpl; [reflexivity|].
  destruct (lt x y); [|reflexivity].
  rewrite perm_swap. now apply perm_skip.
Qed.

Lemma sort_desc_perm (l : list A) : Permutation l (sort_desc lt l).
Proof.
  induction l as [|x l IH]; simpl; [reflexivity|].
  rewrite <- insert_desc_perm. now apply perm_skip.
Qed.

Lemma insert_desc_sorted (x : A) (l : list A) :
  StronglySorted (fun a b => lt a b = false) l ->
  StronglySorted (fun a b => lt a b = false) (insert_desc lt x l).
Proof.
  induction 1 as [|y l Hl IH Hy]; simpl; [repeat constructor|].
  destruct (lt x y) eqn:Hxy.
  - constructor; [exact IH|].
    apply Forall_forall. intros z Hz.
    apply (Permutation_in _ (Permutation_sym (insert_desc_perm x l))) in Hz.
    destruct Hz as [<-|Hz]; [now apply lt_asym|].
    rewrite Forall_forall in Hy. now apply Hy.
  - constructor; [now constructor|].
    constructor; [exact Hxy|].
    apply Forall_forall. intros z Hz. rewrite Forall_forall in Hy.
    eapply ge_trans; [exact Hxy|now apply Hy].
Qed.

Lemma sort_desc_sorted (l : list A) :
  StronglySorted (fun a b => lt a b = false) (sort_desc lt l).
Proof.
  induction l as [|x l IH]; simpl; [constructor|now apply insert_desc_sorted].
Qed.

End SortFacts.

Lemma Z_total_cmp : total_cmp Z.compare.
Proof.
  split.
  - apply Z.compare_eq_iff.
  - intros a b. apply Z.compare_antisym.
  - intros a b c. rewrite !Z.compare_lt_iff. apply Z.lt_trans.
Qed.

Lemma string_total_cmp : total_cmp String.compare.
Proof.
  split.
  - apply String_as_OT.cmp_eq.
  - intros a b. apply String.compare_antisym.
  - intros a b c Hab Hbc.
    apply String_as_OT.cmp_lt. apply String_as_OT.cmp_lt in Hab, Hbc.
    eapply String_as_OT.lt_trans; eassumption.
Qed.

Lemma pair_total_cmp {A B : Type} (c1 : A -> A -> comparison) (c2 : B -> B -> comparison) :
  total_cmp c1 -> total_cmp c2 -> total_cmp (pair_cmp c1 c2).
Proof.
  intros [e1 a1 t1] [e2 a2 t2]. unfold pair_cmp, datetime.lex. split.
  - intros [x1 x2] [y1 y2]; simpl. split.
    + destruct (c1 x1 y1) eqn:H1; try discriminate.
      intros H2. apply e1 in H1. apply e2 in H2. now subst.
    + intros H. injection H as -> ->.
      rewrite (proj2 (e1 y1 y1) eq_refl). now apply e2.
  - intros [x1 x2] [y1 y2]; simpl. rewrite (a1 x1 y1), (a2 x2 y2).
    destruct (c1 x1 y1); reflexivity.
  - intros [x1 x2] [y1 y2] [z1 z2]; simpl.
    destruct (c1 x1 y1) eqn:H1; try discriminate.
    + apply e1 in H1. subst y1. intros H2.
      destruct (c1 x1 z1); try discriminate; [|reflexivity].
      intros H3. eapply t2; eassumption.
    + intros _. destruct (c1 y1 z1) eqn:H2; try discriminate.
      * apply e1 in H2. subst z1. now rewrite H1.
      * intros _. now rewrite (t1 _ _ _ H1 H2).
Qed.

Lemma map_total_cmp {A B : Type} (f : A -> B) (cmp : B -> B -> comparison) :
  (forall a b, f a = f b -> a = b) ->
  total_cmp cmp -> total_cmp (fun a b => cmp (f a) (f b)).
Proof.
  intros Hinj [e a t]. split.
  - intros x y. rewrite e. split; [apply Hinj|congruence].
  - intros x y. apply a.
  - intros x y z. apply t.
Qed.

Lemma datetime_total_cmp : total_cmp datetime.compare.
Proof.
  refine (@map_total_cmp _ _ datetime_fields
            (pair_cmp Z.compare (pair_cmp Z.compare (pair_cmp Z.compare
               (pair_cmp Z.compare Z.compare)))) _ _).
  - intros [] []. unfold datetime_fields. simpl. congruence.
  - repeat apply pair_total_cmp; apply Z_total_cmp.
Qed.

Lemma key_total_cmp : total_cmp key_compare.
Proof.
  apply (pair_total_cmp datetime_total_cmp string_total_cmp).
Qed.

Lemma key_lt_asym (a b : SnapshotSummary.t) : key_lt a b = true -> key_lt b a = false.
Proof.
  unfold key_lt. rewrite (cmp_antisym key_total_cmp (sort_key a) (sort_key b)).
  destruct (key_compare (sort_key a) (sort_key b)); simpl; congruence.
Qed.

Lemma key_ge_trans (a b c : SnapshotSummary.t) :
  key_lt a b = false -> key_lt b c = false -> key_lt a c = false.
Proof.
  unfold key_lt. pose proof key_total_cmp as [e an t].
  destruct (key_compare (sort_key a) (sort_key b)) eqn:Hab; try discriminate; intros _.
  - apply e in Hab. now rewrite Hab.
  - destruct (key_compare (sort_key b) (sort_key c)) eqn:Hbc; try discriminate; intros _.
    + apply e in Hbc. now rewrite <- Hbc, Hab.
    + assert (Hca : key_compare (sort_key c) (sort_key a) = Lt).
      { apply t with (b := sort_key b).
        - now rewrite an, Hbc.
        - now rewrite an, Hab. }
      rewrite an, Hca. reflexivity.
Qed.

Lemma key_lt_false_ge (a b : SnapshotSummary.t) : key_lt a b = false <-> key_ge a b.
Proof.
  unfold key_lt, key_ge. destruct (key_compare _ _); split; congruence.
Qed.

Lemma make_not_before_min (y m d H M : Z) (t : datetime.t) :
  datetime.make y m d H M = Some t -> datetime.compare t datetime.min <> Lt.
Proof.
  unfold datetime.make.
  destruct (_ && _) eqn:Hrange; [|discriminate].
  intros Ht. injection Ht as <-.
  repeat (apply andb_prop in Hrange as [Hrange ?]).
  unfold datetime.compare, datetime.lex, datetime.min. simpl.
  destruct (Z.compare_spec y 1); [|lia|discriminate].
  destruct (Z.compare_spec m 1); [|lia|discriminate].
  destruct (Z.compare_spec d 1); [|lia|discriminate].
  destruct (Z.compare_spec H 0); [|lia|discriminate].
  destruct (Z.compare_spec M 0); [discriminate|lia|discriminate].
Qed.

Lemma strptime_not_before_min (tznames : list string) (text : string)
      (fmt : datetime.format) (t : datetime.t) :
  datetime.strptime tznames text fmt = Some t -> datetime.compare t datetime.min <> Lt.
Proof.
  unfold datetime.strptime.
  destruct (datetime.format_re tznames fmt text) as [|[[[[[y m] d] H] M] rest] l];
    [discriminate|].
  destruct (String.eqb rest ""); [|discriminate]. apply make_not_before_min.
Qed.

Lemma StronglySorted_middle {A : Type} (R : A -> A -> Prop) (l1 l2 : list A) (x : A) :
  StronglySorted R (l1 ++ x :: l2) -> Forall (R x) l2.
Proof.
  induction l1 as [|y l1 IH]; simpl; intros H; inversion H; subst; auto.
Qed.

Lemma StronglySorted_weaken {A : Type} (R S : A -> A -> Prop) (l : list A) :
  (forall a b, R a b -> S a b) -> StronglySorted R l -> StronglySorted S l.
Proof.
  intros HRS. induction 1 as [|x l Hl IH Hx]; constructor; [exact IH|].
  eapply Forall_impl; [|exact Hx]. intros b. apply HRS.
Qed.

Section SnapshotOrder.
Variable E : env.
Variable self : FileSystem.

Lemma parse_not_before_min (snapshot_id : string) (t : datetime.t) :
  _parse_snapshot_timestamp E snapshot_id = Some t ->
  datetime.compare t datetime.min <> Lt.
Proof.
  unfold _parse_snapshot_timestamp.
  destruct (datetime.strptime (tznames E) snapshot_id datetime.Fmt_Y_m_d_H_M_Z) eqn:H1.
  - intros H. injection H as <-. eapply strptime_not_before_min. exact H1.
  - apply strptime_not_before_min.
Qed.

Lemma summarize_timestamp (target_path : string) (entries : list os.DirEntry)
      (item : SnapshotSummary.t) :
  In item (flat_map (summarize E target_path) entries) ->
  SnapshotSummary.timestamp item = _parse_snapshot_timestamp E (SnapshotSummary.id item).
Proof.
  rewrite in_flat_map. intros (entry & _ & H). unfold summarize in H.
  destruct (negb (os.is_dir entry)); [contradiction|].
  destruct H as [<-|[]]. reflexivity.
Qed.

Lemma list_snapshots_inv (path : string) (listing : SnapshotList.t) :
  list_snapshots E self path = Ok listing ->
  exists found,
    SnapshotList.snapshots listing = sort_desc key_lt found
    /\ (forall item, In item found ->
          SnapshotSummary.timestamp item
          = _parse_snapshot_timestamp E (SnapshotSummary.id item))
    /\ (found = []
        \/ exists snapshot_root entries,
             _get_snapshot_root E self = Ok snapshot_root
             /\ os.scandir (world E) snapshot_root = Ok entries
             /\ found = flat_map (summarize E (normalize_relative path)) entries).
Proof.
  unfold list_snapshots. fold (normalize_relative path).
  assert (Hnil : forall name,
    exists found : list SnapshotSummary.t,
      SnapshotList.snapshots
        {| SnapshotList.snapshot_folder := name;
           SnapshotList.target_path := normalize_relative path;
           SnapshotList.snapshots := [] |} = sort_desc key_lt found
      /\ (forall item, In item found ->
            SnapshotSummary.timestamp item
            = _parse_snapshot_timestamp E (SnapshotSummary.id item))
      /\ (found = []
          \/ exists snapshot_root entries,
               _get_snapshot_root E self = Ok snapshot_root
               /\ os.scandir (world E) snapshot_root = Ok entries
               /\ found = flat_map (summarize E (normalize_relative path)) entries)).
  { intros name. exists []. split; [reflexivity|]. split; [intros item []|now left]. }
  destruct (Config.snapshot_folder_name (config self)) as [folder_name|];
    [|intros H; injection H as <-; apply Hnil].
  destruct (String.eqb folder_name ""); [intros H; injection H as <-; apply Hnil|].
  destruct (_get_snapshot_root E self) as [snapshot_root|[]] eqn:Hroot;
    try discriminate; [|intros H; injection H as <-; apply Hnil].
  destruct (_ensure_path_allowed E self (normalize_relative path)) as [[]|[]];
    try discriminate; [|intros H; injection H as <-; apply Hnil].
  destruct (os.scandir (world E) snapshot_root) as [entries|e] eqn:Hscan;
    simpl; [|discriminate].
  intros H. injection H as <-. simpl.
  exists (flat_map (summarize E (normalize_relative path)) entries).
  split; [reflexivity|]. split; [apply summarize_timestamp|].
  right. now exists snapshot_root, entries.
Qed.

End SnapshotOrder.

(** C4 (as amended).  A snapshot listing is in descending order of the pair
    (timestamp, id), an id that is no timestamp counting as [datetime.min]
    and ties going to the larger id; an entry without a timestamp therefore
    stands after every entry whose timestamp is later than [datetime.min],
    and among entries stamped exactly [datetime.min] it stands by its id;
    the snapshots [2024_01_01_10.00], [2024_02_01_10.00] and [weird_name]
    are listed as [2024_02_01_10.00], [2024_01_01_10.00], [weird_name]. *)
Theorem snapshots_listed_in_descending_order :
  (forall (E : env) (self : FileSystem) (path : string) (listing : SnapshotList.t),
     list_snapshots E self path = Ok listing ->
     StronglySorted key_ge (SnapshotList.snapshots listing)
     /\ (forall before unparsed after,
           SnapshotList.snapshots listing = (before ++ unparsed :: after)%list ->
           SnapshotSummary.timestamp unparsed = None ->
           forall parsed t,
             In parsed after -> SnapshotSummary.timestamp parsed = Some t ->
             t = datetime.min
             /\ String.compare (SnapshotSummary.id unparsed) (SnapshotSummary.id parsed) <> Lt))
  /\ (exists listing,
        list_snapshots Sample.without_hachoir Sample.fs "" = Ok listing
        /\ map SnapshotSummary.id (SnapshotList.snapshots listing)
           = ["2024_02_01_10.00"; "2024_01_01_10.00"; "weird_name"]
        /\ map SnapshotSummary.timestamp (SnapshotList.snapshots listing)
           = [datetime.make 2024 2 1 10 0; datetime.make 2024 1 1 10 0; None]).
Proof.
  split; [|eexists; repeat split].
  intros E self path listing H.
  destruct (list_snapshots_inv E self path H) as (found & Hsorted & Hts & _).
  assert (Hs : StronglySorted key_ge (SnapshotList.snapshots listing)).
  { rewrite Hsorted.
    eapply StronglySorted_weaken;
      [|apply (sort_desc_sorted key_lt key_lt_asym key_ge_trans)].
    intros a b. apply key_lt_false_ge. }
  split; [exact Hs|].
  intros before unparsed after Hsplit Hnone parsed t Hin Hsome.
  rewrite Hsplit in Hs. apply StronglySorted_middle in Hs.
  rewrite Forall_forall in Hs. specialize (Hs parsed Hin).
  assert (Hmin : datetime.compare t datetime.min <> Lt).
  { apply (parse_not_before_min E (SnapshotSummary.id parsed)).
    rewrite <- Hsome. symmetry. apply Hts.
    apply (Permutation_in _ (Permutation_sym (sort_desc_perm key_lt found))).
    rewrite <- Hsorted, Hsplit. apply in_or_app. right. now right. }
  unfold key_ge, key_compare, sort_key in Hs. rewrite Hnone, Hsome in Hs. simpl in Hs.
  rewrite (cmp_antisym datetime_total_cmp t datetime.min) in Hs.
  destruct (datetime.compare t datetime.min) eqn:Hc; simpl in Hs.
  - split; [now apply (cmp_eq datetime_total_cmp)|exact Hs].
  - now destruct Hmin.
  - now destruct Hs.
Qed.

Lemma snapshots_listed_in_descending_order_witness :
  exists listing,
    list_snapshots Sample.without_hachoir Sample.fs "README.md" = Ok listing
    /\ StronglySorted key_ge (SnapshotList.snapshots listing).
Proof.
  eexists. split; [reflexivity|].
  exact (proj1 (proj1 snapshots_listed_in_descending_order
                  Sample.without_hachoir Sample.fs "README.md" _ eq_refl)).
Defined.

(** C4, as first stated, fails where a snapshot is named after the first
    minute of the calendar: its timestamp is [datetime.min], the value that
    stands in for a missing timestamp, so the entry without a timestamp is
    listed before it, by its id. *)
Lemma unparsed_snapshot_listed_before_parsed :
  exists listing,
    list_snapshots Sample.ancient Sample.fs "" = Ok listing
    /\ map SnapshotSummary.id (SnapshotList.snapshots listing)
       = ["weird_name"; "0001_01_01_00.00"]
    /\ map SnapshotSummary.timestamp (SnapshotList.snapshots listing)
       = [None; Some datetime.min].
Proof. eexists. repeat split. Qed.

(** ** A trailing slash *)

Lemma append_assoc (a b c : string) : (a ++ b) ++ c = a ++ (b ++ c).
Proof. induction a as [|x a IH]; simpl; [reflexivity|now rewrite IH]. Qed.

Lemma append_eq_nil (a b : string) : a ++ b = "" -> a = "" /\ b = "".
Proof. destruct a; simpl; [auto|discriminate]. Qed.

Lemma endswith_sep_app (a b : string) :
  b <> "" -> endswith_sep (a ++ b) = endswith_sep b.
Proof.
  intros Hb. induction a as [|c a IH]; simpl; [reflexivity|].
  rewrite <- IH. destruct (a ++ b) eqn:Hab; [|reflexivity].
  apply append_eq_nil in Hab as [_ Hab]. contradiction.
Qed.

Lemma endswith_sep_snoc (a : string) : endswith_sep (a ++ "/") = true.
Proof. rewrite endswith_sep_app; [reflexivity|discriminate]. Qed.

Lemma startswith_app (a b : string) :
  a <> "" -> startswith (a ++ b) "/" = startswith a "/".
Proof.
  intros Ha. destruct a as [|c a]; [contradiction|]. reflexivity.
Qed.

Lemma isabs_app_l (a b : string) :
  a <> "" -> posixpath.isabs (a ++ b) = posixpath.isabs a.
Proof. apply startswith_app. Qed.

Lemma initial_slashes_app (y z : string) :
  y <> "" -> endswith_sep y = false ->
  posixpath.initial_slashes (y ++ z) = posixpath.initial_slashes y.
Proof.
  intros Hy Hend. unfold posixpath.initial_slashes.
  destruct y as [|a [|b [|c y]]]; [contradiction| | |]; simpl in Hend;
    rewrite ?(Ascii.eqb_sym _ sep) in Hend; unfold sep in Hend; simpl.
  - rewrite Hend. reflexivity.
  - rewrite Hend, !andb_false_r. simpl. destruct (Ascii.eqb "/" a); reflexivity.
  - destruct (Ascii.eqb "/" a), (Ascii.eqb "/" b), (Ascii.eqb "/" c); reflexivity.
Qed.

Lemma join_nonempty (a b : string) : b <> "" -> posixpath.join a b <> "".
Proof.
  intros Hb. unfold posixpath.join.
  destruct (startswith b "/"); [exact Hb|].
  destruct (_ || _); intros H; apply append_eq_nil in H as [_ H];
    [contradiction|discriminate].
Qed.

Lemma join_endswith (a b : string) :
  b <> "" -> endswith_sep (posixpath.join a b) = endswith_sep b.
Proof.
  intros Hb. unfold posixpath.join.
  destruct (startswith b "/"); [reflexivity|].
  destruct (_ || _).
  - now apply endswith_sep_app.
  - rewrite endswith_sep_app by discriminate.
    change ("/" ++ b) with (String sep "" ++ b). now apply endswith_sep_app.
Qed.

Lemma join_trailing (a p : string) :
  p <> "" -> posixpath.join a (p ++ "/") = posixpath.join a p ++ "/".
Proof.
  intros Hp. unfold posixpath.join.
  rewrite startswith_app by assumption.
  destruct (startswith p "/"); [reflexivity|].
  destruct (_ || _); now rewrite ?append_assoc.
Qed.

(** Components [normpath] passes over alter nothing at the end of a path. *)
Lemma norm_fold_skipped (i : nat) (comps acc : list string) :
  Forall (fun c => String.eqb c "" || String.eqb c "." = true) comps ->
  fold_left (posixpath.norm_step i) comps acc = acc.
Proof.
  induction 1 as [|c comps Hc _ IH]; simpl; [reflexivity|].
  unfold posixpath.norm_step at 2. now rewrite Hc.
Qed.

Lemma normpath_skipped_suffix (y t : string) :
  y <> "" -> endswith_sep y = false ->
  Forall (fun c => String.eqb c "" || String.eqb c "." = true) (split_sep t) ->
  posixpath.normpath (y ++ String sep t) = posixpath.normpath y.
Proof.
  intros Hy Hend Ht. unfold posixpath.normpath.
  rewrite initial_slashes_app by assumption.
  rewrite split_sep_app, fold_left_app, (norm_fold_skipped _ _ Ht).
  destruct (String.eqb_spec y "") as [->|_]; [contradiction|].
  destruct (String.eqb_spec (y ++ String sep t) "") as [H|_]; [|reflexivity].
  apply append_eq_nil in H as [H _]. contradiction.
Qed.

Lemma normpath_trailing (y : string) :
  y <> "" -> endswith_sep y = false ->
  posixpath.normpath (y ++ "/") = posixpath.normpath y.
Proof.
  intros Hy Hend. apply normpath_skipped_suffix; auto.
  repeat constructor.
Qed.

Lemma abspath_trailing (cwd x : string) :
  x <> "" -> endswith_sep x = false ->
  posixpath.abspath cwd (x ++ "/") = posixpath.abspath cwd x.
Proof.
  intros Hx Hend. unfold posixpath.abspath.
  rewrite isabs_app_l by assumption.
  destruct (posixpath.isabs x); [now apply normpath_trailing|].
  rewrite join_trailing by assumption.
  apply normpath_trailing; [now apply join_nonempty|now rewrite join_endswith].
Qed.

Lemma length_append (a b : string) :
  String.length (a ++ b) = (String.length a + String.length b)%nat.
Proof. induction a as [|c a IH]; simpl; [reflexivity|now rewrite IH]. Qed.

Lemma str_take_all (s : string) : str_take (String.length s) s = s.
Proof. induction s as [|c s IH]; simpl; [reflexivity|now rewrite IH]. Qed.

Lemma after_last_sep_snoc (p : string) :
  after_last_sep (p ++ "/") = String.length (p ++ "/").
Proof.
  induction p as [|c p IH]; simpl; [reflexivity|].
  rewrite IH, length_append. simpl. now rewrite Nat.add_comm.
Qed.

Lemma all_sep_snoc (p : string) :
  p <> "" -> endswith_sep p = false -> all_sep (p ++ "/") = false.
Proof.
  induction p as [|c p IH]; [contradiction|]. intros _ Hend. simpl.
  destruct p as [|d p].
  - simpl in Hend. now rewrite Hend.
  - rewrite IH; [apply andb_false_r|discriminate|exact Hend].
Qed.

Lemma rstrip_sep_snoc (p : string) :
  endswith_sep p = false -> rstrip_sep (p ++ "/") = p.
Proof.
  induction p as [|c p IH]; [reflexivity|]. intros Hend.
  destruct p as [|d p].
  - simpl in Hend. simpl. now rewrite Hend.
  - change (rstrip_sep (String c (String d p) ++ "/"))
      with (match rstrip_sep (String d p ++ "/") with
            | EmptyString => if Ascii.eqb c sep then EmptyString else String c EmptyString
            | r => String c r
            end).
    now rewrite (IH Hend).
Qed.

(** The folder name of [p/] is the folder name of [p]. *)
Lemma basename_dirname_trailing (p : string) :
  endswith_sep p = false ->
  posixpath.basename (posixpath.dirname (p ++ "/")) = posixpath.basename p.
Proof.
  intros Hend. unfold posixpath.dirname.
  rewrite after_last_sep_snoc, str_take_all.
  destruct p as [|c p]; [reflexivity|].
  rewrite all_sep_snoc by (auto; discriminate).
  simpl negb. simpl andb. cbv iota. now rewrite rstrip_sep_snoc.
Qed.

Lemma child_path_trailing (p name : string) :
  p <> "" -> endswith_sep p = false ->
  child_path (p ++ "/") name = child_path p name.
Proof.
  intros Hp Hend. unfold child_path. rewrite endswith_sep_snoc, Hend.
  apply String.eqb_neq in Hp. rewrite Hp. simpl.
  now rewrite andb_false_r.
Qed.

Section TrailingSlash.
Variable E : env.
Variable self : FileSystem.

Let cwd := os.getcwd (world E).
Let root := Config.file_system_path (config self).

Lemma scan_entry_ext (r1 r2 : string) (snapshot_id : option string) (entry : os.DirEntry) :
  (forall name, child_path r1 name = child_path r2 name) ->
  scan_entry E self r1 snapshot_id entry = scan_entry E self r2 snapshot_id entry.
Proof. intros H. unfold scan_entry. now rewrite H. Qed.

Lemma scan_loop_ext (r1 r2 : string) (snapshot_id : option string)
      (limit : option Z) (entries : list os.DirEntry) (items : list FileSystemItem) :
  (forall name, child_path r1 name = child_path r2 name) ->
  scan_loop E self r1 snapshot_id limit entries items
  = scan_loop E self r2 snapshot_id limit entries items.
Proof.
  intros H. revert items. induction entries as [|entry rest IH]; intros items; simpl;
    [reflexivity|].
  rewrite (@scan_entry_ext r1 r2 snapshot_id entry H).
  destruct (scan_entry E self r2 snapshot_id entry) as [[item|]|e]; simpl; auto.
  now rewrite IH.
Qed.

Lemma snoc_not_special (p : string) :
  p <> "" ->
  String.eqb (p ++ "/") "" = false /\ String.eqb (p ++ "/") "/" = false
  /\ String.eqb (p ++ "/") "." = false /\ String.eqb (p ++ "/") "\" = false.
Proof.
  intros Hp. destruct p as [|c [|d p]]; [contradiction| |]; repeat split;
    apply String.eqb_neq; simpl; discriminate.
Qed.

Lemma build_path_trailing (p : string) :
  p <> "" -> p <> "." -> endswith_sep p = false ->
  _build_path E self (p ++ "/") = _build_path E self p.
Proof.
  intros Hp Hdot Hend. unfold _build_path.
  destruct (snoc_not_special Hp) as (H1 & H2 & H3 & _). rewrite H1, H2, H3.
  apply String.eqb_neq in Hp, Hdot. rewrite Hp, Hdot.
  assert (Hslash : String.eqb p "/" = false).
  { apply String.eqb_neq. intros ->. discriminate. }
  rewrite Hslash. simpl orb. cbv iota.
  apply String.eqb_neq in Hp.
  rewrite join_trailing by assumption.
  rewrite abspath_trailing; [reflexivity|now apply join_nonempty|now rewrite join_endswith].
Qed.

Lemma build_snapshot_path_trailing (snapshot_id p : string) :
  is_root_alias p = false -> endswith_sep p = false ->
  _build_snapshot_path E self snapshot_id (p ++ "/")
  = _build_snapshot_path E self snapshot_id p.
Proof.
  intros Halias Hend.
  assert (Hp : p <> "") by (intros ->; discriminate).
  rewrite !build_snapshot_path_unfold.
  destruct (snapshot_base E self snapshot_id) as [base|e]; [|reflexivity]. simpl bind.
  rewrite Halias. unfold is_root_alias.
  destruct (snoc_not_special Hp) as (H1 & H2 & _ & H4). rewrite H1, H2, H4. simpl orb.
  cbv iota. rewrite join_trailing by assumption.
  rewrite abspath_trailing; [reflexivity|now apply join_nonempty|now rewrite join_endswith].
Qed.

Lemma resolve_trailing (p : string) (snapshot_id : option string) :
  is_root_alias p = false -> endswith_sep p = false ->
  _build_path E self (p ++ "/") = _build_path E self p ->
  _resolve_full_path E self (p ++ "/") snapshot_id = _resolve_full_path E self p snapshot_id.
Proof.
  intros Halias Hend Hbuild.
  assert (Hp : p <> "") by (intros ->; discriminate).
  unfold _resolve_full_path, _ensure_path_allowed. rewrite Halias.
  assert (H : is_root_alias (p ++ "/") = false).
  { unfold is_root_alias. destruct (snoc_not_special Hp) as (H1 & H2 & _ & H4).
    now rewrite H1, H2, H4. }
  rewrite H, Hbuild.
  destruct (if truthy_str snapshot_id then snapshot_id else None) as [sid|]; [|reflexivity].
  now rewrite build_snapshot_path_trailing.
Qed.

End TrailingSlash.

Lemma no_sep_endswith (x : string) : no_sep x = true -> endswith_sep x = false.
Proof.
  induction x as [|c x IH]; [reflexivity|]. simpl. intros H.
  apply andb_prop in H as [Hc Hx]. apply negb_true_iff in Hc.
  destruct x; [exact Hc|now apply IH].
Qed.

Lemma is_name_nonempty (x : string) : is_name x = true -> x <> "".
Proof. intros H ->. discriminate. Qed.

Lemma join_names_nonempty (x : string) (l : list string) :
  is_name x = true -> join_sep (x :: l) <> "".
Proof.
  intros Hx H. destruct l; simpl in H.
  - now apply (is_name_nonempty Hx).
  - apply append_eq_nil in H as [H _]. now apply (is_name_nonempty Hx).
Qed.

Lemma join_names_no_trailing (x : string) (l : list string) :
  Forall (fun c => is_name c = true) (x :: l) ->
  endswith_sep (join_sep (x :: l)) = false.
Proof.
  revert x. induction l as [|y l IH]; intros x H; inversion H as [|? ? Hx Hl]; subst.
  - simpl. apply no_sep_endswith. now apply is_name_no_sep.
  - change (join_sep (x :: y :: l)) with (x ++ String sep (join_sep (y :: l))).
    rewrite endswith_sep_app by discriminate.
    change (String sep (join_sep (y :: l))) with (String sep "" ++ join_sep (y :: l)).
    rewrite endswith_sep_app; [now apply IH|].
    inversion Hl; subst. now apply join_names_nonempty.
Qed.

Lemma list_lt_irrefl (x : list string) : list_lt x x = false.
Proof.
  induction x as [|a x IH]; simpl; [reflexivity|]. now rewrite String.eqb_refl.
Qed.

Section CanonicalRoot.
Variable E : env.
Variable self : FileSystem.

Let cwd := os.getcwd (world E).
Let root := Config.file_system_path (config self).

(** A canonical root is a slash followed by its names. *)
Lemma canonical_root_shape :
  canonical_root E self ->
  posixpath.isabs root = true
  /\ posixpath.normpath root = root
  /\ exists names, Forall (fun c => is_name c = true) names
                   /\ root = String sep (join_sep names).
Proof.
  intros [Habs Hdouble]. fold cwd root in Habs, Hdouble.
  assert (Ha : posixpath.isabs root = true).
  { rewrite <- Habs. apply abspath_isabs, os.getcwd_isabs. }
  assert (Hn : posixpath.normpath root = root).
  { unfold posixpath.abspath in Habs. now rewrite Ha in Habs. }
  split; [exact Ha|]. split; [exact Hn|].
  destruct (normpath_abs root Ha) as (i & names & _ & Hnames & _ & Hshape & Hi).
  exists names. split.
  - eapply Forall_impl; [|exact Hnames]. intros a. apply is_proper_name_is_name.
  - rewrite Hn in Hshape. rewrite Hshape. subst i.
    unfold posixpath.initial_slashes. rewrite Hdouble.
    unfold posixpath.isabs in Ha. now rewrite Ha.
Qed.

Lemma build_path_dot_slash :
  canonical_root E self -> _build_path E self "./" = Ok root.
Proof.
  intros Hc. pose proof Hc as [Habs _]. fold cwd root in Habs.
  destruct (canonical_root_shape Hc) as (Ha & Hn & names & Hnames & Hshape).
  unfold _build_path. simpl orb. cbv iota. fold cwd root. rewrite Habs.
  assert (Hjoin : posixpath.abspath cwd (posixpath.join root "./") = root).
  { unfold posixpath.abspath. rewrite (@isabs_join root "./" Ha).
    unfold posixpath.join. simpl startswith. cbv iota.
    destruct (endswith_sep root) eqn:Hend.
    - rewrite orb_true_r.
      destruct names as [|x names].
      + rewrite Hshape. reflexivity.
      + exfalso. rewrite Hshape in Hend.
        change (String sep (join_sep (x :: names)))
          with (String sep "" ++ join_sep (x :: names)) in Hend.
        rewrite endswith_sep_app, join_names_no_trailing in Hend;
          [discriminate|assumption|].
        inversion Hnames; subst. now apply join_names_nonempty.
    - assert (Hne : root <> "") by (intros H0; rewrite H0 in Ha; discriminate).
      apply String.eqb_neq in Hne. rewrite Hne. simpl orb. cbv iota.
      apply String.eqb_neq in Hne.
      change (root ++ "/" ++ "./") with (root ++ String sep "./").
      rewrite normpath_skipped_suffix; [exact Hn|assumption|assumption|].
      repeat constructor. }
  rewrite Hjoin. unfold posixpath.commonpath. simpl forallb.
  rewrite Bool.eqb_reflx. simpl negb. cbv iota.
  unfold py_min, py_max. simpl map. simpl fold_left.
  rewrite list_lt_irrefl, common_loop_refl. simpl bind. rewrite Ha.
  assert (Hc' : posixpath.components root = names).
  { rewrite Hshape. now apply components_join. }
  rewrite Hc'. change ("/" ++ join_sep names) with (String sep (join_sep names)).
  rewrite <- Hshape, String.eqb_refl. reflexivity.
Qed.

End CanonicalRoot.

(** C9 (as amended).  For a relative path [p] that does not end in a slash
    and is not the backslash alias of the root, listing [p] and listing
    [p/] raise the same error or return the same folder name, the same
    subfolders and the same files, names and paths alike; for [p = "."]
    this holds when the configured root is written in canonical form. *)
Theorem trailing_slash_same_listing
        (E : env) (self : FileSystem) (p : string)
        (scan_limit : option Z) (snapshot_id : option string)
        (Hend : endswith_sep p = false)
        (Hbackslash : p <> "\")
        (Hdot : p = "." -> canonical_root E self) :
  match folder_contents E self p scan_limit snapshot_id,
        folder_contents E self (p ++ "/") scan_limit snapshot_id with
  | Ok c1, Ok c2 =>
      FolderItem.name (FolderContents.folder c1) = FolderItem.name (FolderContents.folder c2)
      /\ FolderContents.subfolders c1 = FolderContents.subfolders c2
      /\ FolderContents.files c1 = FolderContents.files c2
  | Raise e1, Raise e2 => e1 = e2
  | _, _ => False
  end.
Proof.
  destruct (String.eqb_spec p "") as [->|Hp].
  - change (folder_contents E self ("" ++ "/") scan_limit snapshot_id)
      with (folder_contents E self "" scan_limit snapshot_id).
    destruct (folder_contents E self "" scan_limit snapshot_id); auto.
  - assert (Hslash : p <> "/") by (intros ->; discriminate).
    assert (Halias : is_root_alias p = false).
    { unfold is_root_alias. apply String.eqb_neq in Hp, Hslash, Hbackslash.
      now rewrite Hp, Hslash, Hbackslash. }
    assert (Hbuild : _build_path E self (p ++ "/") = _build_path E self p).
    { destruct (String.eqb_spec p ".") as [->|Hnd].
      - simpl append. now rewrite (@build_path_dot_slash E self (Hdot eq_refl)).
      - now apply build_path_trailing. }
    pose proof (@resolve_trailing E self p snapshot_id Halias Hend Hbuild) as Hres.
    destruct (snoc_not_special Hp) as (_ & H2 & _ & H4).
    unfold folder_contents. rewrite H2, H4. simpl orb. cbv iota.
    apply String.eqb_neq in Hslash, Hbackslash. rewrite Hslash, Hbackslash.
    simpl orb. cbv iota. rewrite Hres, endswith_sep_snoc, Hend.
    rewrite (@basename_dirname_trailing p Hend).
    destruct (_resolve_full_path E self p snapshot_id) as [folder_path|e];
      simpl bind; [|reflexivity].
    destruct (os.isdir (world E) folder_path); simpl; [|reflexivity].
    destruct (os.scandir (world E) folder_path) as [entries|e]; simpl; [|reflexivity].
    rewrite (@scan_loop_ext E self (p ++ "/") p snapshot_id _ entries []
               (fun name => @child_path_trailing p name Hp Hend)).
    destruct (scan_loop E self p snapshot_id _ entries []) as [items|e]; simpl;
      [|reflexivity].
    rewrite !load_contents_spec. simpl. auto.
Qed.

Lemma trailing_slash_same_listing_witness :
  match folder_contents Sample.without_hachoir Sample.fs "docs" None None,
        folder_contents Sample.without_hachoir Sample.fs "docs/" None None with
  | Ok c1, Ok c2 =>
      FolderItem.name (FolderContents.folder c1) = FolderItem.name (FolderContents.folder c2)
      /\ FolderContents.subfolders c1 = FolderContents.subfolders c2
      /\ FolderContents.files c1 = FolderContents.files c2
  | Raise e1, Raise e2 => e1 = e2
  | _, _ => False
  end
  /\ match folder_contents Sample.without_hachoir Sample.fs "." None (Some "weird_name"),
           folder_contents Sample.without_hachoir Sample.fs "./" None (Some "weird_name") with
     | Ok c1, Ok c2 =>
         FolderItem.name (FolderContents.folder c1)
         = FolderItem.name (FolderContents.folder c2)
         /\ FolderContents.subfolders c1 = FolderContents.subfolders c2
         /\ FolderContents.files c1 = FolderContents.files c2
     | Raise e1, Raise e2 => e1 = e2
     | _, _ => False
     end.
Proof.
  split.
  - exact (@trailing_slash_same_listing Sample.without_hachoir Sample.fs "docs" None None
             eq_refl ltac:(discriminate) ltac:(discriminate)).
  - exact (@trailing_slash_same_listing Sample.without_hachoir Sample.fs "." None
             (Some "weird_name") eq_refl ltac:(discriminate)
             (fun _ => conj eq_refl eq_refl)).
Defined.

(** C9, as first stated, fails for the backslash: alone it is an alias of
    the root, followed by a slash it names a child called backslash.  It
    also fails for ["."] under a root that is not written in canonical form:
    alone it yields the root as configured, followed by a slash the
    canonical root. *)
Lemma backslash_alias_breaks_trailing_slash :
  (endswith_sep "\" = false
   /\ (exists c, folder_contents Sample.without_hachoir Sample.fs "\" None None = Ok c
                 /\ FolderItem.name (FolderContents.folder c) = ""
                 /\ map FileItem.name (FolderContents.files c) = ["README.md"; "big.bin"])
   /\ folder_contents Sample.without_hachoir Sample.fs "\/" None None
      = Raise (ValueError "Path /srv/data/\ is not found."))
  /\ (folder_contents Sample.without_hachoir Sample.fs_detour_root "." None None
      = Raise (ValueError "Path /srv/ghost/../data is not found.")
      /\ exists c, folder_contents Sample.without_hachoir Sample.fs_detour_root "./" None None
                   = Ok c
                   /\ map FileItem.name (FolderContents.files c) = ["README.md"; "big.bin"]).
Proof.
  split.
  - split; [reflexivity|]. split; [|reflexivity]. eexists. repeat split.
  - split; [reflexivity|]. eexists. repeat split.
Qed.

(** ** Normal forms and the directory tree *)

Lemma walk_app (up : list os.node) (cur : os.node) (l1 l2 : list string) :
  os.walk up cur (l1 ++ l2)%list
  = match os.walk up cur l1 with
    | Some (up', cur') => os.walk up' cur' l2
    | None => None
    end.
Proof.
  revert up cur. induction l1 as [|c l1 IH]; intros up cur; simpl; [reflexivity|].
  destruct cur as [content|sz children]; [reflexivity|].
  destruct (String.eqb c "" || String.eqb c "."); [apply IH|].
  destruct (String.eqb c "..").
  - destruct up; apply IH.
  - destruct (os.child c children); [apply IH|reflexivity].
Qed.

(** An empty component before further components changes nothing. *)
Lemma walk_skip_empty (up : list os.node) (cur : os.node) (l : list string) :
  l <> [] -> os.walk up cur ("" :: l) = os.walk up cur l.
Proof.
  intros Hl. simpl. destruct cur as [content|sz children]; [|reflexivity].
  destruct l; [contradiction|reflexivity].
Qed.

Lemma walk_in_dir (up : list os.node) (cur : os.node) (l : list string)
      (r : list os.node * os.node) :
  l <> [] -> os.walk up cur l = Some r -> os.is_dir_node cur = true.
Proof.
  destruct l; [contradiction|]. intros _. simpl.
  destruct cur; [discriminate|reflexivity].
Qed.

Lemma walk_skipped (up : list os.node) (cur : os.node) (l : list string) :
  os.is_dir_node cur = true ->
  Forall (fun c => String.eqb c "" || String.eqb c "." = true) l ->
  os.walk up cur l = Some (up, cur).
Proof.
  intros Hdir. induction 1 as [|c l Hc _ IH]; [reflexivity|].
  simpl. destruct cur; [discriminate|]. now rewrite Hc.
Qed.

Lemma proper_name_tests (c : string) :
  is_proper_name c = true ->
  String.eqb c "" || String.eqb c "." = false /\ String.eqb c ".." = false.
Proof.
  unfold is_proper_name, is_name. intros H.
  apply andb_prop in H as [H Hdd]. apply andb_prop in H as [_ H].
  apply andb_prop in H as [He Hd].
  apply negb_true_iff in He, Hd, Hdd. now rewrite He, Hd.
Qed.

(** Walking down proper names: the last step entered a child. *)
Lemma walk_names_last (root : os.node) (acc : list string) (n : string)
      (up : list os.node) (cur : os.node) :
  is_proper_name n = true ->
  os.walk [] root (acc ++ [n])%list = Some (up, cur) ->
  exists parent up', up = parent :: up' /\ os.walk [] root acc = Some (up', parent).
Proof.
  intros Hn. rewrite walk_app.
  destruct (os.walk [] root acc) as [[up' parent]|]; [|discriminate].
  simpl. destruct parent as [content|sz children]; [discriminate|].
  destruct (proper_name_tests _ Hn) as [H1 H2]. rewrite H1, H2.
  destruct (os.child n children); [|discriminate].
  intros H. injection H as <- <-. now eexists _, _.
Qed.

Lemma list_last_cases {A : Type} (l : list A) :
  l = [] \/ exists l' a, l = (l' ++ [a])%list.
Proof.
  induction l as [|x l IH] using rev_ind; [now left|right]. now exists l, x.
Qed.

(** The loop of [normpath] follows the walk: where the components lead,
    the names kept so far lead too. *)
Lemma walk_norm_fold (i : nat) (root : os.node) (comps : list string) :
  i <> 0 -> Forall (fun c => no_sep c = true) comps ->
  forall (acc : list string) (up : list os.node) (cur : os.node)
         (r : list os.node * os.node),
    Forall (fun c => is_proper_name c = true) acc ->
    os.walk [] root acc = Some (up, cur) ->
    os.walk up cur comps = Some r ->
    os.walk [] root (fold_left (posixpath.norm_step i) comps acc) = Some r.
Proof.
  intros Hi. induction 1 as [|c comps Hc _ IH]; intros acc up cur r Hacc Hwalk Hr.
  - simpl in *. congruence.
  - simpl in Hr. destruct cur as [content|sz children]; [discriminate|].
    simpl fold_left. unfold posixpath.norm_step at 2.
    destruct (String.eqb c "" || String.eqb c ".") eqn:Hskip.
    + now apply (IH acc up (os.Dir sz children)).
    + destruct (String.eqb c "..") eqn:Hdd; simpl negb.
      * rewrite (last_proper Hacc). destruct i; [contradiction|]. simpl orb. cbv iota.
        destruct (list_last_cases acc) as [->|(acc' & n & ->)].
        -- simpl in Hwalk. injection Hwalk as Hup Hroot. subst up.
           apply (IH [] [] root); auto. now rewrite Hroot.
        -- rewrite removelast_last.
           apply Forall_app in Hacc as [Hacc' Hn]. apply Forall_inv in Hn.
           destruct (@walk_names_last root acc' n _ _ Hn Hwalk) as (parent & up' & -> & Hw').
           now apply (IH acc' up' parent).
      * simpl orb. cbv iota.
        destruct (os.child c children) as [nd|] eqn:Hchild; [|discriminate].
        apply (IH (acc ++ [c])%list (os.Dir sz children :: up) nd); auto.
        -- apply Forall_app. split; [exact Hacc|]. constructor; [|constructor].
           apply orb_false_iff in Hskip as [He Hd].
           unfold is_proper_name, is_name. now rewrite Hc, He, Hd, Hdd.
        -- rewrite walk_app, Hwalk. simpl. now rewrite Hskip, Hdd, Hchild.
Qed.

Lemma names_no_sep (names : list string) :
  Forall (fun c => is_proper_name c = true) names ->
  Forall (fun c => no_sep c = true) names.
Proof.
  intros H. eapply Forall_impl; [|exact H].
  intros a Ha. now apply is_name_no_sep, is_proper_name_is_name.
Qed.

(** Where an absolute path leads, its normal form leads too. *)
Lemma walk_normpath (root : os.node) (z : string) (r : list os.node * os.node) :
  posixpath.isabs z = true ->
  os.walk [] root (split_sep z) = Some r ->
  os.walk [] root (split_sep (posixpath.normpath z)) = Some r.
Proof.
  intros Hz Hr.
  assert (Hdir : os.is_dir_node root = true).
  { eapply walk_in_dir; [apply split_sep_not_nil|exact Hr]. }
  destruct (normpath_abs z Hz) as (i & names & Hi & Hnames & Hfold & -> & Hi').
  assert (Hw : os.walk [] root names = Some r).
  { rewrite Hfold. apply (@walk_norm_fold (posixpath.initial_slashes z) root (split_sep z))
      with (acc := []) (up := []) (cur := root); auto.
    - rewrite <- Hi'. destruct Hi as [-> | ->]; discriminate.
    - apply split_sep_no_sep. }
  destruct names as [|x names].
  - simpl in Hw. injection Hw as <-.
    destruct Hi as [-> | ->]; apply walk_skipped; auto; repeat constructor.
  - assert (Hsplit : split_sep (join_sep (x :: names)) = x :: names).
    { apply split_join_sep, names_no_sep, Hnames. }
    destruct Hi as [-> | ->]; simpl posixpath.slashes.
    + change (split_sep ("/" ++ join_sep (x :: names)))
        with ("" :: split_sep (join_sep (x :: names))).
      rewrite Hsplit, walk_skip_empty; [exact Hw|discriminate].
    + change (split_sep ("//" ++ join_sep (x :: names)))
        with ("" :: "" :: split_sep (join_sep (x :: names))).
      rewrite Hsplit, !walk_skip_empty; [exact Hw|discriminate|discriminate].
Qed.

Section Physical.
Variable w : os.world.

Let cwd := os.getcwd w.

Lemma absolute_isabs (y : string) : posixpath.isabs (os.absolute w y) = true.
Proof.
  unfold os.absolute. destruct (posixpath.isabs y) eqn:Hy; [exact Hy|].
  apply isabs_join, os.getcwd_isabs.
Qed.

Lemma isabs_nonempty (y : string) : posixpath.isabs y = true -> y <> "".
Proof. intros H ->. discriminate. Qed.

Lemma resolve_absolute (y : string) :
  posixpath.isabs y = true ->
  os.resolve w y = os.walk [] (os.root w) (split_sep y).
Proof.
  intros Hy. unfold os.resolve, os.absolute. rewrite Hy.
  destruct (String.eqb_spec y "") as [->|_]; [discriminate|reflexivity].
Qed.

(** Where a path leads, its canonical form leads too. *)
Lemma resolve_abspath (y : string) (r : list os.node * os.node) :
  os.resolve w y = Some r -> os.resolve w (posixpath.abspath cwd y) = Some r.
Proof.
  unfold os.resolve at 1.
  destruct (String.eqb y ""); [discriminate|]. intros Hr.
  change (posixpath.abspath cwd y) with (posixpath.normpath (os.absolute w y)).
  rewrite resolve_absolute by apply normpath_isabs, absolute_isabs.
  apply walk_normpath; [apply absolute_isabs|exact Hr].
Qed.

Lemma endswith_sep_inv (a : string) :
  endswith_sep a = true -> exists a0, a = a0 ++ "/".
Proof.
  induction a as [|c a IH]; [discriminate|]. simpl.
  destruct a as [|d a].
  - intros H. apply Ascii.eqb_eq in H. subst c. now exists "".
  - intros H. destruct (IH H) as [a0 Ha0]. exists (String c a0). simpl. now rewrite <- Ha0.
Qed.

Lemma join_relative (a b : string) :
  posixpath.isabs b = false ->
  posixpath.join a b
  = if String.eqb a "" || endswith_sep a then a ++ b else a ++ "/" ++ b.
Proof. unfold posixpath.join, posixpath.isabs. now intros ->. Qed.

Lemma absolute_join (a b : string) :
  a <> "" -> posixpath.isabs b = false ->
  os.absolute w (posixpath.join a b) = posixpath.join (os.absolute w a) b
  /\ endswith_sep (os.absolute w a) = endswith_sep a.
Proof.
  intros Ha Hb. unfold os.absolute.
  assert (Hab : posixpath.isabs (posixpath.join a b) = posixpath.isabs a).
  { rewrite join_relative by assumption.
    destruct (_ || _); rewrite isabs_app_l; auto. }
  rewrite Hab. destruct (posixpath.isabs a) eqn:Habs; [auto|].
  split; [|now apply join_endswith].
  rewrite (@join_relative a b Hb), (@join_relative (posixpath.join (os.getcwd w) a) b Hb).
  rewrite join_endswith by assumption.
  apply String.eqb_neq in Ha. rewrite Ha. simpl orb.
  assert (Hj : String.eqb (posixpath.join (os.getcwd w) a) "" = false).
  { apply String.eqb_neq, join_nonempty. now apply String.eqb_neq. }
  rewrite Hj. simpl orb.
  assert (Hc : os.getcwd w <> "") by apply isabs_nonempty, os.getcwd_isabs.
  apply String.eqb_neq in Hc.
  destruct (endswith_sep a).
  - rewrite (@join_relative (os.getcwd w) (a ++ b)), (@join_relative (os.getcwd w) a);
      [|assumption|now rewrite isabs_app_l by now apply String.eqb_neq].
    rewrite Hc. simpl orb. destruct (endswith_sep (os.getcwd w));
      now rewrite ?append_assoc.
  - rewrite (@join_relative (os.getcwd w) (a ++ "/" ++ b)), (@join_relative (os.getcwd w) a);
      [|assumption|now rewrite isabs_app_l by now apply String.eqb_neq].
    rewrite Hc. simpl orb. destruct (endswith_sep (os.getcwd w));
      now rewrite ?append_assoc.
Qed.

(** Walking a joined path is walking its head, then its tail. *)
Lemma walk_join (up : list os.node) (cur : os.node) (a b : string) :
  a <> "" -> posixpath.isabs b = false ->
  os.walk up cur (split_sep (posixpath.join a b))
  = match os.walk up cur (split_sep a) with
    | Some (up', cur') => os.walk up' cur' (split_sep b)
    | None => None
    end.
Proof.
  intros Ha Hb. rewrite join_relative by assumption.
  apply String.eqb_neq in Ha. rewrite Ha. simpl orb.
  destruct (endswith_sep a) eqn:Hend.
  - destruct (@endswith_sep_inv a Hend) as [a0 ->].
    rewrite append_assoc. change ("/" ++ b) with (String sep b).
    change (a0 ++ "/") with (a0 ++ String sep "").
    rewrite !split_sep_app, !walk_app.
    destruct (os.walk up cur (split_sep a0)) as [[up' cur']|]; [|reflexivity].
    simpl (split_sep ""). simpl (os.walk up' cur' [""]).
    destruct cur' as [content|sz children]; [|reflexivity].
    destruct (split_sep b) eqn:Hs; [now destruct (split_sep_not_nil b)|reflexivity].
  - change (a ++ "/" ++ b) with (a ++ String sep b).
    now rewrite split_sep_app, walk_app.
Qed.

Lemma resolve_join (a b : string) :
  a <> "" -> posixpath.isabs b = false ->
  os.resolve w (posixpath.join a b)
  = match os.resolve w a with
    | Some (up, cur) => os.walk up cur (split_sep b)
    | None => None
    end.
Proof.
  intros Ha Hb. unfold os.resolve.
  destruct (@absolute_join a b Ha Hb) as [Habs _]. rewrite Habs.
  assert (Hj : posixpath.join a b <> "").
  { rewrite join_relative by assumption.
    destruct (_ || _); intros H; apply append_eq_nil in H as [H _]; contradiction. }
  apply String.eqb_neq in Hj, Ha. rewrite Hj, Ha.
  apply walk_join; [|assumption].
  apply isabs_nonempty, absolute_isabs.
Qed.


End Physical.

(** ** Reading a file of a snapshot *)

Section SnapshotRead.
Variable E : env.
Variable self : FileSystem.

Let cwd := os.getcwd (world E).
Let root := Config.file_system_path (config self).









End SnapshotRead.



(** * Further properties *)

(** ** What a resolved path is *)

Section ResolvedPaths.
Variable E : env.
Variable self : FileSystem.

Lemma resolve_full_path_inv (relative_path : string) (snapshot_id : option string)
      (p : string) :
  _resolve_full_path E self relative_path snapshot_id = Ok p ->
  os.path_exists (world E) p = true
  /\ exists live,
       _build_path E self (normalize_relative relative_path) = Ok live
       /\ _check_path_is_in_excluded_folder self live = false
       /\ match (if truthy_str snapshot_id then snapshot_id else None) with
          | Some sid =>
              _build_snapshot_path E self sid (normalize_relative relative_path) = Ok p
          | None => p = live
          end.
Proof.
  unfold _resolve_full_path, _ensure_path_allowed, _require_path_is_in_excluded_folder.
  fold (normalize_relative relative_path).
  destruct (_build_path E self (normalize_relative relative_path)) as [live|e];
    cbn [bind].
  - destruct (_check_path_is_in_excluded_folder self live) eqn:Hx; cbn [bind raise_if].
    + destruct (if truthy_str snapshot_id then snapshot_id else None);
        cbn [bind]; discriminate.
    + destruct (if truthy_str snapshot_id then snapshot_id else None) as [sid|];
        cbn [bind].
      * destruct (_build_snapshot_path E self sid _) as [q|e]; cbn [bind]; [|discriminate].
        destruct (os.path_exists (world E) q) eqn:Hq; cbn [bind raise_if negb];
          [|discriminate].
        intros H. injection H as <-. split; [exact Hq|]. now exists live.
      * destruct (os.path_exists (world E) live) eqn:Hq; cbn [bind raise_if negb];
          [|discriminate].
        intros H. injection H as <-. split; [exact Hq|]. now exists live.
  - destruct (if truthy_str snapshot_id then snapshot_id else None);
      cbn [bind]; discriminate.
Qed.

(** X1.  A path [_resolve_full_path] returns exists; without a snapshot id
    it is under no excluded prefix; with one, the live path of the same
    request is under no excluded prefix. *)
Theorem resolved_path_exists_and_is_allowed
        (relative_path : string) (snapshot_id : option string) (p : string)
        (Hresolved : _resolve_full_path E self relative_path snapshot_id = Ok p) :
  os.path_exists (world E) p = true
  /\ (truthy_str snapshot_id = false -> _check_path_is_in_excluded_folder self p = false)
  /\ exists live,
       _build_path E self (normalize_relative relative_path) = Ok live
       /\ _check_path_is_in_excluded_folder self live = false.
Proof.
  destruct (resolve_full_path_inv _ _ Hresolved) as (Hex & live & Hlive & Hx & Hmode).
  split; [exact Hex|]. split; [|now exists live].
  intros Hs. rewrite Hs in Hmode. now subst p.
Qed.

Lemma resolve_full_path_value_error (relative_path : string)
      (snapshot_id : option string) (e : exn) :
  _resolve_full_path E self relative_path snapshot_id = Raise e -> is_value_error e.
Proof.
  unfold _resolve_full_path. fold (normalize_relative relative_path).
  pose proof (ensure_path_allowed_cases E self (normalize_relative relative_path)) as Ha.
  unfold _ensure_path_allowed in Ha.
  destruct (if truthy_str snapshot_id then snapshot_id else None) as [sid|].
  - unfold _ensure_path_allowed.
    destruct (bind (_build_path E self _) _) as [[]|e0]; cbn [bind].
    + rewrite build_snapshot_path_unfold.
      destruct (snapshot_base E self sid) as [base|e1] eqn:Hbase; cbn [bind].
      * pose proof (build_snapshot_path_cases E self sid (normalize_relative relative_path)
                      Hbase) as Hs.
        rewrite build_snapshot_path_unfold, Hbase in Hs. cbn [bind] in Hs.
        destruct (if is_root_alias _ then _ else _) as [q|e2]; cbn [bind].
        -- destruct (os.path_exists (world E) q); cbn [bind raise_if negb];
             intros H; [discriminate|]. injection H as <-. now eexists.
        -- intros H. injection H as <-. subst e2. now eexists.
      * intros H. injection H as <-. unfold snapshot_base in Hbase.
        pose proof (get_snapshot_root_cases E self) as Hr.
        destruct (_get_snapshot_root E self) as [r|e2]; cbn [bind] in Hbase.
        -- destruct (os.isdir (world E) _); cbn [bind raise_if negb] in Hbase;
             [discriminate|]. injection Hbase as <-. now eexists.
        -- injection Hbase as <-. exact Hr.
    + intros H. injection H as <-. exact Ha.
  - pose proof (build_path_cases E self (normalize_relative relative_path)) as Hb.
    destruct (_build_path E self _) as [r|e0]; cbn [bind].
    + unfold _require_path_is_in_excluded_folder.
      destruct (_check_path_is_in_excluded_folder self r); cbn [bind raise_if].
      * intros H. injection H as <-. now eexists.
      * destruct (os.path_exists (world E) r); cbn [bind raise_if negb];
          intros H; [discriminate|]. injection H as <-. now eexists.
    + intros H. injection H as <-. subst e0. now eexists.
Qed.

End ResolvedPaths.

Lemma resolved_path_exists_and_is_allowed_witness :
  os.path_exists Sample.machine "/srv/data/.snapshot/weird_name/README.md" = true.
Proof.
  exact (proj1 (@resolved_path_exists_and_is_allowed Sample.without_hachoir Sample.fs
                  "README.md" (Some "weird_name") _ eq_refl)).
Defined.

(** ** Exclusion by prefix *)

Lemma startswith_extend (p x s : string) :
  startswith p x = true -> startswith (p ++ s) x = true.
Proof.
  revert p. induction x as [|a x IH]; intros p; [reflexivity|].
  destruct p as [|b p]; simpl; [discriminate|].
  destruct (Ascii.eqb a b); simpl; [apply IH|discriminate].
Qed.

(** X2.  The exclusion test is a test on text: whatever extends an excluded
    path is excluded too, be it a descendant or a sibling whose name merely
    goes on where the excluded prefix ends; with no excluded folder
    configured nothing is excluded. *)
Theorem exclusion_is_closed_under_extension (self : FileSystem) (path : string) :
  (_check_path_is_in_excluded_folder self path = true ->
   forall suffix, _check_path_is_in_excluded_folder self (path ++ suffix) = true)
  /\ (Config.exclude_folders (config self) = [] ->
      _check_path_is_in_excluded_folder self path = false).
Proof.
  unfold _check_path_is_in_excluded_folder. split.
  - intros H suffix. apply existsb_exists in H as (x & Hin & Hx).
    apply existsb_exists. exists x. split; [exact Hin|]. now apply startswith_extend.
  - intros ->. reflexivity.
Qed.

Lemma exclusion_is_closed_under_extension_witness :
  _check_path_is_in_excluded_folder Sample.fs ("/srv/data/secret" ++ "s-of-state/x") = true.
Proof.
  exact (proj1 (exclusion_is_closed_under_extension Sample.fs "/srv/data/secret")
           eq_refl "s-of-state/x").
Defined.

(** ** More on folder listings *)

Section ListingFacts.
Variable E : env.
Variable self : FileSystem.

Lemma scan_entry_value_error (rel : string) (snapshot_id : option string)
      (entry : os.DirEntry) (e : exn) :
  scan_entry E self rel snapshot_id entry = Raise e -> is_value_error e.
Proof.
  unfold scan_entry. destruct (_ && _); [discriminate|].
  destruct (os.is_dir entry); [|discriminate].
  pose proof (build_path_cases E self (child_path rel (os.name entry))) as H.
  destruct (_build_path E self _) as [p|e0]; cbn [bind].
  - destruct (_check_path_is_in_excluded_folder self p); discriminate.
  - intros H0. injection H0 as <-. subst e0. now eexists.
Qed.

Lemma scan_loop_value_error (rel : string) (snapshot_id : option string)
      (limit : option Z) (entries : list os.DirEntry) (items : list FileSystemItem)
      (e : exn) :
  scan_loop E self rel snapshot_id limit entries items = Raise e -> is_value_error e.
Proof.
  revert items. induction entries as [|entry rest IH]; intros items; simpl;
    [discriminate|].
  destruct (scan_entry E self rel snapshot_id entry) as [[item|]|e0] eqn:Hentry;
    cbn [bind].
  - destruct (limit_reached limit _); [discriminate|apply IH].
  - apply IH.
  - intros H. injection H as <-. eapply scan_entry_value_error. exact Hentry.
Qed.

(** X3.  Whatever [folder_contents] raises is a [ValueError]: no error of
    the operating system, of an index or of the interpreter escapes it. *)
Theorem folder_contents_raises_only_value_errors
        (relative_path : string) (scan_limit : option Z) (snapshot_id : option string)
        (e : exn)
        (Hraise : folder_contents E self relative_path scan_limit snapshot_id = Raise e) :
  is_value_error e.
Proof.
  unfold folder_contents in Hraise.
  destruct (_resolve_full_path E self _ snapshot_id) as [folder_path|e0] eqn:Hres;
    cbn [bind] in Hraise.
  - destruct (os.isdir (world E) folder_path) eqn:Hdir; cbn [bind raise_if negb] in Hraise.
    + destruct (scandir_of_dir E _ Hdir) as [entries Hscan]. rewrite Hscan in Hraise.
      cbn [bind] in Hraise.
      destruct (scan_loop E self _ snapshot_id _ entries []) as [items|e1] eqn:Hloop;
        cbn [bind] in Hraise; [discriminate|].
      injection Hraise as <-. eapply scan_loop_value_error. exact Hloop.
    + injection Hraise as <-. now eexists.
  - injection Hraise as <-. eapply resolve_full_path_value_error. exact Hres.
Qed.

Lemma scan_entry_folder_allowed (rel : string) (snapshot_id : option string)
      (entry : os.DirEntry) (f : FolderItem.t) :
  scan_entry E self rel snapshot_id entry = Ok (Some (IsFolder f)) ->
  exists p, _build_path E self (FolderItem.path f) = Ok p
            /\ _check_path_is_in_excluded_folder self p = false.
Proof.
  unfold scan_entry. destruct (_ && _); [discriminate|].
  destruct (os.is_dir entry); [|discriminate].
  destruct (_build_path E self _) as [p|e0] eqn:Hp; cbn [bind]; [|discriminate].
  destruct (_check_path_is_in_excluded_folder self p) eqn:Hx; [discriminate|].
  intros H. injection H as <-. simpl. now exists p.
Qed.

Lemma scan_entry_file_inv (rel : string) (snapshot_id : option string)
      (entry : os.DirEntry) (f : FileItem.t) :
  scan_entry E self rel snapshot_id entry = Ok (Some (IsFile f)) ->
  os.is_dir entry = false
  /\ f = flag_too_large self
           (FileItem.make (os.name entry) (child_path rel (os.name entry))
                          (os.st_size entry)).
Proof.
  destruct (os.is_dir entry) eqn:Hdir.
  - unfold scan_entry. rewrite Hdir. destruct (_ && _); [discriminate|].
    destruct (_build_path E self _) as [p|e0]; cbn [bind]; [|discriminate].
    destruct (_check_path_is_in_excluded_folder self p); discriminate.
  - rewrite (scan_entry_file E self rel snapshot_id entry Hdir).
    intros H. now injection H as <-.
Qed.

Lemma flag_too_large_fields (f : FileItem.t) :
  FileItem.name (flag_too_large self f) = FileItem.name f
  /\ FileItem.path (flag_too_large self f) = FileItem.path f
  /\ FileItem.size (flag_too_large self f) = FileItem.size f.
Proof.
  unfold flag_too_large, FileItem.define_if_is_too_large.
  destruct (Config.max_return_file_size (config self)) as [limit|]; [|auto].
  destruct (negb (Z.eqb limit 0)); [|auto].
  destruct (_ >? _)%Z; auto.
Qed.

(** X4.  A listing invents nothing: every listed subfolder is a directory
    entry of the listed folder and every listed file a non-directory entry,
    under the entry's name, with the path of the folder extended by that
    name and, for a file, the entry's size; and the path of every listed
    subfolder resolves, against the live root, under no excluded prefix. *)
Theorem listed_children_are_directory_entries
        (relative_path : string) (scan_limit : option Z) (snapshot_id : option string)
        (c : FolderContents.t)
        (Hc : folder_contents E self relative_path scan_limit snapshot_id = Ok c) :
  exists folder_path entries,
    _resolve_full_path E self (listing_path relative_path) snapshot_id = Ok folder_path
    /\ os.scandir (world E) folder_path = Ok entries
    /\ (forall f, In f (FolderContents.subfolders c) ->
          (exists entry, In entry entries /\ os.is_dir entry = true
                         /\ FolderItem.name f = os.name entry
                         /\ FolderItem.path f
                            = child_path (listing_path relative_path) (os.name entry))
          /\ exists p, _build_path E self (FolderItem.path f) = Ok p
                       /\ _check_path_is_in_excluded_folder self p = false)
    /\ (forall f, In f (FolderContents.files c) ->
          exists entry, In entry entries /\ os.is_dir entry = false
                        /\ FileItem.name f = os.name entry
                        /\ FileItem.path f
                           = child_path (listing_path relative_path) (os.name entry)
                        /\ FileItem.size f = os.st_size entry).
Proof.
  destruct (listing_items E self _ _ _ Hc)
    as (folder_path & entries & items & Hres & Hscan & Hsf & Hfl & Hincl & _).
  exists folder_path, entries. repeat (split; [assumption|]). split.
  - intros f Hf. rewrite Hsf in Hf. apply folders_of_in in Hf. apply Hincl in Hf.
    apply kept_items_in in Hf as (entry & Hin & Hentry). split.
    + exists entry. split; [exact Hin|].
      apply scan_entry_folder in Hentry as (Hdir & Hname & Hpath & _). auto.
    + eapply scan_entry_folder_allowed. exact Hentry.
  - intros f Hf. rewrite Hfl in Hf. apply files_of_in in Hf. apply Hincl in Hf.
    apply kept_items_in in Hf as (entry & Hin & Hentry).
    apply scan_entry_file_inv in Hentry as (Hdir & ->).
    exists entry. split; [exact Hin|]. split; [exact Hdir|].
    destruct (flag_too_large_fields
                (FileItem.make (os.name entry)
                   (child_path (listing_path relative_path) (os.name entry))
                   (os.st_size entry))) as (H1 & H2 & H3).
    rewrite H1, H2, H3. auto.
Qed.

(** X5.  In a listing a file is flagged as too large exactly when a return
    limit other than 0 is configured and the size of the file is above it. *)
Theorem listed_file_flag
        (relative_path : string) (scan_limit : option Z) (snapshot_id : option string)
        (c : FolderContents.t) (f : FileItem.t)
        (Hc : folder_contents E self relative_path scan_limit snapshot_id = Ok c)
        (Hf : In f (FolderContents.files c)) :
  FileItem.is_too_large f = true
  <-> exists limit, Config.max_return_file_size (config self) = Some limit
                    /\ limit <> 0%Z /\ (FileItem.size f > limit)%Z.
Proof.
  destruct (listing_items E self _ _ _ Hc)
    as (folder_path & entries & items & _ & _ & _ & Hfl & Hincl & _).
  rewrite Hfl in Hf. apply files_of_in in Hf. apply Hincl in Hf.
  apply kept_items_in in Hf as (entry & _ & Hentry).
  apply scan_entry_file_inv in Hentry as (_ & ->).
  unfold flag_too_large, FileItem.define_if_is_too_large, FileItem.make.
  destruct (Config.max_return_file_size (config self)) as [limit|]; simpl.
  - destruct (Z.eqb_spec limit 0) as [->|Hne]; simpl.
    + split; [discriminate|]. intros (l & Hl & Hne & _). injection Hl as <-. contradiction.
    + destruct (Z.gtb_spec (os.st_size entry) limit) as [Hgt|Hle]; simpl.
      * split; [|reflexivity]. intros _. exists limit. repeat split; auto. lia.
      * split; [discriminate|]. intros (l & Hl & _ & Hgt). injection Hl as <-. lia.
  - split; [discriminate|]. intros (l & Hl & _). discriminate.
Qed.

End ListingFacts.

Lemma folder_contents_raises_only_value_errors_witness :
  is_value_error (ValueError "Path is not a directory").
Proof.
  exact (@folder_contents_raises_only_value_errors Sample.without_hachoir Sample.fs
           "README.md" None None _ eq_refl).
Defined.

Lemma listed_children_are_directory_entries_witness :
  exists folder_path entries,
    _resolve_full_path Sample.without_hachoir Sample.fs (listing_path "docs") None
    = Ok folder_path
    /\ os.scandir Sample.machine folder_path = Ok entries.
Proof.
  destruct (@listed_children_are_directory_entries Sample.without_hachoir Sample.fs
              "docs" None None _ eq_refl)
    as (folder_path & entries & Hres & Hscan & _).
  now exists folder_path, entries.
Defined.

Lemma listed_file_flag_witness :
  true = true
  <-> exists limit, Some 5%Z = Some limit /\ limit <> 0%Z /\ (10 > limit)%Z.
Proof.
  exact (@listed_file_flag Sample.without_hachoir Sample.fs "" None None _
           {| FileItem.name := "big.bin"; FileItem.path := "big.bin";
              FileItem.size := 10; FileItem.is_too_large := true |}
           eq_refl (or_intror (or_introl eq_refl))).
Defined.

(** ** Reading *)

Section ReadingFacts.
Variable E : env.
Variable self : FileSystem.

Lemma resolved_path_has_a_size (path : string) (snapshot_id : option string)
      (full_path : string) :
  _resolve_full_path E self path snapshot_id = Ok full_path ->
  exists nd, os.lookup (world E) full_path = Some nd.
Proof.
  intros H. apply resolve_full_path_inv in H as (Hex & _).
  unfold os.path_exists in Hex.
  destruct (os.lookup (world E) full_path) as [nd|]; [now exists nd|discriminate].
Qed.


Lemma check_file_size_within (full_path : string) (kind : SizeLimitKind) (nd : os.node) :
  os.lookup (world E) full_path = Some nd ->
  (forall limit, selected_limit self kind = Some limit -> (os.node_size nd <= limit)%Z) ->
  _check_file_size_is_not_too_large E self full_path kind = Ok tt.
Proof.
  intros Hnd Hle. unfold _check_file_size_is_not_too_large, os.stat_size. rewrite Hnd.
  cbn [bind]. unfold selected_limit in Hle.
  destruct kind; try reflexivity.
  - destruct (Config.max_read_file_size (config self)) as [limit|]; [|reflexivity].
    specialize (Hle limit eq_refl).
    destruct (Z.gtb_spec (os.node_size nd) limit); [lia|reflexivity].
  - destruct (Config.max_return_file_size (config self)) as [limit|]; [|reflexivity].
    specialize (Hle limit eq_refl).
    destruct (Z.gtb_spec (os.node_size nd) limit); [lia|reflexivity].
Qed.

(** X6.  A file that resolves and whose size does not exceed the limit of
    the kind of the read, the limit itself included, is returned whole, as
    bytes and, decoded, as text; so is any file when that kind has no limit.
    A limit of 0 is a limit like any other here: it lets the empty file
    through. *)
Theorem file_within_limit_is_read_whole
        (path full_path : string) (kind : SizeLimitKind) (snapshot_id : option string)
        (content : list Byte.byte)
        (Hresolved : _resolve_full_path E self path snapshot_id = Ok full_path)
        (Hfile : os.lookup (world E) full_path = Some (os.File content))
        (Hwithin : forall limit, selected_limit self kind = Some limit ->
                                 (Z.of_nat (List.length content) <= limit)%Z) :
  get_file_content E self path kind snapshot_id = Ok content
  /\ get_file_content_as_string E self path kind snapshot_id
     = Ok (decode_replace E content).
Proof.
  pose proof (check_file_size_within full_path kind Hfile Hwithin) as Hcheck.
  unfold get_file_content, get_file_content_as_string.
  rewrite Hresolved. cbn [bind]. rewrite Hcheck. cbn [bind].
  unfold os.read_bytes. rewrite Hfile. now split.
Qed.

(** X7.  A read as text is the read as bytes followed by the decoding: it
    fails exactly when the read as bytes fails, with the same exception. *)
Theorem text_read_decodes_byte_read
        (path : string) (kind : SizeLimitKind) (snapshot_id : option string) :
  get_file_content_as_string E self path kind snapshot_id
  = (content <- get_file_content E self path kind snapshot_id ;;
     Ok (decode_replace E content)).
Proof.
  unfold get_file_content_as_string, get_file_content.
  destruct (_resolve_full_path E self path snapshot_id) as [full_path|e];
    cbn [bind]; [|reflexivity].
  destruct (_check_file_size_is_not_too_large E self full_path kind);
    cbn [bind]; [|reflexivity].
  destruct (os.read_bytes (world E) full_path); reflexivity.
Qed.


(** X9.  The two operations that want one kind of entry say so when they
    are given the other: listing a path that resolves to something that is
    not a directory raises "Path is not a directory", and, with the
    extractor present, asking for the metadata of a path that resolves to a
    directory raises "Path is a directory". *)
Theorem wrong_kind_of_entry
        (path full_path : string) (snapshot_id : option string)
        (Hresolved : _resolve_full_path E self path snapshot_id = Ok full_path) :
  (os.isdir (world E) full_path = false ->
   forall scan_limit,
     folder_contents E self path scan_limit snapshot_id
     = Raise (ValueError "Path is not a directory"))
  /\ (os.isdir (world E) full_path = true ->
      hachoir E <> None ->
      get_metadata E self path snapshot_id = Raise (ValueError "Path is a directory")).
Proof.
  split.
  - intros Hdir scan_limit. unfold folder_contents.
    assert (Hsame : _resolve_full_path E self
                      (if String.eqb path "/" || String.eqb path "\" then "" else path)
                      snapshot_id = Ok full_path).
    { destruct (String.eqb_spec path "/") as [->|H1]; [exact Hresolved|].
      destruct (String.eqb_spec path "\") as [->|H2]; exact Hresolved. }
    rewrite Hsame. cbn [bind]. rewrite Hdir. reflexivity.
  - intros Hdir Hh. unfold get_metadata.
    destruct (hachoir E) as [h|]; [|contradiction].
    rewrite Hresolved. cbn [bind].
    destruct (resolved_path_has_a_size _ _ Hresolved) as [nd Hnd].
    unfold os.stat_size. rewrite Hnd. cbn [bind]. rewrite Hdir. reflexivity.
Qed.

End ReadingFacts.

Lemma file_within_limit_is_read_whole_witness :
  get_file_content Sample.without_hachoir Sample.fs "README.md" RETURN None
  = Ok (Sample.bytes "hello")
  /\ get_file_content_as_string Sample.without_hachoir Sample.fs "README.md" RETURN None
     = Ok (decode_replace Sample.without_hachoir (Sample.bytes "hello")).
Proof.
  apply (@file_within_limit_is_read_whole Sample.without_hachoir Sample.fs
           "README.md" "/srv/data/README.md" RETURN None (Sample.bytes "hello")
           eq_refl eq_refl).
  intros limit H. injection H as <-. vm_compute. discriminate.
Defined.

Lemma wrong_kind_of_entry_witness :
  folder_contents Sample.without_hachoir Sample.fs "README.md" None None
  = Raise (ValueError "Path is not a directory")
  /\ get_metadata Sample.with_hachoir Sample.fs "docs" None
     = Raise (ValueError "Path is a directory").
Proof.
  split.
  - exact (proj1 (@wrong_kind_of_entry Sample.without_hachoir Sample.fs
                    "README.md" "/srv/data/README.md" None eq_refl) eq_refl None).
  - refine (proj2 (@wrong_kind_of_entry Sample.with_hachoir Sample.fs
                     "docs" "/srv/data/docs" None eq_refl) eq_refl _).
    discriminate.
Defined.

(** ** Snapshots *)

Section SnapshotFacts.
Variable E : env.
Variable self : FileSystem.

Lemma resolve_listing_path (path : string) (snapshot_id : option string) :
  _resolve_full_path E self (listing_path path) snapshot_id
  = _resolve_full_path E self path snapshot_id.
Proof.
  unfold listing_path.
  destruct (String.eqb_spec path "/") as [->|H1]; [reflexivity|].
  destruct (String.eqb_spec path "\") as [->|H2]; reflexivity.
Qed.

Lemma folder_contents_unresolved (path : string) (scan_limit : option Z)
      (snapshot_id : option string) (e : exn) :
  _resolve_full_path E self path snapshot_id = Raise e ->
  folder_contents E self path scan_limit snapshot_id = Raise e.
Proof.
  intros H. rewrite <- resolve_listing_path in H.
  unfold folder_contents. fold (listing_path path). now rewrite H.
Qed.

Lemma ensure_path_allowed_error (relative_path : string) (e : exn) :
  _ensure_path_allowed E self relative_path = Raise e -> AccessDenied e \/ NotFound e.
Proof.
  unfold _ensure_path_allowed.
  pose proof (build_path_cases E self relative_path) as H.
  destruct (_build_path E self relative_path) as [p|e0]; cbn [bind].
  - unfold _require_path_is_in_excluded_folder.
    destruct (_check_path_is_in_excluded_folder self p); cbn [raise_if]; [|discriminate].
    intros H0. injection H0 as <-. right. exists p. now left.
  - intros H0. injection H0 as <-. subst e0. left. now left.
Qed.

(** X10.  With no snapshot folder configured, or an empty one, a request
    that names a snapshot is never served: resolution raises, the listing
    and the two reads raise the same exception, and so does the metadata
    call when the extractor is present.  The exception says that snapshot
    support is disabled, unless the live path of the request is already
    refused, in which case it is that refusal. *)
Theorem snapshot_request_without_snapshot_support
        (path snapshot_id : string)
        (Hgiven : snapshot_id <> "")
        (Hoff : configured_snapshot_folder self = "") :
  exists e,
    _resolve_full_path E self path (Some snapshot_id) = Raise e
    /\ (e = ValueError "Snapshot support is disabled." \/ AccessDenied e \/ NotFound e)
    /\ (_ensure_path_allowed E self (normalize_relative path) = Ok tt ->
        e = ValueError "Snapshot support is disabled.")
    /\ (forall scan_limit,
          folder_contents E self path scan_limit (Some snapshot_id) = Raise e)
    /\ (forall kind, get_file_content E self path kind (Some snapshot_id) = Raise e)
    /\ (forall kind,
          get_file_content_as_string E self path kind (Some snapshot_id) = Raise e)
    /\ (hachoir E <> None -> get_metadata E self path (Some snapshot_id) = Raise e).
Proof.
  assert (Hroot : _get_snapshot_root E self
                  = Raise (ValueError "Snapshot support is disabled.")).
  { unfold configured_snapshot_folder in Hoff. unfold _get_snapshot_root.
    destruct (Config.snapshot_folder_name (config self)) as [folder_name|];
      [|reflexivity].
    subst folder_name. reflexivity. }
  assert (Hres : exists e,
    _resolve_full_path E self path (Some snapshot_id) = Raise e
    /\ (e = ValueError "Snapshot support is disabled." \/ AccessDenied e \/ NotFound e)
    /\ (_ensure_path_allowed E self (normalize_relative path) = Ok tt ->
        e = ValueError "Snapshot support is disabled.")).
  { unfold _resolve_full_path. fold (normalize_relative path).
    simpl truthy_str. apply String.eqb_neq in Hgiven. rewrite Hgiven. cbn [negb].
    destruct (_ensure_path_allowed E self (normalize_relative path)) as [[]|e0] eqn:Hens;
      cbn [bind].
    - unfold _build_snapshot_path. rewrite Hroot. cbn [bind].
      eexists. split; [reflexivity|]. split; [now left|reflexivity].
    - exists e0. split; [reflexivity|]. split; [|discriminate].
      right. now apply ensure_path_allowed_error in Hens. }
  destruct Hres as (e & Hres & Hkind & Hlive). exists e.
  split; [exact Hres|]. split; [exact Hkind|]. split; [exact Hlive|].
  split; [|split; [|split]].
  - intros scan_limit. now apply folder_contents_unresolved.
  - intros kind. unfold get_file_content. now rewrite Hres.
  - intros kind. unfold get_file_content_as_string. now rewrite Hres.
  - intros Hh. unfold get_metadata. destruct (hachoir E); [|contradiction].
    now rewrite Hres.
Qed.


Lemma summarize_flat_map (target_path : string) (entries : list os.DirEntry) :
  map SnapshotSummary.id (flat_map (summarize E target_path) entries)
  = map os.name (filter os.is_dir entries).
Proof.
  induction entries as [|entry rest IH]; [reflexivity|].
  simpl flat_map. rewrite map_app, IH. simpl filter. unfold summarize.
  destruct (os.is_dir entry); reflexivity.
Qed.

Lemma scandir_entry_path (dir : string) (entries : list os.DirEntry)
      (entry : os.DirEntry) :
  os.scandir (world E) dir = Ok entries -> In entry entries ->
  os.path entry = posixpath.join dir (os.name entry).
Proof.
  unfold os.scandir.
  destruct (os.lookup (world E) dir) as [[content|sz children]|]; try discriminate.
  intros H. injection H as <-. rewrite in_map_iff.
  intros ([n nd] & <- & _). reflexivity.
Qed.

(** X12.  With snapshots available and the live path of the query allowed,
    the snapshots listed are the directories of the snapshot root, each once
    per entry, and the files of the root are left out: the listed ids are a
    rearrangement of the names of the directory entries.  Each descriptor
    shows its id as display name, the timestamp parsed from the id, and
    whether the queried path exists below that snapshot, which for the root
    query is whether the snapshot directory itself exists. *)
Theorem snapshot_listing_describes_root_directories
        (path snapshot_root : string)
        (Hroot : _get_snapshot_root E self = Ok snapshot_root)
        (Hlive : _ensure_path_allowed E self (normalize_relative path) = Ok tt) :
  exists listing entries,
    list_snapshots E self path = Ok listing
    /\ os.scandir (world E) snapshot_root = Ok entries
    /\ Permutation (map SnapshotSummary.id (SnapshotList.snapshots listing))
                   (map os.name (filter os.is_dir entries))
    /\ forall s, In s (SnapshotList.snapshots listing) ->
         SnapshotSummary.display_name s = SnapshotSummary.id s
         /\ SnapshotSummary.timestamp s
            = _parse_snapshot_timestamp E (SnapshotSummary.id s)
         /\ SnapshotSummary.contains_path s
            = os.path_exists (world E)
                (if String.eqb (normalize_relative path) ""
                 then posixpath.join snapshot_root (SnapshotSummary.id s)
                 else posixpath.join
                        (posixpath.join snapshot_root (SnapshotSummary.id s))
                        (normalize_relative path)).
Proof.
  pose proof (get_snapshot_root_cases E self) as Hcases. rewrite Hroot in Hcases.
  destruct Hcases as (Hdir & folder_name & Hname & Hne & _).
  destruct (scandir_of_dir E _ Hdir) as [entries Hscan].
  unfold list_snapshots. fold (normalize_relative path).
  rewrite Hname. apply String.eqb_neq in Hne. rewrite Hne, Hroot, Hlive, Hscan.
  cbn [bind]. eexists. exists entries. split; [reflexivity|].
  split; [reflexivity|]. cbn [SnapshotList.snapshots]. split.
  - rewrite <- summarize_flat_map with (target_path := normalize_relative path).
    apply Permutation_map, Permutation_sym, sort_desc_perm.
  - intros s Hs.
    apply (Permutation_in _ (Permutation_sym (sort_desc_perm key_lt _))) in Hs.
    apply in_flat_map in Hs as (entry & Hentry & Hs). unfold summarize in Hs.
    destruct (os.is_dir entry); cbn [negb] in Hs; [|contradiction].
    destruct Hs as [<-|[]]. cbn.
    rewrite (@scandir_entry_path snapshot_root entries entry Hscan Hentry).
    split; [reflexivity|]. split; [reflexivity|].
    destruct (String.eqb (normalize_relative path) ""); reflexivity.
Qed.

End SnapshotFacts.

Lemma snapshot_request_without_snapshot_support_witness :
  exists e,
    _resolve_full_path Sample.without_hachoir MoreSamples.fs_no_snapshots "README.md"
      (Some "weird_name") = Raise e
    /\ (_ensure_path_allowed Sample.without_hachoir MoreSamples.fs_no_snapshots
          (normalize_relative "README.md") = Ok tt ->
        e = ValueError "Snapshot support is disabled.").
Proof.
  destruct (@snapshot_request_without_snapshot_support Sample.without_hachoir
              MoreSamples.fs_no_snapshots "README.md" "weird_name")
    as (e & Hres & _ & Hlive & _).
  - discriminate.
  - reflexivity.
  - now exists e.
Defined.


Lemma snapshot_listing_describes_root_directories_witness :
  exists listing entries,
    list_snapshots Sample.without_hachoir Sample.fs "README.md" = Ok listing
    /\ os.scandir Sample.machine "/srv/data/.snapshot" = Ok entries
    /\ Permutation (map SnapshotSummary.id (SnapshotList.snapshots listing))
                   (map os.name (filter os.is_dir entries)).
Proof.
  destruct (@snapshot_listing_describes_root_directories Sample.without_hachoir
              Sample.fs "README.md" "/srv/data/.snapshot" eq_refl eq_refl)
    as (listing & entries & Hl & Hs & Hp & _).
  now exists listing, entries.
Defined.

(** ** Extensions and image formats *)

Lemma after_last_app (x : ascii) (a b : string) :
  after_last x (a ++ b)
  = match after_last x b with
    | O => after_last x a
    | S i => (String.length a + S i)%nat
    end.
Proof.
  induction a as [|c a IH]; simpl.
  - now destruct (after_last x b).
  - rewrite IH. destruct (after_last x b) as [|i]; [reflexivity|].
    now rewrite Nat.add_succ_r.
Qed.

Lemma after_last_le (x : ascii) (s : string) : (after_last x s <= String.length s)%nat.
Proof.
  induction s as [|c s IH]; simpl; [lia|].
  destruct (after_last x s); [destruct (Ascii.eqb c x); lia|lia].
Qed.

Lemma after_last_no_sep (n : string) : no_sep n = true -> after_last sep n = 0%nat.
Proof.
  induction n as [|c n IH]; [reflexivity|]. simpl.
  destruct (Ascii.eqb c sep); simpl; [discriminate|].
  intros H. now rewrite (IH H).
Qed.

Lemma get_app_r (a b : string) (i : nat) :
  String.get (String.length a + i) (a ++ b) = String.get i b.
Proof. induction a as [|c a IH]; simpl; [reflexivity|exact IH]. Qed.

Lemma has_non_dot_app_r (a b : string) (n i : nat) :
  has_non_dot (a ++ b) (String.length a + i) n = has_non_dot b i n.
Proof.
  revert i. induction n as [|n IH]; intros i; simpl; [reflexivity|].
  rewrite get_app_r. destruct (String.get i b) as [c|]; [|reflexivity].
  destruct (Ascii.eqb c "."); [|reflexivity].
  rewrite <- Nat.add_succ_r. apply IH.
Qed.

Lemma str_drop_app_r (a b : string) (i : nat) :
  str_drop (String.length a + i) (a ++ b) = str_drop i b.
Proof. induction a as [|c a IH]; simpl; [reflexivity|exact IH]. Qed.

(** The extension of a path is the extension of its last component. *)
Lemma splitext_last_component (dir name : string) :
  no_sep name = true ->
  snd (splitext ((dir ++ "/") ++ name)) = snd (splitext name).
Proof.
  intros Hname. unfold splitext.
  assert (Ha : after_last sep (dir ++ "/") = String.length (dir ++ "/")).
  { rewrite after_last_app, length_append. reflexivity. }
  set (a := dir ++ "/") in *.
  rewrite (after_last_app sep a name), (after_last_app "." a name).
  rewrite (after_last_no_sep _ Hname), Ha.
  destruct (after_last "." name) as [|i] eqn:Hdot.
  - pose proof (after_last_le "." a) as Hle.
    destruct (Nat.ltb_spec (String.length a) (after_last "." a)); [lia|reflexivity].
  - replace (String.length a + S i - 1 - String.length a)%nat with i by lia.
    replace (String.length a + S i - 1)%nat with (String.length a + i)%nat by lia.
    replace (S i - 1 - 0)%nat with i by lia.
    replace (S i - 1)%nat with i by lia.
    assert (Hh : has_non_dot (a ++ name) (String.length a) i = has_non_dot name 0 i).
    { rewrite <- (has_non_dot_app_r a name i 0). now rewrite Nat.add_0_r. }
    rewrite Hh.
    destruct (Nat.ltb_spec (String.length a) (String.length a + S i)); [|lia].
    change (0 <? S i)%nat with true. cbn [andb].
    destruct (has_non_dot name 0 i); [|reflexivity].
    cbn [snd]. apply str_drop_app_r.
Qed.

Lemma splitext_child_path (rel name : string) :
  no_sep name = true ->
  snd (splitext (child_path rel name)) = snd (splitext name).
Proof.
  intros Hname. unfold child_path.
  destruct (String.eqb_spec rel "") as [->|Hne]; [reflexivity|]. cbn [negb andb].
  destruct (endswith_sep rel) eqn:Hend; cbn [negb].
  - destruct (endswith_sep_inv _ Hend) as [a0 ->].
    now apply splitext_last_component.
  - now apply splitext_last_component.
Qed.

(** X13.  The image flag of a listed file and the format lookup on its
    listed path agree: when the flag is set the lookup answers ["png"] or
    ["jpg"], and when it is not the lookup raises a [ValueError].  Both go
    by the extension of the name, whatever its case, and a dot that opens
    the name or belongs to a folder on the way starts no extension. *)
Theorem listed_image_has_a_format
        (E : env) (self : FileSystem)
        (relative_path : string) (scan_limit : option Z) (snapshot_id : option string)
        (c : FolderContents.t) (f : FileItem.t)
        (Hc : folder_contents E self relative_path scan_limit snapshot_id = Ok c)
        (Hf : In f (FolderContents.files c))
        (Hname : no_sep (FileItem.name f) = true) :
  (is_supported_image f = true ->
   exists fmt, get_image_file_format (FileItem.path f) = Ok fmt
               /\ (fmt = "png" \/ fmt = "jpg"))
  /\ (is_supported_image f = false ->
      exists msg, get_image_file_format (FileItem.path f) = Raise (ValueError msg)).
Proof.
  destruct (listing_items E self _ _ _ Hc)
    as (folder_path & entries & items & _ & _ & _ & Hfl & Hincl & _).
  rewrite Hfl in Hf. apply files_of_in in Hf. apply Hincl in Hf.
  apply kept_items_in in Hf as (entry & _ & Hentry).
  apply scan_entry_file_inv in Hentry as (_ & Hfeq).
  destruct (flag_too_large_fields self
              (FileItem.make (os.name entry)
                 (child_path (listing_path relative_path) (os.name entry))
                 (os.st_size entry))) as (H1 & H2 & _).
  rewrite <- Hfeq in H1, H2. cbn in H1, H2.
  assert (Hext : snd (splitext (FileItem.path f)) = snd (splitext (FileItem.name f))).
  { rewrite H2, H1. apply splitext_child_path. now rewrite <- H1. }
  unfold is_supported_image, get_image_file_format. rewrite Hext.
  set (ext := str_lower (snd (splitext (FileItem.name f)))).
  destruct (String.eqb ext ".png"); cbn [orb].
  - split; [|discriminate]. intros _. exists "png". auto.
  - destruct (String.eqb ext ".jpg" || String.eqb ext ".jpeg").
    + split; [|discriminate]. intros _. exists "jpg". auto.
    + split; [discriminate|]. intros _. now eexists.
Qed.

Lemma listed_image_has_a_format_witness :
  (exists fmt, get_image_file_format "pics.d/cat.JPG" = Ok fmt
               /\ (fmt = "png" \/ fmt = "jpg"))
  /\ (exists msg, get_image_file_format "pics.d/.png" = Raise (ValueError msg)).
Proof.
  split.
  - exact (proj1 (@listed_image_has_a_format Gallery.E Sample.fs "pics.d" None None _
                    {| FileItem.name := "cat.JPG"; FileItem.path := "pics.d/cat.JPG";
                       FileItem.size := 3; FileItem.is_too_large := false |}
                    eq_refl (or_introl eq_refl) eq_refl) eq_refl).
  - exact (proj2 (@listed_image_has_a_format Gallery.E Sample.fs "pics.d" None None _
                    {| FileItem.name := ".png"; FileItem.path := "pics.d/.png";
                       FileItem.size := 3; FileItem.is_too_large := false |}
                    eq_refl (or_intror (or_introl eq_refl)) eq_refl) eq_refl).
Defined.

(** ** Loading a listing *)

Lemma load_items_spec (items : list FileSystemItem)
      (subfolders : list FolderItem.t) (files : list FileItem.t) :
  load_items items subfolders files
  = Ok ((subfolders ++ folders_of items)%list, (files ++ files_of items)%list).
Proof.
  revert subfolders files.
  induction items as [|[f|f] items IH]; intros subfolders files; simpl.
  - now rewrite !app_nil_r.
  - rewrite IH, <- app_assoc. reflexivity.
  - rewrite IH, <- app_assoc. reflexivity.
Qed.

(** X14.  Loading items that each wrap a folder or a file never trips over
    the accessors that raise on the wrong kind: it returns, discards what
    the contents held before, and splits the items into the folders and the
    files, each in the order they came in, losing none. *)
Theorem load_contents_partitions (self : FolderContents.t) (items : list FileSystemItem) :
  exists c,
    load_contents_checked self items = Ok c
    /\ c = FolderContents.load_contents self items
    /\ FolderContents.folder c = FolderContents.folder self
    /\ FolderContents.subfolders c = folders_of items
    /\ FolderContents.files c = files_of items
    /\ (List.length (FolderContents.subfolders c)
        + List.length (FolderContents.files c))%nat = List.length items
    /\ (forall item, In item items <->
          (exists f, item = IsFolder f /\ In f (FolderContents.subfolders c))
          \/ (exists f, item = IsFile f /\ In f (FolderContents.files c))).
Proof.
  unfold load_contents_checked. rewrite load_items_spec. cbn [bind fst snd app].
  eexists. split; [reflexivity|]. rewrite load_contents_spec.
  split; [reflexivity|]. cbn.
  split; [reflexivity|]. split; [reflexivity|]. split; [reflexivity|].
  split; [apply folders_files_length|].
  intros item. split.
  - intros Hin. destruct item as [f|f].
    + left. exists f. split; [reflexivity|]. now apply folders_of_in.
    + right. exists f. split; [reflexivity|]. now apply files_of_in.
  - intros [(f & -> & Hin)|(f & -> & Hin)].
    + now apply folders_of_in.
    + now apply files_of_in.
Qed.

(** ** Metadata *)

Lemma dict_get_set (d : list (string * MetadataValue)) (k k' : string)
      (v : MetadataValue) :
  dict_get (FileMetadata.dict_set d k v) k'
  = if String.eqb k k' then inl v else dict_get d k'.
Proof.
  induction d as [|[k0 v0] d IH]; simpl.
  - destruct (String.eqb k k'); reflexivity.
  - destruct (String.eqb_spec k0 k) as [->|Hne]; simpl.
    + destruct (String.eqb k k'); reflexivity.
    + rewrite IH. destruct (String.eqb_spec k0 k') as [->|Hne'].
      * destruct (String.eqb_spec k k') as [->|_]; [contradiction|reflexivity].
      * reflexivity.
Qed.

Lemma getitem_setitem (md : FileMetadata.t) (k k' : string) (v : MetadataValue) :
  getitem (FileMetadata.setitem md k v) k'
  = if String.eqb k k' then inl v else getitem md k'.
Proof. unfold getitem, FileMetadata.setitem. cbn. apply dict_get_set. Qed.

Lemma collect_metadata_snoc (md : FileMetadata.t) (items : list MetadataItem)
      (item : MetadataItem) :
  collect_metadata md (items ++ [item])%list
  = match values item with
    | [] => collect_metadata md items
    | [v] => FileMetadata.setitem (collect_metadata md items) (key item) (Single v)
    | vals => FileMetadata.setitem (collect_metadata md items) (key item) (Many vals)
    end.
Proof. unfold collect_metadata. rewrite fold_left_app. reflexivity. Qed.

Lemma collect_metadata_file_item (md : FileMetadata.t) (items : list MetadataItem) :
  FileMetadata.file_item (collect_metadata md items) = FileMetadata.file_item md.
Proof.
  induction items as [|item items IH] using rev_ind; [reflexivity|].
  rewrite collect_metadata_snoc.
  destruct (values item) as [|v [|v' vs]]; exact IH.
Qed.

Lemma collect_metadata_sound (md : FileMetadata.t) (items : list MetadataItem)
      (k : string) (v : MetadataValue) :
  getitem (collect_metadata md items) k = inl v ->
  getitem md k = inl v
  \/ exists item, In item items /\ key item = k /\ stored_value item v.
Proof.
  induction items as [|item items IH] using rev_ind; [now left|].
  rewrite collect_metadata_snoc.
  assert (Hold : getitem (collect_metadata md items) k = inl v ->
                 getitem md k = inl v
                 \/ exists item0, In item0 (items ++ [item])%list
                                  /\ key item0 = k /\ stored_value item0 v).
  { intros H. destruct (IH H) as [Hm|(item0 & Hin & Hk & Hs)]; [now left|].
    right. exists item0. split; [apply in_or_app; now left|auto]. }
  destruct (values item) as [|x [|y vs]] eqn:Hvals; [exact Hold| |].
  - rewrite getitem_setitem. destruct (String.eqb_spec (key item) k) as [Hk|_];
      [|exact Hold].
    intros H. injection H as <-. right. exists item.
    split; [apply in_or_app; right; now left|]. split; [exact Hk|].
    left. now exists x.
  - rewrite getitem_setitem. destruct (String.eqb_spec (key item) k) as [Hk|_];
      [|exact Hold].
    intros H. injection H as <-. right. exists item.
    split; [apply in_or_app; right; now left|]. split; [exact Hk|].
    right. rewrite Hvals. split; [simpl; lia|reflexivity].
Qed.

Lemma collect_metadata_complete (md : FileMetadata.t) (items : list MetadataItem)
      (item : MetadataItem) :
  In item items -> values item <> [] ->
  exists v, getitem (collect_metadata md items) (key item) = inl v.
Proof.
  induction items as [|last items IH] using rev_ind; [intros []|].
  intros Hin Hvals. rewrite collect_metadata_snoc.
  assert (Hcases : item = last
                   \/ exists v, getitem (collect_metadata md items) (key item) = inl v).
  { apply in_app_or in Hin as [Hin|[->|[]]]; [right; now apply IH|now left]. }
  destruct (values last) as [|x [|y vs]] eqn:Hlast.
  - destruct Hcases as [->|H]; [contradiction|exact H].
  - rewrite getitem_setitem. destruct (String.eqb (key last) (key item)) eqn:Hk;
      [now eexists|].
    destruct Hcases as [->|H]; [|exact H]. now rewrite String.eqb_refl in Hk.
  - rewrite getitem_setitem. destruct (String.eqb (key last) (key item)) eqn:Hk;
      [now eexists|].
    destruct Hcases as [->|H]; [|exact H]. now rewrite String.eqb_refl in Hk.
Qed.

(** X15.  What [get_metadata] returns describes the file the path resolves
    to, which is no directory, under the last component of the requested
    path, the requested path itself and the size of the file, and its
    metadata holds what the extractor reported and nothing else: every
    stored key is the key of a reported item that has values, stored as the
    value itself when the item has one and as the list when it has more,
    and every reported item that has values has its key stored.  A key with
    no entry raises [KeyError]. *)
Theorem metadata_comes_from_the_extractor
        (E : env) (self : FileSystem) (path : string) (snapshot_id : option string)
        (m : FileMetadata.t)
        (Hm : get_metadata E self path snapshot_id = Ok m) :
  exists h full_path content parser,
    hachoir E = Some h
    /\ _resolve_full_path E self path snapshot_id = Ok full_path
    /\ os.lookup (world E) full_path = Some (os.File content)
    /\ createParser h (world E) full_path = Some parser
    /\ FileItem.name (FileMetadata.file_item m) = posixpath.basename path
    /\ FileItem.path (FileMetadata.file_item m) = path
    /\ FileItem.size (FileMetadata.file_item m) = Z.of_nat (List.length content)
    /\ (forall k v, getitem m k = inl v ->
          exists extracted item,
            extractMetadata h parser = Some extracted
            /\ In item extracted /\ key item = k /\ stored_value item v)
    /\ (forall extracted item,
          extractMetadata h parser = Some extracted ->
          In item extracted -> values item <> [] ->
          exists v, getitem m (key item) = inl v)
    /\ (forall k, (forall extracted item,
                     extractMetadata h parser = Some extracted ->
                     In item extracted -> key item = k -> values item = []) ->
                  getitem m k = inr (KeyError k)).
Proof.
  unfold get_metadata in Hm. destruct (hachoir E) as [h|]; [|discriminate].
  destruct (_resolve_full_path E self path snapshot_id) as [full_path|e] eqn:Hres;
    cbn [bind] in Hm; [|discriminate].
  unfold os.stat_size in Hm.
  destruct (os.lookup (world E) full_path) as [nd|] eqn:Hnd; cbn [bind] in Hm;
    [|discriminate].
  unfold os.isdir in Hm. rewrite Hnd in Hm.
  destruct nd as [content|sz children]; cbn [os.is_dir_node bind raise_if] in Hm;
    [|discriminate].
  destruct (createParser h (world E) full_path) as [parser|] eqn:Hparser;
    [|discriminate].
  exists h, full_path, content, parser.
  split; [reflexivity|]. split; [reflexivity|].
  split; [exact Hnd|]. split; [exact Hparser|].
  set (item0 := flag_too_large self
                  (FileItem.make (posixpath.basename path) path
                     (os.node_size (os.File content)))) in Hm.
  set (md0 := {| FileMetadata.file_item := item0; FileMetadata.metadata := [] |}) in Hm.
  assert (Hitem : FileMetadata.file_item m = item0).
  { destruct (extractMetadata h parser) as [extracted|]; injection Hm as <-;
      [apply collect_metadata_file_item|reflexivity]. }
  destruct (flag_too_large_fields self
              (FileItem.make (posixpath.basename path) path
                 (os.node_size (os.File content)))) as (H1 & H2 & H3).
  fold item0 in H1, H2, H3. rewrite Hitem.
  split; [exact H1|]. split; [exact H2|]. split; [exact H3|].
  destruct (extractMetadata h parser) as [extracted|]; injection Hm as <-.
  - split; [|split].
    + intros k v Hget. apply collect_metadata_sound in Hget as [Hget|(item & Hin & Hk & Hs)];
        [discriminate|].
      now exists extracted, item.
    + intros extracted' item H. injection H as <-. apply collect_metadata_complete.
    + intros k Hnone.
      destruct (getitem (collect_metadata md0 extracted) k) as [v|[k']] eqn:Hget.
      * apply collect_metadata_sound in Hget as [Hget|(item & Hin & Hk & Hs)];
          [discriminate|].
        specialize (Hnone extracted item eq_refl Hin Hk).
        destruct Hs as [(x & Hx & _)|(Hlen & _)]; rewrite Hnone in *;
          [discriminate|simpl in Hlen; lia].
      * f_equal. f_equal.
        assert (Hkey : forall d k0 k1, dict_get d k0 = inr (KeyError k1) -> k1 = k0).
        { induction d as [|[k2 v2] d IHd]; simpl; intros k0 k1.
          - intros H. now injection H.
          - destruct (String.eqb k2 k0); [discriminate|apply IHd]. }
        exact (Hkey _ _ _ Hget).
  - split; [|split].
    + intros k v Hget. discriminate.
    + intros extracted item H. discriminate.
    + intros k _. reflexivity.
Qed.

Lemma metadata_comes_from_the_extractor_witness :
  exists m,
    get_metadata Gallery.with_hachoir Sample.fs "pics.d/cat.JPG" None = Ok m
    /\ getitem m "title" = inl (Single "final")
    /\ getitem m "author" = inl (Many ["ann"; "bob"])
    /\ getitem m "comment" = inr (KeyError "comment").
Proof.
  eexists. split; [reflexivity|].
  destruct (@metadata_comes_from_the_extractor Gallery.with_hachoir Sample.fs
              "pics.d/cat.JPG" None _ eq_refl) as (h & _).
  repeat split.
Defined.


(** ** Requests that open with two slashes *)

Lemma starts_with_two_slashes (s : string) :
  startswith s "//" = true -> exists r, s = String sep (String sep r).
Proof.
  destruct s as [|a [|b r]]; simpl.
  - discriminate.
  - destruct (Ascii.eqb "/" a); discriminate.
  - destruct (Ascii.eqb_spec "/" a) as [<-|]; [|discriminate].
    destruct (Ascii.eqb_spec "/" b) as [<-|]; [|discriminate].
    intros _. now exists r.
Qed.

(** X16.  The exclusion test reads the text of the canonical path, and the
    canonical form of a path that opens with exactly two slashes keeps them.
    So when every excluded prefix opens with a single slash followed by
    something else, as an absolute path written the usual way does, a
    request that opens with exactly two slashes and passes the boundary
    check is never taken for excluded: it resolves whenever its canonical
    path exists, also when the same path written with one slash is
    excluded. *)
Theorem double_slash_request_is_not_excluded
        (E : env) (self : FileSystem) (relative_path p : string)
        (Htwo : startswith relative_path "//" = true)
        (Hthree : startswith relative_path "///" = false)
        (Hexcluded : forall x, In x (Config.exclude_folders (config self)) ->
                               startswith x "//" = false /\ startswith "//" x = false)
        (Hp : _build_path E self relative_path = Ok p) :
  startswith p "//" = true
  /\ _check_path_is_in_excluded_folder self p = false
  /\ _resolve_full_path E self relative_path None
     = if os.path_exists (world E) p then Ok p
       else Raise (ValueError ("Path " ++ p ++ " is not found.")).
Proof.
  destruct (starts_with_two_slashes _ Htwo) as [r Hrel].
  assert (Hp2 : startswith p "//" = true).
  { unfold _build_path in Hp. rewrite Hrel in Hp at 1 2 3.
    cbn [String.eqb orb] in Hp.
    replace (String.eqb (String sep (String sep r)) "") with false in Hp by reflexivity.
    replace (String.eqb (String sep (String sep r)) "/") with false in Hp
      by (simpl; now destruct r).
    replace (String.eqb (String sep (String sep r)) ".") with false in Hp by reflexivity.
    cbn [orb] in Hp.
    destruct (posixpath.commonpath _) as [common|e]; cbn [bind] in Hp; [|discriminate].
    destruct (negb (String.eqb common _)); cbn [bind raise_if] in Hp; [discriminate|].
    injection Hp as <-.
    assert (Hjoin : posixpath.join (Config.file_system_path (config self)) relative_path
                    = relative_path).
    { unfold posixpath.join. rewrite Hrel. reflexivity. }
    rewrite Hjoin. unfold posixpath.abspath.
    assert (Habs : posixpath.isabs relative_path = true) by (rewrite Hrel; reflexivity).
    rewrite Habs.
    destruct (normpath_abs relative_path Habs) as (i & names & _ & _ & _ & -> & ->).
    unfold posixpath.initial_slashes. rewrite Htwo, Hthree.
    unfold posixpath.isabs in Habs. rewrite Habs. reflexivity. }
  assert (Hfree : _check_path_is_in_excluded_folder self p = false).
  { unfold _check_path_is_in_excluded_folder.
    destruct (existsb _ _) eqn:Hex; [|reflexivity].
    apply existsb_exists in Hex as (x & Hin & Hx).
    destruct (Hexcluded x Hin) as [H1 H2].
    destruct (starts_with_two_slashes _ Hp2) as [q ->].
    destruct x as [|a [|b x]]; simpl in H1, H2, Hx; unfold sep in Hx.
    - discriminate.
    - congruence.
    - rewrite (Ascii.eqb_sym "/" a), (Ascii.eqb_sym "/" b) in H1.
      destruct (Ascii.eqb a "/"); [|discriminate].
      destruct (Ascii.eqb b "/"); discriminate. }
  split; [exact Hp2|]. split; [exact Hfree|].
  unfold _resolve_full_path.
  assert (Halias : is_root_alias relative_path = false).
  { rewrite Hrel. unfold is_root_alias. simpl. now destruct r. }
  rewrite Halias. cbn [truthy_str]. rewrite Hp. cbn [bind].
  unfold _require_path_is_in_excluded_folder. rewrite Hfree. cbn [raise_if bind].
  destruct (os.path_exists (world E) p); reflexivity.
Qed.

Lemma double_slash_request_is_not_excluded_witness :
  _check_path_is_in_excluded_folder Sample.fs "/srv/data/secret/key.pem" = true
  /\ _check_path_is_in_excluded_folder Sample.fs "//srv/data/secret/key.pem" = false
  /\ get_file_content Sample.without_hachoir Sample.fs "//srv/data/secret/key.pem"
       RETURN None = Ok (Sample.bytes "k").
Proof.
  split; [reflexivity|]. split; [|reflexivity].
  refine (proj1 (proj2 (@double_slash_request_is_not_excluded Sample.without_hachoir
                          Sample.fs "//srv/data/secret/key.pem"
                          "//srv/data/secret/key.pem" eq_refl eq_refl _ eq_refl))).
  intros x [<-|[]]. split; reflexivity.
Defined.

(** * Finding the way from a listing *)
(** ** Well-formed trees *)

Lemma well_formed_child (sz : Z) (children : list (string * os.node))
      (n : string) (nd : os.node) :
  well_formed (os.Dir sz children) = true -> In (n, nd) children ->
  is_proper_name n = true /\ well_formed nd = true /\ os.child n children = Some nd.
Proof.
  simpl. induction children as [|[m c] rest IH]; [intros _ []|].
  intros H Hin. apply andb_prop in H as [H Hrest]. apply andb_prop in H as [H Hc].
  apply andb_prop in H as [Hm Hfresh]. apply negb_true_iff in Hfresh.
  destruct Hin as [Heq|Hin].
  - injection Heq as -> ->. simpl. rewrite String.eqb_refl. auto.
  - destruct (IH Hrest Hin) as (Hn & Hnd & Hchild).
    split; [exact Hn|]. split; [exact Hnd|]. simpl.
    destruct (String.eqb_spec m n) as [->|_]; [|exact Hchild].
    exfalso. assert (Hex : existsb (String.eqb n) (map fst rest) = true).
    { apply existsb_exists. exists n. split; [|apply String.eqb_refl].
      apply in_map_iff. now exists (n, nd). }
    congruence.
Qed.

Lemma child_In (n : string) (children : list (string * os.node)) (nd : os.node) :
  os.child n children = Some nd -> exists m, In (m, nd) children.
Proof.
  induction children as [|[m c] rest IH]; simpl; [discriminate|].
  destruct (String.eqb m n).
  - intros H. injection H as ->. exists m. now left.
  - intros H. destruct (IH H) as [m' Hm']. exists m'. now right.
Qed.

Lemma walk_well_formed (l : list string) (up : list os.node) (cur : os.node)
      (up' : list os.node) (cur' : os.node) :
  Forall (fun nd => well_formed nd = true /\ os.is_dir_node nd = true) up ->
  well_formed cur = true ->
  os.walk up cur l = Some (up', cur') ->
  Forall (fun nd => well_formed nd = true /\ os.is_dir_node nd = true) up'
  /\ well_formed cur' = true.
Proof.
  revert up cur. induction l as [|c l IH]; intros up cur Hup Hcur; simpl.
  - intros H. injection H as <- <-. auto.
  - destruct cur as [content|sz children]; [discriminate|].
    destruct (String.eqb c "" || String.eqb c "."); [now apply IH|].
    destruct (String.eqb c "..").
    + destruct up as [|parent up0]; [now apply IH|].
      inversion Hup as [|? ? [Hp _] Hup0]; subst. now apply IH.
    + destruct (os.child c children) as [nd|] eqn:Hchild; [|discriminate].
      destruct (@child_In c children nd Hchild) as [m Hm].
      destruct (@well_formed_child sz children m nd Hcur Hm) as (_ & Hnd & _).
      apply IH; [|exact Hnd]. constructor; [|exact Hup]. now split.
Qed.

Lemma lookup_well_formed (w : os.world) (path : string) (nd : os.node) :
  well_formed (os.root w) = true -> os.lookup w path = Some nd ->
  well_formed nd = true.
Proof.
  intros Hwf. unfold os.lookup, os.resolve.
  destruct (String.eqb path ""); [discriminate|].
  destruct (os.walk [] (os.root w) _) as [[up cur]|] eqn:Hwalk; [|discriminate].
  simpl. intros H. injection H as <-.
  now destruct (@walk_well_formed _ [] (os.root w) up cur (Forall_nil _) Hwf Hwalk).
Qed.

(** ** Normal forms of paths *)

Lemma norm_step_name (i : nat) (acc : list string) (n : string) :
  is_proper_name n = true -> posixpath.norm_step i acc n = (acc ++ [n])%list.
Proof.
  intros Hn. destruct (proper_name_tests _ Hn) as [H1 H2].
  unfold posixpath.norm_step. now rewrite H1, H2.
Qed.

Lemma norm_fold_names (i : nat) (names acc : list string) :
  Forall (fun c => is_proper_name c = true) names ->
  fold_left (posixpath.norm_step i) names acc = (acc ++ names)%list.
Proof.
  intros H. revert acc. induction H as [|n names Hn _ IH]; intros acc; simpl.
  - now rewrite app_nil_r.
  - rewrite norm_step_name by assumption. rewrite IH, <- app_assoc. reflexivity.
Qed.

Lemma norm_fold_split_names (i : nat) (names : list string) :
  Forall (fun c => is_proper_name c = true) names ->
  fold_left (posixpath.norm_step i) (split_sep (join_sep names)) [] = names.
Proof.
  intros H. destruct names as [|x l]; [reflexivity|].
  rewrite split_join_sep by now apply names_no_sep.
  now rewrite norm_fold_names.
Qed.

Lemma proper_name_head (n : string) :
  is_proper_name n = true -> exists c r, n = String c r /\ Ascii.eqb "/" c = false.
Proof.
  intros H. apply is_proper_name_is_name in H.
  pose proof (@is_name_nonempty n H) as Hne. apply is_name_no_sep in H.
  destruct n as [|c r]; [contradiction|]. exists c, r. split; [reflexivity|].
  simpl in H. apply andb_prop in H as [H _]. apply negb_true_iff in H.
  now rewrite Ascii.eqb_sym.
Qed.

Lemma join_sep_head (names : list string) :
  Forall (fun c => is_proper_name c = true) names ->
  startswith (join_sep names) "/" = false.
Proof.
  intros H. destruct names as [|x l]; [reflexivity|].
  inversion H as [|? ? Hx _]; subst.
  destruct (proper_name_head _ Hx) as (c & r & -> & Hc).
  destruct l; simpl; now rewrite Hc.
Qed.

Lemma initial_slashes_normal (i : nat) (names : list string) :
  i = 1 \/ i = 2 ->
  Forall (fun c => is_proper_name c = true) names ->
  posixpath.initial_slashes (posixpath.slashes i ++ join_sep names) = i.
Proof.
  intros Hi H. pose proof (join_sep_head H) as Hh.
  unfold posixpath.initial_slashes.
  destruct Hi as [-> | ->]; simpl posixpath.slashes.
  - destruct (join_sep names) as [|c r]; [reflexivity|].
    simpl in Hh |- *. apply andb_false_iff in Hh as [Hh|Hh]; [|discriminate].
    now rewrite Hh.
  - destruct (join_sep names) as [|c r]; [reflexivity|].
    simpl in Hh |- *. apply andb_false_iff in Hh as [Hh|Hh]; [|discriminate].
    now rewrite Hh.
Qed.

Lemma split_sep_normal (i : nat) (names : list string) :
  i = 1 \/ i = 2 ->
  fold_left (posixpath.norm_step i)
            (split_sep (posixpath.slashes i ++ join_sep names)) []
  = fold_left (posixpath.norm_step i) (split_sep (join_sep names)) [].
Proof.
  intros [-> | ->]; reflexivity.
Qed.

(** A normal form is its own normal form. *)
Lemma normpath_normal (i : nat) (names : list string) :
  i = 1 \/ i = 2 ->
  Forall (fun c => is_proper_name c = true) names ->
  posixpath.normpath (posixpath.slashes i ++ join_sep names)
  = posixpath.slashes i ++ join_sep names.
Proof.
  intros Hi H. unfold posixpath.normpath.
  rewrite (initial_slashes_normal Hi H), (split_sep_normal _ Hi),
    (norm_fold_split_names _ H).
  destruct Hi as [-> | ->]; reflexivity.
Qed.

Lemma initial_slashes_snoc_name (y name : string) :
  posixpath.isabs (y ++ "/") = true -> is_proper_name name = true ->
  posixpath.initial_slashes (y ++ String sep name) = posixpath.initial_slashes (y ++ "/").
Proof.
  intros Habs Hname. destruct (@proper_name_head name Hname) as (c & r & -> & Hc).
  unfold posixpath.initial_slashes, posixpath.isabs in *.
  destruct y as [|a [|b [|d y]]]; simpl in *; unfold sep.
  - now rewrite Hc.
  - rewrite Hc. now rewrite !andb_false_r.
  - reflexivity.
  - reflexivity.
Qed.

(** The normal form of a path extended by a name is the normal form of the
    path extended by that name. *)
Lemma normpath_child (y name : string) :
  posixpath.isabs y = true -> is_proper_name name = true ->
  posixpath.normpath (y ++ (if endswith_sep y then "" else "/") ++ name)
  = posixpath.slashes (posixpath.initial_slashes y)
    ++ join_sep (fold_left (posixpath.norm_step (posixpath.initial_slashes y))
                           (split_sep y) [] ++ [name])%list.
Proof.
  intros Habs Hname.
  assert (Hy : y <> "") by now apply isabs_nonempty.
  assert (Hsingle : split_sep name = [name]).
  { apply split_sep_single, is_name_no_sep, is_proper_name_is_name, Hname. }
  assert (Hslash : forall i l, (i = 1 \/ i = 2) ->
            (if String.eqb (posixpath.slashes i ++ join_sep l) "" then "."
             else posixpath.slashes i ++ join_sep l)
            = posixpath.slashes i ++ join_sep l).
  { intros i l [-> | ->]; reflexivity. }
  destruct (endswith_sep y) eqn:Hend.
  - destruct (@endswith_sep_inv y Hend) as [y0 ->].
    change ("" ++ name) with name. rewrite append_assoc.
    change ("/" ++ name) with (String sep name).
    unfold posixpath.normpath.
    rewrite (@initial_slashes_snoc_name y0 name Habs Hname).
    change (y0 ++ "/") with (y0 ++ String sep "").
    rewrite !split_sep_app, Hsingle, !fold_left_app.
    change (split_sep "") with [""].
    cbn [fold_left]. rewrite (@norm_step_name _ _ name Hname).
    replace (posixpath.norm_step (posixpath.initial_slashes (y0 ++ String sep ""))
               (fold_left (posixpath.norm_step
                             (posixpath.initial_slashes (y0 ++ String sep "")))
                          (split_sep y0) []) "")
      with (fold_left (posixpath.norm_step
                         (posixpath.initial_slashes (y0 ++ String sep "")))
                      (split_sep y0) []) by reflexivity.
    destruct (String.eqb_spec (y0 ++ String sep name) "") as [H|_].
    { apply append_eq_nil in H as [_ H]. discriminate. }
    apply Hslash. now apply initial_slashes_abs.
  - change ("/" ++ name) with (String sep name).
    unfold posixpath.normpath.
    rewrite (@initial_slashes_app y (String sep name) Hy Hend).
    rewrite split_sep_app, Hsingle, fold_left_app.
    cbn [fold_left]. rewrite (@norm_step_name _ _ name Hname).
    destruct (String.eqb_spec (y ++ String sep name) "") as [H|_].
    { apply append_eq_nil in H as [H _]. contradiction. }
    apply Hslash. now apply initial_slashes_abs.
Qed.

Lemma components_normal (i : nat) (names : list string) :
  i = 1 \/ i = 2 ->
  Forall (fun c => is_proper_name c = true) names ->
  posixpath.components (posixpath.slashes i ++ join_sep names) = names.
Proof.
  intros Hi H.
  assert (Hn : Forall (fun c => is_name c = true) names).
  { eapply Forall_impl; [|exact H]. intros a. apply is_proper_name_is_name. }
  destruct Hi as [-> | ->]; simpl posixpath.slashes.
  - change ("/" ++ join_sep names) with (String sep (join_sep names)).
    now apply components_join.
  - change ("//" ++ join_sep names) with (String sep (String sep (join_sep names))).
    now apply components_join2.
Qed.

(** ** [commonpath] of a path and one of its ancestors *)

Lemma common_loop_prefix (y rest : list string) :
  posixpath.common_loop y (y ++ rest)%list = Ok y.
Proof.
  induction y as [|c y IH]; simpl; [reflexivity|].
  now rewrite String.eqb_refl, IH.
Qed.

Lemma list_lt_prefix (y rest : list string) :
  rest <> [] -> list_lt y (y ++ rest)%list = true.
Proof.
  intros Hrest. induction y as [|c y IH]; simpl.
  - destruct rest; [contradiction|reflexivity].
  - now rewrite String.eqb_refl.
Qed.

Lemma commonpath_ancestor (a b : string) (rest : list string) :
  posixpath.isabs a = true -> posixpath.isabs b = true ->
  posixpath.components a = (posixpath.components b ++ rest)%list ->
  posixpath.commonpath [a; b] = Ok ("/" ++ join_sep (posixpath.components b)).
Proof.
  intros Ha Hb Hab. unfold posixpath.commonpath. simpl forallb.
  rewrite Ha, Hb. simpl negb. cbv iota.
  unfold py_min, py_max. simpl map. simpl fold_left. rewrite Hab.
  set (y := posixpath.components b).
  destruct rest as [|r rest].
  - rewrite app_nil_r, list_lt_irrefl, common_loop_refl. reflexivity.
  - assert (Hlt : list_lt y (y ++ r :: rest)%list = true)
      by now apply list_lt_prefix.
    rewrite Hlt, (@list_lt_asym _ _ Hlt), common_loop_prefix. reflexivity.
Qed.

(** ** The path of a child *)

Lemma proper_name_not_abs (name : string) :
  is_proper_name name = true -> posixpath.isabs name = false.
Proof.
  intros H. destruct (@proper_name_head name H) as (c & r & -> & Hc).
  unfold posixpath.isabs. simpl. now rewrite Hc.
Qed.

Lemma child_path_unfold (rel name : string) :
  child_path rel name
  = if String.eqb rel "" then name
    else rel ++ (if endswith_sep rel then "" else "/") ++ name.
Proof.
  unfold child_path. destruct (String.eqb_spec rel "") as [->|Hne]; [reflexivity|].
  cbn [negb andb]. destruct (endswith_sep rel); cbn [negb].
  - reflexivity.
  - now rewrite append_assoc.
Qed.

Lemma child_path_not_special (rel name : string) :
  is_proper_name name = true ->
  String.eqb (child_path rel name) "" || String.eqb (child_path rel name) "/"
  || String.eqb (child_path rel name) "." = false.
Proof.
  intros Hname. rewrite child_path_unfold.
  destruct (@proper_name_head name Hname) as (c & r & Hn & Hc).
  destruct (String.eqb_spec rel "") as [->|Hne].
  - unfold is_proper_name, is_name in Hname.
    apply andb_prop in Hname as [Hname _]. apply andb_prop in Hname as [_ Hname].
    apply andb_prop in Hname as [He Hd]. apply negb_true_iff in He, Hd.
    rewrite He, Hd. cbn [orb].
    destruct (String.eqb_spec name "/") as [H|_]; [|reflexivity].
    rewrite H in Hn. injection Hn as <- _. discriminate.
  - assert (Hlen : (2 <= String.length (rel ++ (if endswith_sep rel then "" else "/")
                                            ++ name))%nat).
    { rewrite !length_append. subst name. destruct rel; [contradiction|]. simpl. lia. }
    destruct (String.eqb_spec (rel ++ (if endswith_sep rel then "" else "/") ++ name) "")
      as [H|_]; [rewrite H in Hlen; simpl in Hlen; lia|].
    destruct (String.eqb_spec (rel ++ (if endswith_sep rel then "" else "/") ++ name) "/")
      as [H|_]; [rewrite H in Hlen; simpl in Hlen; lia|].
    destruct (String.eqb_spec (rel ++ (if endswith_sep rel then "" else "/") ++ name) ".")
      as [H|_]; [rewrite H in Hlen; simpl in Hlen; lia|].
    reflexivity.
Qed.

(** Joining the root with the path of a child is extending, by the name of
    the child, what the root joined with the path of the folder gives. *)
Lemma join_child_path (root rel name : string) :
  root <> "" -> is_proper_name name = true ->
  let y := if String.eqb rel "" then root else posixpath.join root rel in
  posixpath.join root (child_path rel name)
  = y ++ (if endswith_sep y then "" else "/") ++ name.
Proof.
  intros Hroot Hname y. rewrite child_path_unfold. subst y.
  pose proof (@proper_name_not_abs name Hname) as Hrelname.
  apply String.eqb_neq in Hroot.
  destruct (String.eqb_spec rel "") as [->|Hne].
  - rewrite (@join_relative root name Hrelname), Hroot. cbn [orb].
    destruct (endswith_sep root); reflexivity.
  - set (s := if endswith_sep rel then "" else "/").
    destruct (posixpath.isabs rel) eqn:Habs.
    + assert (Hj : posixpath.join root rel = rel).
      { unfold posixpath.join. unfold posixpath.isabs in Habs. now rewrite Habs. }
      assert (Hj' : posixpath.join root (rel ++ s ++ name) = rel ++ s ++ name).
      { unfold posixpath.join.
        pose proof (@isabs_app_l rel (s ++ name) Hne) as H.
        unfold posixpath.isabs in H, Habs. now rewrite H, Habs. }
      rewrite Hj, Hj'. reflexivity.
    + assert (Hrel' : posixpath.isabs (rel ++ s ++ name) = false).
      { now rewrite (@isabs_app_l rel (s ++ name) Hne). }
      rewrite (@join_relative root (rel ++ s ++ name) Hrel').
      rewrite (@join_endswith root rel Hne). fold s.
      rewrite (@join_relative root rel Habs), Hroot. cbn [orb].
      destruct (endswith_sep root); now rewrite ?append_assoc.
Qed.

Section ChildPaths.
Variable E : env.
Variable self : FileSystem.
Hypothesis Hcanonical : canonical_root E self.

Let cwd := os.getcwd (world E).
Let root := Config.file_system_path (config self).

Lemma canonical_root_normal :
  posixpath.isabs root = true
  /\ posixpath.abspath cwd root = root
  /\ exists names, Forall (fun c => is_proper_name c = true) names
                   /\ root = posixpath.slashes 1 ++ join_sep names
                   /\ posixpath.components root = names.
Proof.
  destruct (canonical_root_shape Hcanonical) as (Habs & Hnorm & _).
  fold root in Habs, Hnorm.
  split; [exact Habs|]. split; [apply Hcanonical|].
  destruct (normpath_abs root Habs) as (i & names & Hi & Hnames & _ & Hshape & Hinit).
  rewrite Hnorm in Hshape.
  assert (Hone : i = 1).
  { rewrite Hinit. unfold posixpath.initial_slashes.
    destruct Hcanonical as [_ Hdouble]. fold root in Hdouble. rewrite Hdouble.
    unfold posixpath.isabs in Habs. now rewrite Habs. }
  subst i. rewrite Hone in Hshape.
  exists names. split; [exact Hnames|]. split; [exact Hshape|].
  rewrite Hshape at 1. apply components_normal; auto.
Qed.

(** What [_build_path] returns for a path other than ["/"] is the normal
    form of the root joined with the path, and lies below the root. *)
Lemma build_path_normal (rel fp : string) :
  rel <> "/" ->
  _build_path E self rel = Ok fp ->
  let y := if String.eqb rel "" then root else posixpath.join root rel in
  posixpath.isabs y = true
  /\ fp = posixpath.normpath y
  /\ exists rest, posixpath.components fp = (posixpath.components root ++ rest)%list.
Proof.
  intros Hslash Hfp y.
  destruct canonical_root_normal as (Habs & Hcanon & names & Hnames & Hshape & Hcomps).
  assert (Hnorm : posixpath.normpath root = root).
  { unfold posixpath.abspath in Hcanon. now rewrite Habs in Hcanon. }
  assert (Hy : posixpath.isabs y = true).
  { subst y. destruct (String.eqb rel ""); [exact Habs|now apply isabs_join]. }
  split; [exact Hy|].
  unfold _build_path in Hfp. fold root cwd in Hfp.
  destruct (String.eqb_spec rel "") as [->|Hne].
  - cbn [orb] in Hfp. injection Hfp as <-. subst y. cbn.
    split; [now rewrite Hnorm|]. exists []. now rewrite app_nil_r.
  - cbn [orb] in Hfp. apply String.eqb_neq in Hslash. rewrite Hslash in Hfp.
    cbn [orb] in Hfp. subst y.
    destruct (String.eqb_spec rel ".") as [->|Hdot].
    + injection Hfp as <-. split; [|exists []; now rewrite app_nil_r].
      assert (Hroot : root <> "") by now apply isabs_nonempty.
      rewrite (@join_relative root "." eq_refl).
      apply String.eqb_neq in Hroot. rewrite Hroot. cbn [orb].
      destruct (endswith_sep root) eqn:Hend.
      * assert (Hr : root = "/").
        { rewrite Hshape in Hend |- *. destruct names as [|x l]; [reflexivity|].
          exfalso. cbn [posixpath.slashes] in Hend.
          change ("/" ++ join_sep (x :: l)) with (String sep "" ++ join_sep (x :: l)) in Hend.
          assert (Hn : Forall (fun c => is_name c = true) (x :: l)).
          { eapply Forall_impl; [|exact Hnames]. intros a. apply is_proper_name_is_name. }
          rewrite endswith_sep_app in Hend.
          - rewrite (join_names_no_trailing Hn) in Hend. discriminate.
          - inversion Hn; subst. now apply join_names_nonempty. }
        rewrite Hr. reflexivity.
      * change (root ++ "/" ++ ".") with (root ++ String sep ".").
        rewrite normpath_skipped_suffix; auto.
        -- now apply String.eqb_neq.
        -- repeat constructor.
    + pose proof (@boundary_check E root (posixpath.join root rel)
                    "Access to the path is not allowed.") as Hb.
      cbv zeta in Hb. fold cwd in Hb. rewrite Hfp in Hb. destruct Hb as [-> Hwithin].
      split.
      * unfold posixpath.abspath. now rewrite (@isabs_join root rel Habs).
      * destruct Hwithin as (_ & _ & rest & Hrest). rewrite Hcanon in Hrest.
        now exists rest.
Qed.

(** The path of a child of a folder that [_build_path] accepts is accepted
    too, and is the path of the folder extended by the name. *)
Lemma child_build_path (rel fp name : string) :
  rel <> "/" ->
  _build_path E self rel = Ok fp ->
  is_proper_name name = true ->
  exists i names,
    (i = 1 \/ i = 2)
    /\ Forall (fun c => is_proper_name c = true) names
    /\ fp = posixpath.slashes i ++ join_sep names
    /\ _build_path E self (child_path rel name)
       = Ok (posixpath.slashes i ++ join_sep (names ++ [name])%list).
Proof.
  intros Hslash Hfp Hname.
  destruct canonical_root_normal as (Habs & Hcanon & rnames & Hrnames & Hshape & Hcomps).
  destruct (@build_path_normal rel fp Hslash Hfp) as (Hy & Hnorm & rest & Hrest).
  set (y := if String.eqb rel "" then root else posixpath.join root rel) in *.
  destruct (normpath_abs y Hy) as (i & names & Hi & Hnames & Hfold & Hyn & Hinit).
  exists i, names. split; [exact Hi|]. split; [exact Hnames|].
  split; [congruence|].
  unfold _build_path. rewrite (@child_path_not_special rel name Hname).
  fold root cwd. rewrite Hcanon.
  assert (Hroot : root <> "") by now apply isabs_nonempty.
  pose proof (@join_child_path root rel name Hroot Hname) as Hjoin.
  cbv zeta in Hjoin. fold y in Hjoin. rewrite Hjoin.
  assert (Hz : posixpath.isabs (y ++ (if endswith_sep y then "" else "/") ++ name) = true)
    by now apply isabs_app.
  unfold posixpath.abspath. rewrite Hz.
  rewrite (@normpath_child y name Hy Hname), <- Hfold, <- Hinit.
  assert (Hall : Forall (fun c => is_proper_name c = true) (names ++ [name])%list).
  { apply Forall_app. split; [exact Hnames|]. now constructor. }
  assert (Hcommon : posixpath.commonpath
                      [posixpath.slashes i ++ join_sep (names ++ [name])%list; root]
                    = Ok ("/" ++ join_sep (posixpath.components root))).
  { apply commonpath_ancestor with (rest := (rest ++ [name])%list).
    - destruct Hi as [-> | ->]; apply isabs_cons.
    - exact Habs.
    - rewrite (components_normal Hi Hall), app_assoc, <- Hrest, Hnorm, Hyn.
      now rewrite (components_normal Hi Hnames). }
  rewrite Hcommon. cbn [bind]. rewrite Hcomps.
  change ("/" ++ join_sep rnames) with (posixpath.slashes 1 ++ join_sep rnames).
  rewrite <- Hshape, String.eqb_refl. reflexivity.
Qed.

End ChildPaths.

(** ** Looking up the path of a child *)

Lemma resolve_normal (w : os.world) (i : nat) (names : list string) :
  i = 1 \/ i = 2 ->
  Forall (fun c => is_proper_name c = true) names ->
  os.is_dir_node (os.root w) = true ->
  os.resolve w (posixpath.slashes i ++ join_sep names) = os.walk [] (os.root w) names.
Proof.
  intros Hi Hnames Hdir.
  assert (Habs : posixpath.isabs (posixpath.slashes i ++ join_sep names) = true).
  { destruct Hi as [-> | ->]; apply isabs_cons. }
  rewrite (@resolve_absolute w _ Habs).
  assert (Hsplit : exists pre,
            split_sep (posixpath.slashes i ++ join_sep names) = (pre ++ split_sep (join_sep names))%list
            /\ Forall (fun c => String.eqb c "" || String.eqb c "." = true) pre).
  { destruct Hi as [-> | ->].
    - exists [""]. split; [reflexivity|repeat constructor].
    - exists [""; ""]. split; [reflexivity|repeat constructor]. }
  destruct Hsplit as (pre & -> & Hpre).
  rewrite walk_app, (@walk_skipped [] (os.root w) pre Hdir Hpre).
  destruct names as [|x l].
  - simpl. destruct (os.root w); [discriminate|reflexivity].
  - rewrite split_join_sep by now apply names_no_sep. reflexivity.
Qed.

Lemma lookup_root_is_dir (w : os.world) (path : string) (nd : os.node) :
  os.lookup w path = Some nd -> os.is_dir_node (os.root w) = true.
Proof.
  unfold os.lookup, os.resolve. destruct (String.eqb path ""); [discriminate|].
  destruct (os.walk [] (os.root w) _) as [r|] eqn:Hwalk; [|discriminate].
  intros _. eapply walk_in_dir; [apply split_sep_not_nil|exact Hwalk].
Qed.

(** In a well-formed tree, the path of a folder extended by the name of one
    of its children leads to that child. *)
Lemma lookup_child (w : os.world) (i : nat) (names : list string) (sz : Z)
      (children : list (string * os.node)) (name : string) (nd : os.node) :
  well_formed (os.root w) = true ->
  i = 1 \/ i = 2 ->
  Forall (fun c => is_proper_name c = true) names ->
  os.lookup w (posixpath.slashes i ++ join_sep names) = Some (os.Dir sz children) ->
  In (name, nd) children ->
  is_proper_name name = true
  /\ os.lookup w (posixpath.slashes i ++ join_sep (names ++ [name])%list) = Some nd.
Proof.
  intros Hwf Hi Hnames Hlook Hin.
  pose proof (@lookup_root_is_dir w _ _ Hlook) as Hdir.
  pose proof (@lookup_well_formed w _ _ Hwf Hlook) as Hwfd.
  destruct (@well_formed_child sz children name nd Hwfd Hin) as (Hname & _ & Hchild).
  split; [exact Hname|].
  unfold os.lookup in *. rewrite (@resolve_normal w i names Hi Hnames Hdir) in Hlook.
  rewrite resolve_normal; auto.
  - rewrite walk_app.
    destruct (os.walk [] (os.root w) names) as [[up cur]|]; [|discriminate].
    simpl in Hlook. injection Hlook as ->. simpl.
    destruct (@proper_name_tests name Hname) as [H1 H2]. now rewrite H1, H2, Hchild.
  - apply Forall_app. split; [exact Hnames|]. now constructor.
Qed.

(** ** From a listing to its children *)

Lemma scandir_children (w : os.world) (dir : string) (entries : list os.DirEntry) :
  os.scandir w dir = Ok entries ->
  exists sz children,
    os.lookup w dir = Some (os.Dir sz children)
    /\ forall entry, In entry entries ->
         exists nd, In (os.name entry, nd) children
                    /\ os.is_dir entry = os.is_dir_node nd
                    /\ os.st_size entry = os.node_size nd.
Proof.
  unfold os.scandir.
  destruct (os.lookup w dir) as [[content|sz children]|]; try discriminate.
  intros H. injection H as <-. exists sz, children. split; [reflexivity|].
  intros entry Hin. apply in_map_iff in Hin as ([n nd] & <- & Hin).
  now exists nd.
Qed.

Lemma scandir_lookup (w : os.world) (dir : string) (sz : Z)
      (children : list (string * os.node)) :
  os.lookup w dir = Some (os.Dir sz children) ->
  exists entries,
    os.scandir w dir = Ok entries
    /\ forall entry, In entry entries -> exists nd, In (os.name entry, nd) children.
Proof.
  intros H. unfold os.scandir. rewrite H. eexists. split; [reflexivity|].
  intros entry Hin. apply in_map_iff in Hin as ([n nd] & <- & Hin). now exists nd.
Qed.

Lemma scan_loop_returns (E : env) (self : FileSystem) (rel : string)
      (snapshot_id : option string) (limit : option Z) (entries : list os.DirEntry) :
  (forall entry, In entry entries ->
     exists r, scan_entry E self rel snapshot_id entry = Ok r) ->
  forall items, exists out,
    scan_loop E self rel snapshot_id limit entries items = Ok out.
Proof.
  induction entries as [|entry rest IH]; intros Hall items; simpl.
  - now exists items.
  - destruct (Hall entry (or_introl eq_refl)) as [r ->]. cbn [bind].
    assert (Hrest : forall e, In e rest ->
              exists r0, scan_entry E self rel snapshot_id e = Ok r0).
    { intros e He. apply Hall. now right. }
    destruct r as [item|]; [|now apply IH].
    destruct (limit_reached limit _); [now eexists|now apply IH].
Qed.

Section Navigation.
Variable E : env.
Variable self : FileSystem.
Hypothesis Hcanonical : canonical_root E self.
Hypothesis Hwf : well_formed (os.root (world E)) = true.

Lemma scan_entry_returns (rel fp : string) (snapshot_id : option string)
      (entry : os.DirEntry) :
  rel <> "/" -> _build_path E self rel = Ok fp ->
  is_proper_name (os.name entry) = true ->
  exists r, scan_entry E self rel snapshot_id entry = Ok r.
Proof.
  intros Hslash Hfp Hname. unfold scan_entry.
  destruct (_ && _); [now eexists|].
  destruct (os.is_dir entry); [|now eexists].
  destruct (@child_build_path E self Hcanonical rel fp (os.name entry) Hslash Hfp Hname)
    as (i & names & _ & _ & _ & ->).
  cbn [bind]. destruct (_check_path_is_in_excluded_folder self _); now eexists.
Qed.

(** Scanning a directory of a well-formed tree, under a path that
    [_build_path] accepts, returns. *)
Lemma scan_returns (rel fp dir : string) (snapshot_id : option string)
      (limit : option Z) (sz : Z) (children : list (string * os.node)) :
  rel <> "/" -> _build_path E self rel = Ok fp ->
  os.lookup (world E) dir = Some (os.Dir sz children) ->
  exists entries items,
    os.scandir (world E) dir = Ok entries
    /\ scan_loop E self rel snapshot_id limit entries [] = Ok items.
Proof.
  intros Hslash Hfp Hdir.
  destruct (@scandir_lookup (world E) dir sz children Hdir) as (entries & Hscan & Hall).
  pose proof (@lookup_well_formed (world E) dir _ Hwf Hdir) as Hwfd.
  destruct (@scan_loop_returns E self rel snapshot_id limit entries) with (items := @nil FileSystemItem)
    as [items Hitems].
  { intros entry Hin. destruct (Hall entry Hin) as [nd Hnd].
    destruct (@well_formed_child sz children (os.name entry) nd Hwfd Hnd) as (Hname & _).
    now apply scan_entry_returns with (fp := fp). }
  now exists entries, items.
Qed.

Lemma listing_path_live (rel fp : string) (snapshot_id : option string) :
  truthy_str snapshot_id = false ->
  _resolve_full_path E self (listing_path rel) snapshot_id = Ok fp ->
  listing_path rel <> "/"
  /\ _build_path E self (listing_path rel) = Ok fp.
Proof.
  intros Hlive Hres.
  assert (Hl : listing_path rel <> "/" /\ listing_path rel <> "\").
  { unfold listing_path. destruct (String.eqb_spec rel "/") as [->|H1]; [now split|].
    destruct (String.eqb_spec rel "\") as [->|H2]; now split. }
  split; [apply Hl|].
  destruct (@resolve_full_path_inv E self _ _ _ Hres) as (_ & live & Hb & _ & Hm).
  rewrite Hlive in Hm. subst fp.
  unfold normalize_relative, is_root_alias in Hb.
  destruct Hl as [H1 H2]. apply String.eqb_neq in H1, H2. rewrite H1, H2 in Hb.
  destruct (String.eqb_spec (listing_path rel) "") as [->|_]; exact Hb.
Qed.

(** Where a listed entry stands: the path listed for it is accepted by
    [_build_path], and the accepted path leads to the node of the entry. *)
Lemma listed_entry_path (rel fp : string) (entries : list os.DirEntry)
      (entry : os.DirEntry) :
  listing_path rel <> "/" ->
  _build_path E self (listing_path rel) = Ok fp ->
  os.scandir (world E) fp = Ok entries ->
  In entry entries ->
  exists p nd,
    is_proper_name (os.name entry) = true
    /\ _build_path E self (child_path (listing_path rel) (os.name entry)) = Ok p
    /\ os.lookup (world E) p = Some nd
    /\ os.is_dir entry = os.is_dir_node nd
    /\ os.st_size entry = os.node_size nd.
Proof.
  intros Hslash Hfp Hscan Hin.
  destruct (@scandir_children (world E) fp entries Hscan) as (sz & children & Hdir & Hall).
  destruct (Hall entry Hin) as (nd & Hnd & Hkind & Hsize).
  pose proof (@lookup_well_formed (world E) fp _ Hwf Hdir) as Hwfd.
  destruct (@well_formed_child sz children (os.name entry) nd Hwfd Hnd) as (Hname & _).
  destruct (@child_build_path E self Hcanonical _ fp (os.name entry) Hslash Hfp Hname)
    as (i & names & Hi & Hnames & Hshape & Hchild).
  rewrite Hshape in Hdir.
  destruct (@lookup_child (world E) i names sz children (os.name entry) nd
              Hwf Hi Hnames Hdir Hnd) as (_ & Hlook).
  eexists _, nd. split; [exact Hname|]. split; [exact Hchild|].
  split; [exact Hlook|]. split; [exact Hkind|exact Hsize].
Qed.

Lemma child_path_not_alias (rel name : string) :
  is_proper_name name = true -> child_path rel name <> "\" ->
  is_root_alias (child_path rel name) = false
  /\ listing_path (child_path rel name) = child_path rel name
  /\ child_path rel name <> "/".
Proof.
  intros Hname Hbs. pose proof (@child_path_not_special rel name Hname) as H.
  apply orb_false_iff in H as [H _]. apply orb_false_iff in H as [H1 H2].
  apply String.eqb_neq in Hbs.
  unfold is_root_alias, listing_path. rewrite H1, H2, Hbs.
  repeat split. now apply String.eqb_neq.
Qed.

Lemma after_last_sep_eq (s : string) : after_last_sep s = after_last sep s.
Proof.
  induction s as [|c s IH]; [reflexivity|]. simpl. now rewrite IH.
Qed.

(** The path of a child ends in its name. *)
Lemma basename_child_path (rel name : string) :
  is_proper_name name = true ->
  endswith_sep (child_path rel name) = false
  /\ posixpath.basename (child_path rel name) = name.
Proof.
  intros Hname.
  assert (Hno : no_sep name = true)
    by now apply is_name_no_sep, is_proper_name_is_name.
  assert (Hne : name <> "").
  { apply is_name_nonempty. now apply is_proper_name_is_name. }
  assert (Hplain : posixpath.basename name = name).
  { unfold posixpath.basename.
    now rewrite after_last_sep_eq, (@after_last_no_sep name Hno). }
  assert (Hafter : forall a, posixpath.basename ((a ++ "/") ++ name) = name).
  { intros a. unfold posixpath.basename.
    rewrite after_last_sep_eq, after_last_app, (@after_last_no_sep name Hno).
    rewrite <- after_last_sep_eq, after_last_sep_snoc.
    rewrite <- (Nat.add_0_r (String.length (a ++ "/"))).
    apply str_drop_app_r. }
  rewrite child_path_unfold.
  destruct (String.eqb_spec rel "") as [->|Hrel].
  - split; [now apply no_sep_endswith|exact Hplain].
  - rewrite <- append_assoc. split.
    + rewrite endswith_sep_app by assumption. now apply no_sep_endswith.
    + destruct (endswith_sep rel) eqn:Hend.
      * destruct (@endswith_sep_inv rel Hend) as [a ->].
        change ((a ++ "/") ++ "") with ((a ++ "/") ++ EmptyString).
        replace ((a ++ "/") ++ EmptyString) with (a ++ "/"); [apply Hafter|].
        clear. induction (a ++ "/") as [|c s IH]; simpl; [|rewrite <- IH]; reflexivity.
      * apply Hafter.
Qed.

(** X17.  In a well-formed tree served from a canonical root, every
    subfolder a live listing shows can be listed in turn under the path
    shown for it: that path resolves to the directory of the entry, and
    [folder_contents] returns for it, naming the folder by the path and the
    name it was listed with.  (Only a folder named by a lone backslash at
    the top of the share is out of reach: its path is read as the root.) *)
Theorem listed_subfolder_can_be_listed
        (relative_path : string) (scan_limit : option Z) (snapshot_id : option string)
        (c : FolderContents.t) (f : FolderItem.t)
        (Hlive : truthy_str snapshot_id = false)
        (Hc : folder_contents E self relative_path scan_limit snapshot_id = Ok c)
        (Hf : In f (FolderContents.subfolders c))
        (Hbackslash : FolderItem.path f <> "\") :
  exists p c',
    _resolve_full_path E self (FolderItem.path f) snapshot_id = Ok p
    /\ os.isdir (world E) p = true
    /\ folder_contents E self (FolderItem.path f) scan_limit snapshot_id = Ok c'
    /\ FolderItem.path (FolderContents.folder c') = FolderItem.path f
    /\ FolderItem.name (FolderContents.folder c') = FolderItem.name f.
Proof.
  destruct (@listing_items E self _ _ _ _ Hc)
    as (fp & entries & items & Hres & Hscan & Hsf & _ & Hincl & _).
  rewrite Hsf in Hf. apply folders_of_in in Hf. apply Hincl in Hf.
  apply kept_items_in in Hf as (entry & Hin & Hentry).
  destruct (@scan_entry_folder E self _ _ _ _ Hentry) as (Hdir & Hfname & Hpath & _).
  destruct (@scan_entry_folder_allowed E self _ _ _ _ Hentry) as (p & Hp & Hfree).
  destruct (@listing_path_live relative_path fp snapshot_id Hlive Hres) as [Hslash Hfp].
  destruct (@listed_entry_path relative_path fp entries entry Hslash Hfp Hscan Hin)
    as (p' & nd & Hname & Hp' & Hlook & Hkind & _).
  rewrite Hpath in Hp, Hbackslash |- *. rewrite Hp in Hp'. injection Hp' as <-.
  destruct (@child_path_not_alias (listing_path relative_path) (os.name entry)
              Hname Hbackslash) as (Halias & Hlist & Hne).
  rewrite Hdir in Hkind. destruct nd as [content|sz children]; [discriminate|].
  assert (Hexists : os.path_exists (world E) p = true).
  { unfold os.path_exists. now rewrite Hlook. }
  assert (Hisdir : os.isdir (world E) p = true).
  { unfold os.isdir. now rewrite Hlook. }
  assert (Hresolved : _resolve_full_path E self
                        (child_path (listing_path relative_path) (os.name entry))
                        snapshot_id = Ok p).
  { unfold _resolve_full_path. rewrite Halias, Hlive, Hp. cbn [bind].
    unfold _require_path_is_in_excluded_folder. rewrite Hfree. cbn [bind raise_if].
    now rewrite Hexists. }
  destruct (@scan_returns (child_path (listing_path relative_path) (os.name entry)) p p
              snapshot_id (effective_limit self scan_limit) sz children Hne Hp Hlook)
    as (entries' & items' & Hscan' & Hloop').
  exists p. eexists. split; [exact Hresolved|]. split; [exact Hisdir|].
  unfold folder_contents.
  fold (listing_path (child_path (listing_path relative_path) (os.name entry))).
  fold (effective_limit self scan_limit).
  rewrite Hlist, Hresolved. cbn [bind]. rewrite Hisdir. cbn [bind raise_if negb].
  rewrite Hscan'. cbn [bind]. rewrite Hloop'. cbn [bind].
  split; [reflexivity|]. rewrite load_contents_spec.
  destruct (@basename_child_path (listing_path relative_path) (os.name entry) Hname)
    as [Hend Hbase].
  cbn. rewrite Hend, Hbase. split; [reflexivity|]. now rewrite Hfname.
Qed.


End Navigation.

(** ** Joining onto a normal form *)

Lemma normpath_join_normal (i : nat) (names : list string) (t : string) :
  i = 1 \/ i = 2 ->
  Forall (fun c => is_proper_name c = true) names ->
  posixpath.isabs t = false ->
  posixpath.normpath (posixpath.join (posixpath.slashes i ++ join_sep names) t)
  = posixpath.slashes i
    ++ join_sep (fold_left (posixpath.norm_step i) (split_sep t) names).
Proof.
  intros Hi Hnames Ht.
  set (b := posixpath.slashes i ++ join_sep names).
  assert (Hb : b <> "").
  { unfold b. destruct Hi as [-> | ->]; discriminate. }
  assert (Hslash : forall l,
            (if String.eqb (posixpath.slashes i ++ join_sep l) "" then "."
             else posixpath.slashes i ++ join_sep l)
            = posixpath.slashes i ++ join_sep l).
  { intros l. destruct Hi as [-> | ->]; reflexivity. }
  rewrite (@join_relative b t Ht).
  apply String.eqb_neq in Hb. rewrite Hb. cbn [orb]. apply String.eqb_neq in Hb.
  destruct names as [|x l].
  - assert (Hhead : forall c r, t = String c r -> Ascii.eqb "/" c = false).
    { intros c r ->. unfold posixpath.isabs in Ht. simpl in Ht.
      now apply andb_false_iff in Ht as [Ht|Ht]. }
    unfold b. destruct Hi as [-> | ->].
    + change (posixpath.slashes 1 ++ join_sep []) with (String sep "").
      change (endswith_sep (String sep "")) with true. cbv iota.
      change (String sep "" ++ t) with (String sep t).
      unfold posixpath.normpath.
      assert (Hinit : posixpath.initial_slashes (String sep t) = 1).
      { unfold posixpath.initial_slashes. destruct t as [|c r]; [reflexivity|].
        simpl. now rewrite (Hhead c r eq_refl). }
      rewrite Hinit.
      change (split_sep (String sep t)) with ("" :: split_sep t).
      cbn [fold_left]. change (posixpath.norm_step 1 [] "") with (@nil string).
      change (String.eqb (String sep t) "") with false. cbv iota.
      reflexivity.
    + change (posixpath.slashes 2 ++ join_sep []) with (String sep (String sep "")).
      change (endswith_sep (String sep (String sep ""))) with true. cbv iota.
      change (String sep (String sep "") ++ t) with (String sep (String sep t)).
      unfold posixpath.normpath.
      assert (Hinit : posixpath.initial_slashes (String sep (String sep t)) = 2).
      { unfold posixpath.initial_slashes. destruct t as [|c r]; [reflexivity|].
        simpl. now rewrite (Hhead c r eq_refl). }
      rewrite Hinit.
      change (split_sep (String sep (String sep t))) with ("" :: "" :: split_sep t).
      cbn [fold_left]. change (posixpath.norm_step 2 [] "") with (@nil string).
      change (String.eqb (String sep (String sep t)) "") with false. cbv iota.
      reflexivity.
  - assert (Hn : Forall (fun c => is_name c = true) (x :: l)).
    { eapply Forall_impl; [|exact Hnames]. intros a. apply is_proper_name_is_name. }
    assert (Hend : endswith_sep b = false).
    { unfold b. rewrite endswith_sep_app.
      - now apply join_names_no_trailing.
      - inversion Hn; subst. now apply join_names_nonempty. }
    rewrite Hend. change (b ++ "/" ++ t) with (b ++ String sep t).
    assert (Hinit : posixpath.initial_slashes (b ++ String sep t) = i).
    { rewrite (@initial_slashes_app b (String sep t) Hb Hend).
      now apply initial_slashes_normal. }
    assert (Hfold : fold_left (posixpath.norm_step i) (split_sep (b ++ String sep t)) []
                    = fold_left (posixpath.norm_step i) (split_sep t) (x :: l)).
    { rewrite split_sep_app, fold_left_app. unfold b.
      now rewrite (@split_sep_normal i (x :: l) Hi),
        (@norm_fold_split_names i (x :: l) Hnames). }
    unfold posixpath.normpath. rewrite Hinit, Hfold.
    destruct (String.eqb_spec (b ++ String sep t) "") as [H|_].
    { apply append_eq_nil in H as [H _]. contradiction. }
    apply Hslash.
Qed.

Lemma abspath_join_normal (cwd : string) (i : nat) (names : list string) (t : string) :
  i = 1 \/ i = 2 ->
  Forall (fun c => is_proper_name c = true) names ->
  posixpath.isabs t = false ->
  posixpath.abspath cwd (posixpath.join (posixpath.slashes i ++ join_sep names) t)
  = posixpath.slashes i
    ++ join_sep (fold_left (posixpath.norm_step i) (split_sep t) names).
Proof.
  intros Hi Hnames Ht. unfold posixpath.abspath.
  assert (Habs : posixpath.isabs
                   (posixpath.join (posixpath.slashes i ++ join_sep names) t) = true).
  { apply isabs_join. destruct Hi as [-> | ->]; apply isabs_cons. }
  rewrite Habs. now apply normpath_join_normal.
Qed.

Lemma abspath_join_name (cwd : string) (i : nat) (names : list string) (name : string) :
  i = 1 \/ i = 2 ->
  Forall (fun c => is_proper_name c = true) names ->
  is_proper_name name = true ->
  posixpath.abspath cwd (posixpath.join (posixpath.slashes i ++ join_sep names) name)
  = posixpath.slashes i ++ join_sep (names ++ [name])%list.
Proof.
  intros Hi Hnames Hname.
  rewrite (@abspath_join_normal cwd i names name Hi Hnames
             (@proper_name_not_abs name Hname)).
  rewrite split_sep_single
    by now apply is_name_no_sep, is_proper_name_is_name.
  cbn [fold_left]. now rewrite norm_step_name.
Qed.

Lemma norm_step_up (i : nat) (names : list string) :
  i <> 0 -> Forall (fun c => is_proper_name c = true) names ->
  posixpath.norm_step i names ".." = removelast names.
Proof.
  intros Hi Hnames. unfold posixpath.norm_step.
  change (String.eqb ".." "" || String.eqb ".." ".") with false. cbv iota.
  rewrite String.eqb_refl, (last_proper Hnames). cbn [negb orb].
  destruct i; [contradiction|reflexivity].
Qed.

(** Joining [../..] onto a normal form drops its last two names. *)
Lemma abspath_join_up_twice (cwd : string) (i : nat) (names : list string) :
  i = 1 \/ i = 2 ->
  Forall (fun c => is_proper_name c = true) names ->
  posixpath.abspath cwd (posixpath.join (posixpath.slashes i ++ join_sep names) "../..")
  = posixpath.slashes i ++ join_sep (removelast (removelast names)).
Proof.
  intros Hi Hnames.
  rewrite (@abspath_join_normal cwd i names "../.." Hi Hnames eq_refl).
  change (split_sep "../..") with [".."; ".."]. cbn [fold_left].
  assert (Hi' : i <> 0) by (destruct Hi as [-> | ->]; discriminate).
  rewrite (@norm_step_up i names Hi' Hnames).
  rewrite (@norm_step_up i (removelast names) Hi'); [reflexivity|].
  now apply removelast_Forall.
Qed.

(** ** Walking up *)

Lemma walk_ancestors (l : list string) (up : list os.node) (cur : os.node)
      (up' : list os.node) (cur' : os.node) :
  Forall (fun nd => os.is_dir_node nd = true) up ->
  os.walk up cur l = Some (up', cur') ->
  Forall (fun nd => os.is_dir_node nd = true) up'.
Proof.
  revert up cur. induction l as [|c l IH]; intros up cur Hup; simpl.
  - intros H. now injection H as <- <-.
  - destruct cur as [content|sz children]; [discriminate|].
    destruct (String.eqb c "" || String.eqb c "."); [now apply IH|].
    destruct (String.eqb c "..").
    + destruct up as [|parent up0]; [now apply IH|].
      inversion Hup; subst. now apply IH.
    + destruct (os.child c children) as [nd|]; [|discriminate].
      apply IH. now constructor.
Qed.

Lemma walk_up_twice (up : list os.node) (cur : os.node) :
  Forall (fun nd => os.is_dir_node nd = true) up ->
  os.is_dir_node cur = true ->
  exists up' cur', os.walk up cur [".."; ".."] = Some (up', cur')
                   /\ os.is_dir_node cur' = true.
Proof.
  intros Hup Hcur. destruct cur as [content|sz children]; [discriminate|].
  simpl. destruct up as [|p up0].
  - now eexists _, _.
  - inversion Hup as [|? ? Hp Hup0]; subst.
    destruct p as [content|sz' children']; [discriminate|].
    destruct up0 as [|q up1]; [now eexists _, _|].
    inversion Hup0 as [|? ? Hq _]; subst. now eexists _, _.
Qed.

Lemma isdir_join_up_twice (w : os.world) (dir : string) :
  os.isdir w dir = true ->
  os.isdir w (posixpath.abspath (os.getcwd w) (posixpath.join dir "../..")) = true.
Proof.
  unfold os.isdir, os.lookup. intros Hdir.
  destruct (os.resolve w dir) as [[up cur]|] eqn:Hres; [|discriminate].
  simpl in Hdir.
  assert (Hne : dir <> "").
  { intros ->. unfold os.resolve in Hres. discriminate. }
  assert (Hup : Forall (fun nd => os.is_dir_node nd = true) up).
  { unfold os.resolve in Hres. destruct (String.eqb dir ""); [discriminate|].
    exact (@walk_ancestors _ [] (os.root w) up cur (Forall_nil _) Hres). }
  destruct (@walk_up_twice up cur Hup Hdir) as (up' & cur' & Hwalk & Hcur').
  assert (Hjoin : os.resolve w (posixpath.join dir "../..") = Some (up', cur')).
  { rewrite (@resolve_join w dir "../.." Hne eq_refl), Hres. exact Hwalk. }
  rewrite (@resolve_abspath w _ _ Hjoin). exact Hcur'.
Qed.

(** ** Browsing the snapshots listed *)

Section SnapshotNavigation.
Variable E : env.
Variable self : FileSystem.
Hypothesis Hcanonical : canonical_root E self.

Let cwd := os.getcwd (world E).
Let root := Config.file_system_path (config self).

Lemma snapshot_root_normal (snapshot_root : string) :
  _get_snapshot_root E self = Ok snapshot_root ->
  os.isdir (world E) snapshot_root = true
  /\ exists i names,
       (i = 1 \/ i = 2)
       /\ Forall (fun c => is_proper_name c = true) names
       /\ snapshot_root = posixpath.slashes i ++ join_sep names.
Proof.
  intros Hroot. pose proof (get_snapshot_root_cases E self) as H.
  rewrite Hroot in H. destruct H as (Hdir & folder_name & _ & _ & Hshape).
  split; [exact Hdir|].
  assert (Habs : posixpath.isabs
                   (if posixpath.isabs (posixpath.join root folder_name)
                    then posixpath.join root folder_name
                    else posixpath.join cwd (posixpath.join root folder_name)) = true).
  { destruct (posixpath.isabs (posixpath.join root folder_name)) eqn:H; [exact H|].
    apply isabs_join, os.getcwd_isabs. }
  destruct (normpath_abs _ Habs) as (i & names & Hi & Hnames & _ & Hnorm & _).
  exists i, names. split; [exact Hi|]. split; [exact Hnames|].
  rewrite Hshape. exact Hnorm.
Qed.

Hypothesis Hwf : well_formed (os.root (world E)) = true.

(** X19.  In a well-formed tree served from a canonical root that is not
    itself excluded, every snapshot that [list_snapshots] shows can be
    browsed from its top: its id is accepted as a snapshot id, the empty
    path resolves to the directory of the snapshot, and [folder_contents]
    returns for it. *)
Theorem listed_snapshot_can_be_browsed
        (path : string) (scan_limit : option Z)
        (listing : SnapshotList.t) (s : SnapshotSummary.t)
        (Hlisting : list_snapshots E self path = Ok listing)
        (Hs : In s (SnapshotList.snapshots listing))
        (Hroot_free : _check_path_is_in_excluded_folder self
                        (Config.file_system_path (config self)) = false) :
  exists base c,
    snapshot_base E self (SnapshotSummary.id s) = Ok base
    /\ _resolve_full_path E self "" (Some (SnapshotSummary.id s)) = Ok base
    /\ folder_contents E self "" scan_limit (Some (SnapshotSummary.id s)) = Ok c.
Proof.
  destruct (@list_snapshots_inv E self path listing Hlisting)
    as (found & Hsorted & _ & Hfound).
  rewrite Hsorted in Hs.
  apply (Permutation_in _ (Permutation_sym (sort_desc_perm key_lt found))) in Hs.
  destruct Hfound as [->|(sroot & entries & Hroot & Hscan & ->)]; [destruct Hs|].
  apply in_flat_map in Hs as (entry & Hentry & Hs). unfold summarize in Hs.
  destruct (os.is_dir entry) eqn:Hdir; cbn [negb] in Hs; [|destruct Hs].
  destruct Hs as [<-|[]]. cbn [SnapshotSummary.id].
  destruct (@snapshot_root_normal sroot Hroot) as (_ & i & names & Hi & Hnames & Hshape).
  destruct (@scandir_children (world E) sroot entries Hscan)
    as (sz & children & Hlook & Hall).
  destruct (Hall entry Hentry) as (nd & Hnd & Hkind & _).
  rewrite Hshape in Hlook.
  destruct (@lookup_child (world E) i names sz children (os.name entry) nd
              Hwf Hi Hnames Hlook Hnd) as (Hname & Hchild).
  rewrite Hdir in Hkind. destruct nd as [content|sz' children']; [discriminate|].
  set (base := posixpath.slashes i ++ join_sep (names ++ [os.name entry])%list) in *.
  assert (Hbase_eq : posixpath.abspath cwd (posixpath.join sroot (os.name entry)) = base).
  { rewrite Hshape. now apply abspath_join_name. }
  assert (Hisdir : os.isdir (world E) base = true).
  { unfold os.isdir. now rewrite Hchild. }
  assert (Hexists : os.path_exists (world E) base = true).
  { unfold os.path_exists. now rewrite Hchild. }
  assert (Hbase : snapshot_base E self (os.name entry) = Ok base).
  { unfold snapshot_base. rewrite Hroot. cbn [bind]. fold cwd.
    rewrite Hbase_eq, Hisdir. reflexivity. }
  assert (Hgiven : String.eqb (os.name entry) "" = false).
  { apply String.eqb_neq. apply is_name_nonempty. now apply is_proper_name_is_name. }
  assert (Hresolved : _resolve_full_path E self "" (Some (os.name entry)) = Ok base).
  { unfold _resolve_full_path. cbn [is_root_alias String.eqb orb truthy_str].
    rewrite Hgiven. cbn [negb].
    unfold _ensure_path_allowed, _build_path. cbn [String.eqb orb bind].
    unfold _require_path_is_in_excluded_folder. rewrite Hroot_free. cbn [raise_if bind].
    rewrite build_snapshot_path_unfold, Hbase. cbn [bind is_root_alias String.eqb orb].
    now rewrite Hexists. }
  destruct (@scan_returns E self Hcanonical Hwf "" root base (Some (os.name entry))
              (effective_limit self scan_limit) sz' children')
    as (entries' & items' & Hscan' & Hloop'); [discriminate|reflexivity|exact Hchild|].
  exists base. eexists. split; [exact Hbase|]. split; [exact Hresolved|].
  unfold folder_contents. fold (effective_limit self scan_limit).
  cbn [String.eqb orb]. rewrite Hresolved. cbn [bind]. rewrite Hisdir.
  cbn [bind raise_if negb]. rewrite Hscan'. cbn [bind]. rewrite Hloop'. reflexivity.
Qed.

(** X20.  A snapshot id is joined onto the snapshot root, not looked up in
    it.  Served from a canonical root with the snapshot folder named by a
    plain name, the id [../..] is taken for a snapshot whose directory is
    the folder that holds the root of the share: a file that stands beside
    the share is read through it under its plain name, as long as the same
    name is allowed as a live path; and the path resolved is outside the
    share. *)
Theorem parent_snapshot_id_reads_beside_the_share
        (folder_name snapshot_root name : string) (content : list Byte.byte)
        (Hfolder : Config.snapshot_folder_name (config self) = Some folder_name)
        (Hplain : is_proper_name folder_name = true)
        (Hroot : _get_snapshot_root E self = Ok snapshot_root)
        (Hname : is_proper_name name = true)
        (Hbackslash : name <> "\")
        (Hallowed : _ensure_path_allowed E self name = Ok tt)
        (Hfile : os.lookup (world E) (beside_root self name) = Some (os.File content)) :
  _resolve_full_path E self name (Some "../..") = Ok (beside_root self name)
  /\ get_file_content E self name NONE (Some "../..") = Ok content
  /\ (posixpath.components (Config.file_system_path (config self)) <> [] ->
      name <> last (posixpath.components (Config.file_system_path (config self))) "" ->
      ~ within (Config.file_system_path (config self)) (beside_root self name)).
Proof.
  destruct (@canonical_root_normal E self Hcanonical)
    as (Habs & Hcanon & rnames & Hrnames & Hshape & Hcomps).
  fold root cwd in Habs, Hcanon, Hshape, Hcomps.
  pose proof (get_snapshot_root_cases E self) as Hcases. rewrite Hroot in Hcases.
  destruct Hcases as (Hdir & fn & Hfn & _ & Hsroot).
  rewrite Hfolder in Hfn. injection Hfn as <-. fold root cwd in Hsroot.
  assert (Hsroot' : snapshot_root
                    = posixpath.slashes 1 ++ join_sep (rnames ++ [folder_name])%list).
  { rewrite Hsroot, Hshape. apply abspath_join_name; auto. }
  assert (Hall : Forall (fun c => is_proper_name c = true) (rnames ++ [folder_name])%list).
  { apply Forall_app. split; [exact Hrnames|]. now constructor. }
  set (parent := posixpath.slashes 1 ++ join_sep (removelast rnames)).
  assert (Hparent_names : Forall (fun c => is_proper_name c = true) (removelast rnames))
    by now apply removelast_Forall.
  assert (Hbase_eq : posixpath.abspath cwd (posixpath.join snapshot_root "../..") = parent).
  { rewrite Hsroot'. rewrite abspath_join_up_twice; auto.
    now rewrite removelast_last. }
  assert (Hbase : snapshot_base E self "../.." = Ok parent).
  { unfold snapshot_base. rewrite Hroot. cbn [bind]. fold cwd.
    pose proof (@isdir_join_up_twice (world E) snapshot_root Hdir) as Hup.
    fold cwd in Hup. rewrite Hbase_eq in *. rewrite Hup. reflexivity. }
  assert (Hbeside : beside_root self name
                    = posixpath.slashes 1 ++ join_sep (removelast rnames ++ [name])%list).
  { unfold beside_root. fold root. now rewrite Hcomps. }
  assert (Hchild : posixpath.abspath cwd (posixpath.join parent name)
                   = beside_root self name).
  { rewrite Hbeside. apply abspath_join_name; auto. }
  assert (Halias : is_root_alias name = false).
  { unfold is_root_alias.
    destruct (@proper_name_tests name Hname) as [H1 _].
    apply orb_false_iff in H1 as [H1 _]. rewrite H1. cbn [orb].
    destruct (String.eqb_spec name "/") as [->|_]; [discriminate|].
    apply String.eqb_neq in Hbackslash. now rewrite Hbackslash. }
  assert (Hexists : os.path_exists (world E) (beside_root self name) = true).
  { unfold os.path_exists. now rewrite Hfile. }
  assert (Hresolved : _resolve_full_path E self name (Some "../..")
                      = Ok (beside_root self name)).
  { unfold _resolve_full_path. rewrite Halias. cbn [truthy_str String.eqb negb].
    change (String.eqb "../.." "") with false. cbn [negb].
    rewrite Hallowed. cbn [bind].
    rewrite build_snapshot_path_unfold, Hbase. cbn [bind]. rewrite Halias.
    fold cwd. rewrite Hchild.
    assert (Hcommon : posixpath.commonpath [beside_root self name; parent] = Ok parent).
    { rewrite (@commonpath_ancestor (beside_root self name) parent [name]).
      - unfold parent at 1. rewrite components_normal; auto.
      - rewrite Hbeside. apply isabs_cons.
      - apply isabs_cons.
      - rewrite Hbeside. unfold parent. rewrite !components_normal; auto.
        apply Forall_app. split; [exact Hparent_names|]. now constructor. }
    rewrite Hcommon. cbn [bind]. rewrite String.eqb_refl. cbn [negb raise_if bind].
    now rewrite Hexists. }
  split; [exact Hresolved|]. split.
  - unfold get_file_content. rewrite Hresolved. cbn [bind].
    unfold _check_file_size_is_not_too_large, os.stat_size. rewrite Hfile. cbn [bind].
    unfold os.read_bytes. now rewrite Hfile.
  - intros Hnonempty Hlast (_ & _ & rest & Hrest).
    fold root in Hnonempty, Hlast, Hrest. rewrite Hcomps in Hnonempty, Hlast, Hrest.
    rewrite Hbeside in Hrest.
    rewrite components_normal in Hrest; auto.
    + rewrite (app_removelast_last "" Hnonempty) in Hrest at 2.
      rewrite <- app_assoc in Hrest. apply app_inv_head in Hrest.
      injection Hrest as Hrest _. contradiction.
    + apply Forall_app. split; [exact Hparent_names|]. now constructor.
Qed.

End SnapshotNavigation.

Lemma listed_subfolder_can_be_listed_witness :
  exists p c',
    _resolve_full_path Sample.without_hachoir Sample.fs "docs" None = Ok p
    /\ os.isdir Sample.machine p = true
    /\ folder_contents Sample.without_hachoir Sample.fs "docs" None None = Ok c'
    /\ FolderItem.path (FolderContents.folder c') = "docs"
    /\ FolderItem.name (FolderContents.folder c') = "docs".
Proof.
  refine (@listed_subfolder_can_be_listed Sample.without_hachoir Sample.fs
            (conj eq_refl eq_refl) eq_refl "" None None _
            {| FolderItem.name := "docs"; FolderItem.path := "docs" |}
            eq_refl eq_refl (or_introl eq_refl) _).
  discriminate.
Defined.


Lemma listed_snapshot_can_be_browsed_witness :
  exists base c,
    snapshot_base Sample.without_hachoir Sample.fs "weird_name" = Ok base
    /\ _resolve_full_path Sample.without_hachoir Sample.fs "" (Some "weird_name")
       = Ok base
    /\ folder_contents Sample.without_hachoir Sample.fs "" None (Some "weird_name")
       = Ok c.
Proof.
  exact (@listed_snapshot_can_be_browsed Sample.without_hachoir Sample.fs
           (conj eq_refl eq_refl) eq_refl "" None _
           {| SnapshotSummary.id := "weird_name";
              SnapshotSummary.display_name := "weird_name";
              SnapshotSummary.timestamp := None;
              SnapshotSummary.contains_path := true |}
           eq_refl (or_intror (or_intror (or_introl eq_refl))) eq_refl).
Defined.

Lemma parent_snapshot_id_reads_beside_the_share_witness :
  get_file_content Exposed.E Sample.fs "passwd" NONE (Some "../..")
  = Ok (Sample.bytes "root")
  /\ ~ within "/srv/data" "/srv/passwd".
Proof.
  destruct (@parent_snapshot_id_reads_beside_the_share Exposed.E Sample.fs
              (conj eq_refl eq_refl) ".snapshot" "/srv/data/.snapshot" "passwd"
              (Sample.bytes "root") eq_refl eq_refl eq_refl eq_refl)
    as (_ & Hread & Hout); [discriminate|reflexivity|reflexivity|].
  split; [exact Hread|]. apply Hout; discriminate.
Defined.

(** * Snapshot names and their timestamps *)

(** ** The names that parse *)

Module ParseFacts.
Import datetime.
Local Open Scope Z_scope.

(** Proof by cases on a number between 0 and [bound], at most 59. *)
Ltac field_cases n bound tac :=
  let k := fresh "k" in
  let Hk := fresh "Hk" in
  assert (Hk : exists k : nat, n = Z.of_nat k /\ (k <= bound)%nat)
    by (exists (Z.to_nat n); split; lia);
  destruct Hk as (k & -> & Hk);
  do 60 (try (destruct k as [|k]; [first [exfalso; lia | tac]|]));
  exfalso; lia.

Lemma digit_char_spec (n : Z) :
  0 <= n <= 9 -> digit (digit_char n) = true /\ digit_value (digit_char n) = n.
Proof.
  intros H. field_cases n 9%nat ltac:(split; reflexivity).
Qed.

Lemma re_bind_single {A B : Type} (p : re A) (k : A -> re B) (s : string)
      (a : A) (r : string) :
  p s = [(a, r)] -> re_bind p k s = k a r.
Proof. intros H. unfold re_bind. rewrite H. simpl. apply app_nil_r. Qed.

Lemma re_Y_digits (y : Z) (rest : string) :
  0 <= y <= 9999 ->
  re_Y (two_digits (y / 100) ++ two_digits (y mod 100) ++ rest) = [(y, rest)].
Proof.
  intros Hy.
  assert (H1 : 0 <= y / 100 / 10 <= 9).
  { split; [apply Z.div_pos; [apply Z.div_pos|]; lia|].
    apply Z.lt_succ_r, Z.div_lt_upper_bound; [lia|].
    apply Z.div_lt_upper_bound; lia. }
  assert (H2 : 0 <= (y / 100) mod 10 <= 9) by (pose proof (Z.mod_pos_bound (y / 100) 10); lia).
  assert (H3 : 0 <= y mod 100 / 10 <= 9).
  { pose proof (Z.mod_pos_bound y 100).
    split; [apply Z.div_pos; lia|].
    apply Z.lt_succ_r, Z.div_lt_upper_bound; lia. }
  assert (H4 : 0 <= (y mod 100) mod 10 <= 9)
    by (pose proof (Z.mod_pos_bound (y mod 100) 10); lia).
  destruct (digit_char_spec H1) as [D1 V1]. destruct (digit_char_spec H2) as [D2 V2].
  destruct (digit_char_spec H3) as [D3 V3]. destruct (digit_char_spec H4) as [D4 V4].
  unfold two_digits. cbn [append].
  unfold re_Y, re_bind, re_char, re_ret. cbn [flat_map app].
  rewrite D1. cbn [flat_map app]. rewrite D2. cbn [flat_map app].
  rewrite D3. cbn [flat_map app]. rewrite D4. cbn [flat_map app].
  unfold two. rewrite V1, V2, V3, V4. f_equal. f_equal.
  pose proof (Z.div_mod y 100). pose proof (Z.div_mod (y / 100) 10).
  pose proof (Z.div_mod (y mod 100) 10). lia.
Qed.

(** A field of two digits, read up to the literal that follows it: of the
    ways the pattern of the field matches, only the one that takes both
    digits meets the literal. *)
Lemma field_then_literal {A : Type} (p : re Z) (x : ascii) (k : Z -> re A)
      (v : Z) (s rest : string) :
  (exists others, p s = (v, String x rest) :: others
                  /\ Forall (fun e => re_lit x (snd e) = []) others) ->
  re_bind p (fun v0 => re_bind (re_lit x) (fun _ => k v0)) s = k v rest.
Proof.
  intros (others & Hp & Hothers). unfold re_bind at 1. rewrite Hp. cbn [flat_map].
  assert (Hfirst : re_bind (re_lit x) (fun _ => k v) (String x rest) = k v rest).
  { unfold re_lit, re_bind, re_char, is_char, re_ret.
    rewrite Ascii.eqb_refl. cbn [flat_map app]. apply app_nil_r. }
  rewrite Hfirst.
  assert (Hrest : flat_map (fun '(a, rest0) => re_bind (re_lit x) (fun _ => k a) rest0)
                           others = []).
  { clear Hp. induction Hothers as [|[a r] others Ha _ IH]; [reflexivity|].
    cbn [flat_map]. rewrite IH. unfold re_bind at 1. cbn [snd] in Ha. now rewrite Ha. }
  rewrite Hrest. apply app_nil_r.
Qed.

Ltac matches_with_others :=
  eexists; split; [vm_compute; reflexivity|repeat constructor].

Lemma re_m_field {A : Type} (m : Z) (k : Z -> re A) (rest : string) :
  1 <= m <= 12 ->
  re_bind re_m (fun m0 => re_bind (re_lit "_") (fun _ => k m0))
          (two_digits m ++ String "_" rest)
  = k m rest.
Proof.
  intros H. apply field_then_literal. field_cases m 12%nat matches_with_others.
Qed.

Lemma re_d_field {A : Type} (d : Z) (k : Z -> re A) (rest : string) :
  1 <= d <= 31 ->
  re_bind re_d (fun d0 => re_bind (re_lit "_") (fun _ => k d0))
          (two_digits d ++ String "_" rest)
  = k d rest.
Proof.
  intros H. apply field_then_literal. field_cases d 31%nat matches_with_others.
Qed.

Lemma re_H_field {A : Type} (h : Z) (k : Z -> re A) (rest : string) :
  0 <= h <= 23 ->
  re_bind re_H (fun h0 => re_bind (re_lit ".") (fun _ => k h0))
          (two_digits h ++ String "." rest)
  = k h rest.
Proof.
  intros H. apply field_then_literal. field_cases h 23%nat matches_with_others.
Qed.

Lemma re_M_field (m : Z) (rest : string) :
  0 <= m <= 59 ->
  re_M (two_digits m ++ rest)
  = [(m, rest); (m / 10, String (digit_char (m mod 10)) rest)].
Proof.
  intros H. field_cases m 59%nat ltac:(vm_compute; reflexivity).
Qed.

End ParseFacts.

Module ZoneFacts.
Import datetime.

Lemma lower_of_digit (c : ascii) : digit c = true -> lower c = c.
Proof.
  unfold lower, digit, between. intros H.
  apply andb_prop in H as [_ H]. apply Nat.leb_le in H.
  change (nat_of_ascii "9") with 57%nat in H.
  change (nat_of_ascii "A") with 65%nat.
  destruct (Nat.leb_spec 65 (nat_of_ascii c)); [lia|reflexivity].
Qed.

Lemma lower_is_no_digit (x : ascii) : digit x = false -> digit (lower x) = false.
Proof.
  unfold lower. intros H.
  destruct (between "A" "Z" x) eqn:Hup; [|exact H].
  unfold between in Hup. apply andb_prop in Hup as [H1 H2].
  apply Nat.leb_le in H1, H2.
  change (nat_of_ascii "A") with 65%nat in H1.
  change (nat_of_ascii "Z") with 90%nat in H2.
  unfold digit, between.
  rewrite nat_ascii_embedding by lia.
  change (nat_of_ascii "9") with 57%nat.
  destruct (Nat.leb_spec (nat_of_ascii x + 32) 57); [lia|].
  apply andb_false_r.
Qed.

(** A time-zone name that opens without a digit matches neither the empty
    text nor a text that opens with a digit. *)
Lemma re_word_no_digit (w : string) (s : string) :
  opens_without_digit w = true ->
  (s = "" \/ exists c r, s = String c r /\ digit c = true) ->
  re_word w s = [].
Proof.
  destruct w as [|x w]; [discriminate|]. simpl. intros Hx Hs.
  apply negb_true_iff in Hx. unfold re_bind, re_char.
  destruct Hs as [->|(c & r & -> & Hc)]; [reflexivity|].
  destruct (Ascii.eqb_spec (lower c) (lower x)) as [Heq|_]; [|reflexivity].
  rewrite (@lower_of_digit c Hc) in Heq.
  pose proof (@lower_is_no_digit x Hx) as Hl. rewrite <- Heq in Hl. congruence.
Qed.

Lemma re_Z_no_digit (names : list string) (s : string) :
  forallb opens_without_digit names = true ->
  (s = "" \/ exists c r, s = String c r /\ digit c = true) ->
  re_Z names s = [].
Proof.
  intros Hnames Hs. induction names as [|w names IH]; [reflexivity|].
  simpl in Hnames. apply andb_prop in Hnames as [Hw Hnames].
  simpl. unfold re_alt. now rewrite (@re_word_no_digit w s Hw Hs), (IH Hnames).
Qed.

(** A time-zone name matches the text that spells it, whatever the case of
    the letters, and takes all of it. *)
Lemma re_word_same (w z : string) :
  str_lower z = str_lower w -> re_word w z = [(tt, "")].
Proof.
  revert z. induction w as [|x w IH]; intros z Hz.
  - destruct z; [reflexivity|discriminate].
  - destruct z as [|c z]; [discriminate|]. simpl in Hz. injection Hz as Hc Hz.
    simpl. unfold re_bind, re_char. rewrite Hc, Ascii.eqb_refl. cbn [flat_map].
    rewrite (IH z Hz). reflexivity.
Qed.

(** Whatever a time-zone name matches, it takes as many characters as it
    has. *)
Lemma re_word_length (w z : string) :
  re_word w z = []
  \/ exists r, re_word w z = [(tt, r)]
               /\ String.length z = (String.length w + String.length r)%nat.
Proof.
  revert z. induction w as [|x w IH]; intros z.
  - right. exists z. split; reflexivity.
  - destruct z as [|c z]; [now left|]. simpl. unfold re_bind, re_char.
    destruct (Ascii.eqb (lower c) (lower x)); [|now left]. cbn [flat_map].
    rewrite app_nil_r. destruct (IH z) as [->|(r & -> & Hlen)]; [now left|].
    right. exists r. split; [reflexivity|]. simpl. now rewrite Hlen.
Qed.

Lemma str_lower_length (s : string) : String.length (str_lower s) = String.length s.
Proof. induction s as [|c s IH]; simpl; [reflexivity|now rewrite IH]. Qed.

(** With the names listed longest first, the first match of a text that
    spells one of them takes all of it. *)
Lemma re_Z_head (names : list string) (w z : string) :
  StronglySorted (fun a b => (String.length b <= String.length a)%nat) names ->
  In w names -> str_lower z = str_lower w ->
  exists others, re_Z names z = (tt, "") :: others.
Proof.
  intros Hsorted Hin Hz.
  assert (Hlen : String.length z = String.length w).
  { rewrite <- (str_lower_length z), Hz. apply str_lower_length. }
  induction Hsorted as [|a names _ IH Ha]; [destruct Hin|].
  simpl. unfold re_alt. destruct Hin as [->|Hin].
  - rewrite (@re_word_same w z Hz). now eexists.
  - rewrite Forall_forall in Ha. specialize (Ha w Hin).
    destruct (re_word_length a z) as [->|(r & -> & Hr)]; [now apply IH|].
    assert (Hnil : String.length r = 0%nat) by lia.
    destruct r; [|discriminate]. now eexists.
Qed.

End ZoneFacts.

Module NameFacts.
Import datetime ParseFacts.
Local Open Scope Z_scope.

Lemma calendar_time_ranges (t : t) :
  is_calendar_time t ->
  1 <= year t <= 9999 /\ 1 <= month t <= 12 /\ 1 <= day t <= 31
  /\ 0 <= hour t <= 23 /\ 0 <= minute t <= 59.
Proof.
  unfold is_calendar_time, make.
  destruct (_ && _) eqn:H; [|discriminate]. intros _.
  repeat (apply andb_prop in H as [H ?]).
  assert (Hdim : days_in_month (year t) (month t) <= 31).
  { unfold days_in_month. destruct (_ =? 2); [destruct (is_leap _); lia|].
    destruct (_ || _); lia. }
  lia.
Qed.

Lemma re_lit_step {A : Type} (x : ascii) (k : re A) (rest : string) :
  re_bind (re_lit x) (fun _ => k) (String x rest) = k rest.
Proof.
  unfold re_lit, re_bind, re_char, is_char, re_ret.
  rewrite Ascii.eqb_refl. cbn [flat_map app]. apply app_nil_r.
Qed.

(** What the fields of the pattern read off a full-width name, with
    whatever follows it: the fields of the name, in two ways, the second of
    which leaves the last digit unread. *)
Lemma re_fields_name (t : t) (s : string) :
  is_calendar_time t ->
  re_fields (snapshot_name t ++ s)
  = [((year t, month t, day t, hour t, minute t), s);
     ((year t, month t, day t, hour t, minute t / 10),
      String (digit_char (minute t mod 10)) s)].
Proof.
  intros Ht. destruct (@calendar_time_ranges t Ht) as (Hy & Hm & Hd & HH & HM).
  assert (Hshape : snapshot_name t ++ s
                   = two_digits (year t / 100) ++ two_digits (year t mod 100)
                     ++ String "_" (two_digits (month t)
                     ++ String "_" (two_digits (day t)
                     ++ String "_" (two_digits (hour t)
                     ++ String "." (two_digits (minute t) ++ s)))))
    by reflexivity.
  rewrite Hshape. unfold re_fields.
  assert (Hy' : 0 <= year t <= 9999) by lia.
  rewrite (@re_bind_single _ _ re_Y _ _ (year t) _ (@re_Y_digits (year t) _ Hy')).
  cbv beta. rewrite re_lit_step.
  rewrite (@re_m_field _ (month t) _ _ Hm).
  rewrite (@re_d_field _ (day t) _ _ Hd).
  rewrite (@re_H_field _ (hour t) _ _ HH).
  unfold re_bind. rewrite (@re_M_field (minute t) s HM). reflexivity.
Qed.

End NameFacts.

(** X21.  A snapshot named by the pattern [%Y_%m_%d_%H.%M] at full width
    gets its timestamp back: for every calendar date and time of day, when
    no time-zone name of the locale is empty or opens with a digit, the name
    parses to that very time; and, with the time-zone names tried longest
    first, so does the name followed by any of them, in whatever case. *)
Theorem full_width_snapshot_name_parses
        (E : env) (t : datetime.t)
        (Htime : is_calendar_time t)
        (Hzones : forallb opens_without_digit (tznames E) = true) :
  _parse_snapshot_timestamp E (snapshot_name t) = Some t
  /\ (StronglySorted (fun a b => (String.length b <= String.length a)%nat) (tznames E) ->
      forall w z, In w (tznames E) -> str_lower z = str_lower w ->
                  _parse_snapshot_timestamp E (snapshot_name t ++ z) = Some t).
Proof.
  split.
  - unfold _parse_snapshot_timestamp, datetime.strptime, datetime.format_re.
    replace (snapshot_name t) with (snapshot_name t ++ "")
      by (clear; induction (snapshot_name t) as [|c s IH]; simpl; [|rewrite IH];
          reflexivity).
    unfold datetime.re_bind at 1. rewrite (@NameFacts.re_fields_name t "" Htime).
    cbn [flat_map]. unfold datetime.re_bind.
    rewrite (@ZoneFacts.re_Z_no_digit (tznames E) "" Hzones (or_introl eq_refl)).
    rewrite (@ZoneFacts.re_Z_no_digit (tznames E) _ Hzones).
    + cbn [flat_map app]. rewrite String.eqb_refl. exact Htime.
    + right. eexists _, _. split; [reflexivity|].
      apply (@ParseFacts.digit_char_spec (datetime.minute t mod 10)).
      destruct (@NameFacts.calendar_time_ranges t Htime) as (_ & _ & _ & _ & HM).
      pose proof (Z.mod_pos_bound (datetime.minute t) 10). lia.
  - intros Hsorted w z Hw Hz.
    unfold _parse_snapshot_timestamp, datetime.strptime, datetime.format_re.
    unfold datetime.re_bind at 1. rewrite (@NameFacts.re_fields_name t z Htime).
    cbn [flat_map]. unfold datetime.re_bind at 1.
    destruct (@ZoneFacts.re_Z_head (tznames E) w z Hsorted Hw Hz) as [others ->].
    cbn [flat_map app datetime.re_ret]. rewrite String.eqb_refl, Htime. reflexivity.
Qed.

Lemma full_width_snapshot_name_parses_witness :
  _parse_snapshot_timestamp Sample.without_hachoir "2024_02_29_23.59"
  = datetime.make 2024 2 29 23 59
  /\ _parse_snapshot_timestamp Sample.without_hachoir "2024_02_29_23.59UTC"
     = datetime.make 2024 2 29 23 59.
Proof.
  destruct (@full_width_snapshot_name_parses Sample.without_hachoir
              {| datetime.year := 2024; datetime.month := 2; datetime.day := 29;
                 datetime.hour := 23; datetime.minute := 59 |} eq_refl eq_refl)
    as [Hplain Hzone].
  split; [exact Hplain|].
  apply (Hzone (SSorted_cons "utc" (SSorted_cons "gmt" (SSorted_nil _) (Forall_nil _))
                   (Forall_cons "gmt" (le_n 3) (Forall_nil _)))
               "utc" "UTC" (or_introl eq_refl) eq_refl).
Defined.

(** * Limited listings *)

Section LimitedListings.
Variable E : env.
Variable self : FileSystem.



End LimitedListings.


(** * Kinds of files *)

Lemma lower_keeps_punctuation (c x : ascii) :
  (nat_of_ascii x < 65)%nat ->
  Ascii.eqb (datetime.lower c) x = Ascii.eqb c x.
Proof.
  intros Hx. unfold datetime.lower.
  destruct (datetime.between "A" "Z" c) eqn:Hup; [|reflexivity].
  unfold datetime.between in Hup. apply andb_prop in Hup as [H1 H2].
  apply Nat.leb_le in H1, H2.
  change (nat_of_ascii "A") with 65%nat in H1.
  change (nat_of_ascii "Z") with 90%nat in H2.
  destruct (Ascii.eqb_spec (ascii_of_nat (nat_of_ascii c + 32)) x) as [Heq|_].
  - exfalso. rewrite <- Heq in Hx. rewrite nat_ascii_embedding in Hx; lia.
  - destruct (Ascii.eqb_spec c x) as [Heq|_]; [|reflexivity].
    exfalso. rewrite <- Heq in Hx. lia.
Qed.

Lemma after_last_lower (x : ascii) (s : string) :
  (nat_of_ascii x < 65)%nat -> after_last x (str_lower s) = after_last x s.
Proof.
  intros Hx. induction s as [|c s IH]; [reflexivity|]. simpl.
  now rewrite IH, (@lower_keeps_punctuation c x Hx).
Qed.

Lemma get_lower (s : string) (i : nat) :
  String.get i (str_lower s) = option_map datetime.lower (String.get i s).
Proof.
  revert i. induction s as [|c s IH]; intros i; [reflexivity|].
  destruct i as [|i]; [reflexivity|]. simpl. apply IH.
Qed.

Lemma has_non_dot_lower (s : string) (i n : nat) :
  has_non_dot (str_lower s) i n = has_non_dot s i n.
Proof.
  revert i. induction n as [|n IH]; intros i; [reflexivity|]. simpl.
  rewrite get_lower. destruct (String.get i s) as [c|]; [|reflexivity]. simpl.
  rewrite (@lower_keeps_punctuation c "." ltac:(vm_compute; lia)).
  destruct (Ascii.eqb c "."); [apply IH|reflexivity].
Qed.

Lemma str_drop_lower (s : string) (i : nat) :
  str_drop i (str_lower s) = str_lower (str_drop i s).
Proof.
  revert i. induction s as [|c s IH]; intros i; [now destruct i|].
  destruct i as [|i]; [reflexivity|]. simpl. apply IH.
Qed.

(** The extension of a name in lower case is the extension of the name, in
    lower case. *)
Lemma splitext_lower (s : string) :
  snd (splitext (str_lower s)) = str_lower (snd (splitext s)).
Proof.
  unfold splitext.
  rewrite (@after_last_lower sep s ltac:(vm_compute; lia)).
  rewrite (@after_last_lower "." s ltac:(vm_compute; lia)).
  rewrite has_non_dot_lower.
  destruct (_ && _); [|reflexivity]. cbn [snd]. apply str_drop_lower.
Qed.

(** X23.  The two kinds a file name can show go by its extension alone,
    whatever the case of its letters: two names that agree up to case show
    the same kinds; and no name shows both, an image being none of the files
    text is extracted from. *)
Theorem file_kinds_by_extension (f g : FileItem.t) :
  (str_lower (FileItem.name f) = str_lower (FileItem.name g) ->
   is_supported_image f = is_supported_image g
   /\ supports_text_extraction f = supports_text_extraction g)
  /\ (is_supported_image f = true -> supports_text_extraction f = false).
Proof.
  split.
  - intros Hsame. unfold is_supported_image, supports_text_extraction.
    now rewrite <- !splitext_lower, Hsame.
  - unfold is_supported_image, supports_text_extraction.
    set (ext := str_lower (snd (splitext (FileItem.name f)))).
    destruct (String.eqb_spec ext ".png") as [->|_]; [reflexivity|].
    destruct (String.eqb_spec ext ".jpg") as [->|_]; [reflexivity|].
    destruct (String.eqb_spec ext ".jpeg") as [->|_]; [reflexivity|discriminate].
Qed.

Lemma file_kinds_by_extension_witness :
  is_supported_image (FileItem.make "CAT.Jpg" "pics.d/CAT.Jpg" 3)
  = is_supported_image (FileItem.make "cat.JPG" "pics.d/cat.JPG" 3)
  /\ supports_text_extraction (FileItem.make "CAT.Jpg" "pics.d/CAT.Jpg" 3)
     = supports_text_extraction (FileItem.make "cat.JPG" "pics.d/cat.JPG" 3).
Proof.
  exact (proj1 (file_kinds_by_extension (FileItem.make "CAT.Jpg" "pics.d/CAT.Jpg" 3)
                  (FileItem.make "cat.JPG" "pics.d/cat.JPG" 3)) eq_refl).
Defined.
